(** * Switching regulator core (firmware/regulator.c)

    A shallow embedding of the two-channel regulator control code and
    the properties of its feedback loop, PWM synthesis and public
    configuration interface.

    Machine integers are mathematical integers ([Z]) with every
    conversion of the C program written out: [to_uint16], [to_uint32],
    [to_uint64] reduce modulo the width, [to_int32] is the two's
    complement reading of the low 32 bits.  The target is a 32-bit
    Cortex-M (int and unsigned int are 32 bits wide). *)

From Stdlib Require Import ZArith List Lia Bool.
Import ListNotations.
Open Scope Z_scope.

(** ** Machine integers *)

Definition to_uint16 (x : Z) : Z := x mod 2 ^ 16.
Definition to_uint32 (x : Z) : Z := x mod 2 ^ 32.
Definition to_uint64 (x : Z) : Z := x mod 2 ^ 64.
Definition to_int32 (x : Z) : Z := (x + 2 ^ 31) mod 2 ^ 32 - 2 ^ 31.

Arguments to_uint16 : simpl never.
Arguments to_uint32 : simpl never.
Arguments to_uint64 : simpl never.
Arguments to_int32 : simpl never.

Definition is_uint16 (x : Z) : Prop := 0 <= x < 2 ^ 16.
Definition is_uint32 (x : Z) : Prop := 0 <= x < 2 ^ 32.
Definition is_int32 (x : Z) : Prop := - 2 ^ 31 <= x < 2 ^ 31.

(** ** Types of regulator.h *)

(** [fixed32_t] and [fract32_t] are both [int] holding a 16.16 value. *)
Definition fixed32_t := Z.
Definition fract32_t := Z.

Inductive feedback_mode : Set :=
  DISABLED | CONST_DUTY | CURRENT_FB | VOLTAGE_FB | MAX_POWER.

Inductive ch2_source_t : Set := BATTERY | INPUT.

Definition feedback_mode_eqb (a b : feedback_mode) : bool :=
  match a, b with
  | DISABLED, DISABLED | CONST_DUTY, CONST_DUTY | CURRENT_FB, CURRENT_FB
  | VOLTAGE_FB, VOLTAGE_FB | MAX_POWER, MAX_POWER => true
  | _, _ => false
  end.

(** ** The channel record *)

Record feedback_gains : Set := mk_gains {
  prop_gain1 : fixed32_t;
  prop_gain2 : fixed32_t
}.

(** [struct regulator_t].  The four function pointers of the C struct
    are set once by the static initialisers of [chan1] and [chan2] and
    never assigned afterwards, and the struct type is incomplete outside
    regulator.c, so a [struct regulator_t *] is the address of one of
    the two channels: the model passes a [chan_id] where the code passes
    the pointer, and dispatches the four capabilities on it. *)
Record regulator_t : Set := mk_regulator {
  vsense_gain : Z;        (* uint32_t, codepoints per volt *)
  isense_gain : Z;        (* uint32_t, codepoints per amp *)
  period : Z;             (* uint32_t, period in cycles *)
  duty1 : fract32_t;
  duty2 : fract32_t;
  isense : Z;             (* uint16_t *)
  vsense : Z;             (* uint16_t *)
  mode : feedback_mode;
  isetpoint : Z;          (* uint16_t *)
  vlimit : Z;             (* uint16_t *)
  vsetpoint : Z;          (* uint16_t *)
  ilimit : Z;             (* uint16_t *)
  i_gains : feedback_gains;
  v_gains : feedback_gains;
  i1_prop_gain : fixed32_t;
  i2_prop_gain : fixed32_t
}.

Inductive chan_id : Set := Chan1 | Chan2.

Definition with_period (r : regulator_t) (x : Z) : regulator_t :=
  mk_regulator (vsense_gain r) (isense_gain r) x (duty1 r) (duty2 r)
    (isense r) (vsense r) (mode r) (isetpoint r) (vlimit r) (vsetpoint r)
    (ilimit r) (i_gains r) (v_gains r) (i1_prop_gain r) (i2_prop_gain r).

Definition with_duty1 (r : regulator_t) (x : Z) : regulator_t :=
  mk_regulator (vsense_gain r) (isense_gain r) (period r) x (duty2 r)
    (isense r) (vsense r) (mode r) (isetpoint r) (vlimit r) (vsetpoint r)
    (ilimit r) (i_gains r) (v_gains r) (i1_prop_gain r) (i2_prop_gain r).

Definition with_duty2 (r : regulator_t) (x : Z) : regulator_t :=
  mk_regulator (vsense_gain r) (isense_gain r) (period r) (duty1 r) x
    (isense r) (vsense r) (mode r) (isetpoint r) (vlimit r) (vsetpoint r)
    (ilimit r) (i_gains r) (v_gains r) (i1_prop_gain r) (i2_prop_gain r).

Definition with_isense (r : regulator_t) (x : Z) : regulator_t :=
  mk_regulator (vsense_gain r) (isense_gain r) (period r) (duty1 r) (duty2 r)
    x (vsense r) (mode r) (isetpoint r) (vlimit r) (vsetpoint r)
    (ilimit r) (i_gains r) (v_gains r) (i1_prop_gain r) (i2_prop_gain r).

Definition with_vsense (r : regulator_t) (x : Z) : regulator_t :=
  mk_regulator (vsense_gain r) (isense_gain r) (period r) (duty1 r) (duty2 r)
    (isense r) x (mode r) (isetpoint r) (vlimit r) (vsetpoint r)
    (ilimit r) (i_gains r) (v_gains r) (i1_prop_gain r) (i2_prop_gain r).

Definition with_mode (r : regulator_t) (x : feedback_mode) : regulator_t :=
  mk_regulator (vsense_gain r) (isense_gain r) (period r) (duty1 r) (duty2 r)
    (isense r) (vsense r) x (isetpoint r) (vlimit r) (vsetpoint r)
    (ilimit r) (i_gains r) (v_gains r) (i1_prop_gain r) (i2_prop_gain r).

Definition with_isetpoint (r : regulator_t) (x : Z) : regulator_t :=
  mk_regulator (vsense_gain r) (isense_gain r) (period r) (duty1 r) (duty2 r)
    (isense r) (vsense r) (mode r) x (vlimit r) (vsetpoint r)
    (ilimit r) (i_gains r) (v_gains r) (i1_prop_gain r) (i2_prop_gain r).

Definition with_vsetpoint (r : regulator_t) (x : Z) : regulator_t :=
  mk_regulator (vsense_gain r) (isense_gain r) (period r) (duty1 r) (duty2 r)
    (isense r) (vsense r) (mode r) (isetpoint r) (vlimit r) x
    (ilimit r) (i_gains r) (v_gains r) (i1_prop_gain r) (i2_prop_gain r).

(** ** Peripheral driver calls

    The libopencm3 primitives are outside the core; a call to one of
    them is recorded in the order of execution (most recent first). *)

Inductive timer_id : Set := TIM2 | TIM3 | TIM4 | TIM7.
Inductive tim_oc_id : Set := TIM_OC1 | TIM_OC3.
Inductive tim_ocm : Set := TIM_OCM_PWM1 | TIM_OCM_PWM2.
Inductive tim_mms : Set := TIM_CR2_MMS_ENABLE | TIM_CR2_MMS_UPDATE.
Inductive clock_gate : Set :=
  RCC_APB1ENR_TIM2EN | RCC_APB1ENR_TIM3EN | RCC_APB1ENR_TIM4EN
| RCC_APB1ENR_TIM7EN | RCC_APB2ENR_ADC1EN.

Inductive hw_call : Set :=
| timer_reset (t : timer_id)
| timer_continuous_mode (t : timer_id)
| timer_set_oc_mode (t : timer_id) (oc : tim_oc_id) (m : tim_ocm)
| timer_set_oc_value (t : timer_id) (oc : tim_oc_id) (v : Z)
| timer_enable_oc_preload (t : timer_id) (oc : tim_oc_id)
| timer_enable_oc_output (t : timer_id) (oc : tim_oc_id)
| timer_disable_oc_output (t : timer_id) (oc : tim_oc_id)
| timer_set_mode_center_3 (t : timer_id)
| timer_enable_preload (t : timer_id)
| timer_set_period (t : timer_id) (p : Z)
| timer_generate_event_ug (t : timer_id)
| timer_set_master_mode (t : timer_id) (m : tim_mms)
| timer_slave_set_mode_gated (t : timer_id)
| timer_slave_set_trigger (t : timer_id) (src : Z)
| timer_set_prescaler (t : timer_id) (v : Z)
| timer_enable_counter (t : timer_id)
| timer_disable_counter (t : timer_id)
| rcc_peripheral_enable_clock (g : clock_gate)
| rcc_peripheral_disable_clock (g : clock_gate)
| rcc_osc_on_hsi
| rcc_osc_off_hsi
| adc_off
| adc_power_on
| nvic_enable_irq_adc1
| adc_enable_external_trigger_injected
| adc_set_sample_time_on_all_channels
| adc_enable_eoc_interrupt_injected
| adc_set_clk_prescale
| adc_set_injected_sequence (sequence : list Z)
| adc_enable_scan_mode
| adc_clear_jeoc
| gpio_set_a5
| gpio_clear_a5.

(** What the hardware answers to the three busy-waits of
    [setup_common_peripherals]: whether the awaited flag is ever seen. *)
Record hw_env : Set := mk_env {
  hsi_ready : bool;        (* rcc_wait_for_osc_ready(HSI) *)
  adc_adons_set : bool;    (* while (!(ADC1_SR & ADC_SR_ADONS)); *)
  adc_jcnr_clear : bool    (* while (ADC1_SR & ADC_SR_JCNR); *)
}.

Definition responsive : hw_env := mk_env true true true.

(** ** Global state *)

Record system : Set := mk_system {
  chan1 : regulator_t;
  chan2 : regulator_t;
  ch2_oc : tim_oc_id;
  adc1en : bool;           (* RCC_APB2ENR & RCC_APB2ENR_ADC1EN *)
  calls : list hw_call
}.

Definition chan (r : chan_id) (s : system) : regulator_t :=
  match r with Chan1 => chan1 s | Chan2 => chan2 s end.

Definition with_chan (r : chan_id) (x : regulator_t) (s : system) : system :=
  match r with
  | Chan1 => mk_system x (chan2 s) (ch2_oc s) (adc1en s) (calls s)
  | Chan2 => mk_system (chan1 s) x (ch2_oc s) (adc1en s) (calls s)
  end.

Definition with_ch2_oc (x : tim_oc_id) (s : system) : system :=
  mk_system (chan1 s) (chan2 s) x (adc1en s) (calls s).

Definition with_adc1en (x : bool) (s : system) : system :=
  mk_system (chan1 s) (chan2 s) (ch2_oc s) x (calls s).

Definition with_call (c : hw_call) (s : system) : system :=
  mk_system (chan1 s) (chan2 s) (ch2_oc s) (adc1en s) (c :: calls s).

(** ** Computations: state, and the two ways of never returning *)

Inductive stop : Set :=
| FatalFault   (* the while (1) of set_pwm_duty *)
| Stalled.     (* a busy-wait on a flag that never changes *)

Inductive outcome (A : Type) : Type :=
| Ret (a : A) (s : system)
| Stop (w : stop) (s : system).
Arguments Ret {A} a s.
Arguments Stop {A} w s.

Definition M (A : Type) : Type := system -> outcome A.

Definition ret {A} (a : A) : M A := fun s => Ret a s.

Definition bind {A B} (m : M A) (k : A -> M B) : M B :=
  fun s => match m s with
           | Ret a s' => k a s'
           | Stop w s' => Stop w s'
           end.

Notation "x <- m ;; k" := (bind m (fun x => k))
  (at level 61, m at next level, right associativity).
Notation "m ;; k" := (bind m (fun _ => k))
  (at level 61, right associativity).

(** The state in which a computation ends, returned or not. *)
Definition state_of {A} (o : outcome A) : system :=
  match o with Ret _ s => s | Stop _ s => s end.

Definition returned {A} (o : outcome A) : Prop :=
  match o with Ret _ _ => True | Stop _ _ => False end.

Definition read {A} (f : system -> A) : M A := fun s => Ret (f s) s.
Definition modify (f : system -> system) : M unit := fun s => Ret tt (f s).
Definition emit (c : hw_call) : M unit := modify (with_call c).
Definition halt {A} (w : stop) : M A := fun s => Stop w s.
Definition wait_for (seen : bool) : M unit :=
  if seen then ret tt else halt Stalled.

(** An assignment to fields of the channel behind a pointer. *)
Definition update_chan (r : chan_id) (f : regulator_t -> regulator_t) : M unit :=
  modify (fun s => with_chan r (f (chan r s)) s).

(** ** Static data *)

Definition vsense1_ch : Z := 4.   (* ADC_CHANNEL4 *)
Definition isense1_ch : Z := 3.   (* ADC_CHANNEL3 *)
Definition vsense2_ch : Z := 21.  (* ADC_CHANNEL21 *)
Definition isense2_ch : Z := 20.  (* ADC_CHANNEL20 *)

Definition TIM_SMCR_TS_ITR1 : Z := 0x10.

(** The initialisers of [chan1] and [chan2].  The gains are constant
    expressions in double precision converted to uint32_t:
    (1<<12) / 3.3 * 33/(33+68) = 405.54.., (1<<12) / (3.3 / 0.05 / 10) =
    620.6.., (1<<12) / (3.3 / 0.05 / 47) = 2916.8..; fields without an
    initialiser are zero. *)
Definition chan1_init : regulator_t :=
  mk_regulator 405 620 (2000000 / 5000) 0 0 0 0 DISABLED
    0 0xffff 0 0xffff (mk_gains 0x10000 0x10000) (mk_gains 0x10000 0x10000)
    0 0.

Definition chan2_init : regulator_t :=
  mk_regulator 405 2916 (2000000 / 5000) 0 0 0 0 DISABLED
    0 0xffff 0 0xffff (mk_gains 0x10000 0x10000) (mk_gains 0x10000 0x10000)
    0 0.

Definition power_on : system :=
  mk_system chan1_init chan2_init TIM_OC3 false [].

(** ** Shared peripherals *)

Definition mode_is (m : feedback_mode) (reg : regulator_t) : bool :=
  feedback_mode_eqb (mode reg) m.

Definition clock_enable (g : clock_gate) : M unit :=
  emit (rcc_peripheral_enable_clock g) ;;
  match g with
  | RCC_APB2ENR_ADC1EN => modify (with_adc1en true)
  | _ => ret tt
  end.

Definition clock_disable (g : clock_gate) : M unit :=
  emit (rcc_peripheral_disable_clock g) ;;
  match g with
  | RCC_APB2ENR_ADC1EN => modify (with_adc1en false)
  | _ => ret tt
  end.

Definition setup_common_peripherals (env : hw_env) : M unit :=
  let sequence := [vsense1_ch; isense1_ch; vsense2_ch; isense2_ch] in
  c1 <- read chan1 ;;
  c2 <- read chan2 ;;
  if mode_is DISABLED c1 && mode_is DISABLED c2 then
    on <- read adc1en ;;
    (if on then emit adc_off else ret tt) ;;
    clock_disable RCC_APB1ENR_TIM7EN ;;
    clock_disable RCC_APB2ENR_ADC1EN ;;
    emit rcc_osc_off_hsi
  else
    emit rcc_osc_on_hsi ;;
    wait_for (hsi_ready env) ;;
    clock_enable RCC_APB1ENR_TIM7EN ;;
    clock_enable RCC_APB2ENR_ADC1EN ;;
    emit nvic_enable_irq_adc1 ;;
    emit adc_enable_external_trigger_injected ;;
    emit adc_set_sample_time_on_all_channels ;;
    emit adc_enable_eoc_interrupt_injected ;;
    emit adc_set_clk_prescale ;;
    emit (adc_set_injected_sequence sequence) ;;
    emit adc_enable_scan_mode ;;
    emit adc_power_on ;;
    wait_for (adc_adons_set env) ;;
    wait_for (adc_jcnr_clear env) ;;
    emit (timer_reset TIM7) ;;
    emit (timer_continuous_mode TIM7) ;;
    emit (timer_set_prescaler TIM7 0x1) ;;
    emit (timer_set_period TIM7 (2097000 / 1000)) ;;
    emit (timer_set_master_mode TIM7 TIM_CR2_MMS_UPDATE) ;;
    emit (timer_enable_counter TIM7).

(** ** PWM synthesis *)

(** [uint32_t t = ((uint64_t) d * period) >> 16; if (t > 0xffff) while (1);] *)
Definition pwm_ticks (period : Z) (d : fract32_t) : Z :=
  to_uint32 (Z.shiftr (to_uint64 (to_uint64 d * period)) 16).

Definition set_pwm_duty (timer : timer_id) (oc : tim_oc_id)
    (period : Z) (d : fract32_t) : M unit :=
  let t := pwm_ticks period d in
  if t >? 0xffff then halt FatalFault
  else emit (timer_set_oc_value timer oc t).

Definition configure_pwm (timer : timer_id) (oc : tim_oc_id)
    (period : Z) (pol : bool) (t : Z) : M Z :=
  emit (timer_reset timer) ;;
  emit (timer_continuous_mode timer) ;;
  emit (timer_set_oc_mode timer oc (if pol then TIM_OCM_PWM1 else TIM_OCM_PWM2)) ;;
  emit (timer_set_oc_value timer oc t) ;;
  emit (timer_enable_oc_preload timer oc) ;;
  emit (timer_enable_oc_output timer oc) ;;
  emit (timer_set_mode_center_3 timer) ;;
  emit (timer_enable_preload timer) ;;
  emit (timer_set_period timer period) ;;
  emit (timer_generate_event_ug timer) ;;
  ret 0.

Definition configure_dual_pwm (timer_a : timer_id) (oc_a : tim_oc_id)
    (timer_b : timer_id) (oc_b : tim_oc_id) (slave_trigger_src : Z)
    (period ta tb dt : Z) : M Z :=
  configure_pwm timer_a oc_a period true ta ;;
  configure_pwm timer_b oc_b period true tb ;;
  emit (timer_set_master_mode timer_a TIM_CR2_MMS_ENABLE) ;;
  emit (timer_slave_set_mode_gated timer_b) ;;
  emit (timer_slave_set_trigger timer_b slave_trigger_src) ;;
  emit (timer_set_period timer_a (to_uint32 (period - dt))) ;;
  emit (timer_generate_event_ug timer_a) ;;
  emit (timer_set_period timer_a period) ;;
  ret 0.

(** ** The feedback loop *)

Definition fudge : Z := 2000.

(** [((int64_t) error * gain) >> 16], an arithmetic shift of a product
    that fits 64 bits. *)
Definition gain_term (error gain : Z) : Z := Z.shiftr (error * gain) 16.
Arguments gain_term : simpl never.

Definition regulator_feedback_error (reg : regulator_t)
    (gains : feedback_gains) (error : Z) : regulator_t :=
  let reg :=
    if (error <? 0) && (duty1 reg >? 0xffff - fudge)
                    && (duty2 reg >? 0xffff - fudge) then
      with_duty2 (with_duty1 reg (0xffff / 2)) (0xffff / 2)
    else if (error <? 0) && (duty1 reg >? 0xffff - fudge) then
      with_duty2 reg (to_int32 (duty2 reg - gain_term error (prop_gain2 gains)))
    else if (error >? 0) && (duty1 reg <? fudge) then
      with_duty2 reg (to_int32 (duty2 reg - gain_term error (prop_gain2 gains)))
    else if (error <? 0) && (duty2 reg >? fudge) then
      with_duty2 reg (to_int32 (duty2 reg + gain_term error (prop_gain2 gains)))
    else
      with_duty1 reg (to_int32 (duty1 reg - gain_term error (prop_gain1 gains)))
  in
  if duty2 reg >? duty1 reg then with_duty2 reg (duty1 reg) else reg.

(** [reg->duty1 /= 2; reg->duty2 /= 2;] (C division truncates). *)
Definition halve_duties (reg : regulator_t) : regulator_t :=
  with_duty2 (with_duty1 reg (duty1 reg ÷ 2)) (duty2 reg ÷ 2).

(** The mode-dependent part of [regulator_feedback] for the modes that
    do not return early.  The sensed values and setpoints are uint16_t,
    promoted to int before the subtraction. *)
Definition feedback_regulate (reg : regulator_t) : regulator_t :=
  match mode reg with
  | VOLTAGE_FB =>
      if isense reg >? ilimit reg then halve_duties reg
      else regulator_feedback_error reg (v_gains reg)
             (vsense reg - vsetpoint reg)
  | CURRENT_FB =>
      if vsense reg >? vlimit reg then halve_duties reg
      else regulator_feedback_error reg (i_gains reg)
             (isense reg - isetpoint reg)
  | _ => reg
  end.

(** The four clamping statements that end [regulator_feedback]. *)
Definition clamp_duties (reg : regulator_t) : regulator_t :=
  let reg := if duty1 reg <? 0x0000 then with_duty1 reg 0 else reg in
  let reg := if duty1 reg >? 0xffff then with_duty1 reg 0xffff else reg in
  let reg := if duty2 reg <? 0x0000 then with_duty2 reg 0 else reg in
  let reg := if duty2 reg >? 0xffff then with_duty2 reg 0xffff else reg in
  reg.

(** ** Channel 1 *)

Definition configure_ch1 : M Z :=
  c <- read chan1 ;;
  let dt := 0x10 in
  let ta := to_uint16 (Z.shiftr (to_uint64 (period c * to_uint64 (duty1 c))) 16) in
  let tb := to_uint16 (Z.shiftr (to_uint64 (period c * to_uint64 (duty2 c))) 16) in
  r <- configure_dual_pwm TIM2 TIM_OC3 TIM4 TIM_OC3 TIM_SMCR_TS_ITR1
         (period c) ta tb dt ;;
  if negb (r =? 0) then ret r
  else
    emit (timer_enable_counter TIM4) ;;
    emit (timer_enable_counter TIM2) ;;
    ret 0.

Definition set_vsense1_en (enabled : bool) : M unit :=
  if enabled then emit gpio_set_a5 else emit gpio_clear_a5.

Definition enable_ch1 (env : hw_env) : M unit :=
  set_vsense1_en true ;;
  clock_enable RCC_APB1ENR_TIM2EN ;;
  clock_enable RCC_APB1ENR_TIM4EN ;;
  setup_common_peripherals env.

Definition disable_ch1 (env : hw_env) : M unit :=
  emit (timer_disable_oc_output TIM2 TIM_OC3) ;;
  emit (timer_disable_oc_output TIM4 TIM_OC3) ;;
  emit (timer_disable_counter TIM2) ;;
  emit (timer_disable_counter TIM4) ;;
  clock_disable RCC_APB1ENR_TIM2EN ;;
  clock_disable RCC_APB1ENR_TIM4EN ;;
  setup_common_peripherals env ;;
  set_vsense1_en false.

Definition update_duty_ch1 : M unit :=
  c <- read chan1 ;;
  emit (timer_disable_counter TIM2) ;;
  set_pwm_duty TIM2 TIM_OC3 (period c) (duty1 c) ;;
  set_pwm_duty TIM4 TIM_OC3 (period c) (duty2 c) ;;
  emit (timer_enable_counter TIM2).

(** ** Channel 2 *)

(** [uint32_t t = chan2.period * chan2.duty1 / 0xffff;] is unsigned
    32-bit arithmetic; [configure_pwm] takes it as a uint16_t. *)
Definition configure_ch2 : M Z :=
  c <- read chan2 ;;
  oc <- read ch2_oc ;;
  let t := to_uint32 (period c * to_uint32 (duty1 c)) / 0xffff in
  r <- configure_pwm TIM3 oc (period c) true (to_uint16 t) ;;
  if negb (r =? 0) then ret r
  else
    emit (timer_enable_counter TIM3) ;;
    ret 0.

Definition regulator_set_ch2_source (src : ch2_source_t) : M Z :=
  c <- read chan2 ;;
  if negb (mode_is DISABLED c) then ret (-1)
  else
    modify (with_ch2_oc (match src with BATTERY => TIM_OC1 | INPUT => TIM_OC3 end)) ;;
    emit (timer_disable_oc_output TIM3 TIM_OC1) ;;
    emit (timer_disable_oc_output TIM3 TIM_OC3) ;;
    configure_ch2 ;;
    ret 0.

Definition enable_ch2 (env : hw_env) : M unit :=
  clock_enable RCC_APB1ENR_TIM3EN ;;
  setup_common_peripherals env.

Definition disable_ch2 (env : hw_env) : M unit :=
  emit (timer_disable_oc_output TIM3 TIM_OC1) ;;
  emit (timer_disable_oc_output TIM3 TIM_OC3) ;;
  emit (timer_disable_counter TIM3) ;;
  clock_disable RCC_APB1ENR_TIM3EN ;;
  setup_common_peripherals env.

Definition update_duty_ch2 : M unit :=
  c <- read chan2 ;;
  oc <- read ch2_oc ;;
  set_pwm_duty TIM3 oc (period c) (duty1 c).

(** ** The capabilities of a channel *)

Definition enable_func (env : hw_env) (r : chan_id) : M unit :=
  match r with Chan1 => enable_ch1 env | Chan2 => enable_ch2 env end.

Definition configure_func (r : chan_id) : M Z :=
  match r with Chan1 => configure_ch1 | Chan2 => configure_ch2 end.

Definition disable_func (env : hw_env) (r : chan_id) : M unit :=
  match r with Chan1 => disable_ch1 env | Chan2 => disable_ch2 env end.

Definition update_duty_func (r : chan_id) : M unit :=
  match r with Chan1 => update_duty_ch1 | Chan2 => update_duty_ch2 end.

(** ** Feedback on a channel, and the sample interrupt *)

Definition regulator_feedback (r : chan_id) : M unit :=
  reg <- read (chan r) ;;
  match mode reg with
  | DISABLED => ret tt
  | CONST_DUTY => ret tt
  | _ =>
      update_chan r feedback_regulate ;;
      update_chan r clamp_duties ;;
      update_duty_func r
  end.

(** [a1 .. a4] are the four values read back from the injected
    conversion registers (uint32_t, stored into uint16_t fields). *)
Definition adc1_isr (a1 a2 a3 a4 : Z) : M unit :=
  emit adc_clear_jeoc ;;
  update_chan Chan1 (fun reg => with_vsense reg (to_uint16 a1)) ;;
  update_chan Chan1 (fun reg => with_isense reg (to_uint16 a2)) ;;
  update_chan Chan2 (fun reg => with_vsense reg (to_uint16 a3)) ;;
  update_chan Chan2 (fun reg => with_isense reg (to_uint16 a4)) ;;
  regulator_feedback Chan1 ;;
  regulator_feedback Chan2.

(** ** Public interface *)

Definition regulator_set_mode (env : hw_env) (r : chan_id)
    (new_mode : feedback_mode) : M Z :=
  reg <- read (chan r) ;;
  let old_mode := mode reg in
  update_chan r (fun reg => with_mode reg new_mode) ;;
  (if feedback_mode_eqb old_mode DISABLED && negb (feedback_mode_eqb new_mode DISABLED)
   then enable_func env r
   else if feedback_mode_eqb new_mode DISABLED then disable_func env r
   else ret tt) ;;
  if negb (feedback_mode_eqb new_mode DISABLED) then
    rc <- configure_func r ;;
    if negb (rc =? 0) then
      update_chan r (fun reg => with_mode reg DISABLED) ;;
      disable_func env r ;;
      ret rc
    else ret 0
  else ret 0.

Definition regulator_get_mode (r : chan_id) : M feedback_mode :=
  read (fun s => mode (chan r s)).

Definition regulator_set_duty_cycle (r : chan_id) (d1 d2 : fract32_t) : M Z :=
  reg <- read (chan r) ;;
  if negb (mode_is CONST_DUTY reg) && negb (mode_is DISABLED reg) then ret 1
  else if d2 >? d1 then ret 2
  else
    update_chan r (fun reg => with_duty1 reg d1) ;;
    update_chan r (fun reg => with_duty2 reg d2) ;;
    configure_func r ;;
    ret 0.

Definition regulator_get_duty_cycle_1 (r : chan_id) : M fract32_t :=
  read (fun s => duty1 (chan r s)).

Definition regulator_get_duty_cycle_2 (r : chan_id) : M fract32_t :=
  read (fun s => duty2 (chan r s)).

(** [uint16_t v = ((uint32_t) (gain * setpoint) >> 16);]: the product is
    taken in unsigned 32-bit arithmetic. *)
Definition to_codepoint (gain : Z) (setpoint : fixed32_t) : Z :=
  to_uint16 (Z.shiftr (to_uint32 (gain * to_uint32 setpoint)) 16).

(** [(codepoint << 16) / gain]: the shifted int is divided as an
    unsigned 32-bit value and the quotient returned as an int.  The
    division is undefined in C for a zero gain. *)
Definition of_codepoint (gain : Z) (codepoint : Z) : fixed32_t :=
  to_int32 (to_uint32 (Z.shiftl codepoint 16) / gain).

Definition regulator_set_vsetpoint (r : chan_id) (setpoint : fixed32_t) : M Z :=
  reg <- read (chan r) ;;
  let v := to_codepoint (vsense_gain reg) setpoint in
  if v >? vlimit reg then ret 1
  else
    update_chan r (fun reg => with_vsetpoint reg v) ;;
    ret 0.

Definition regulator_get_vsetpoint (r : chan_id) : M fixed32_t :=
  read (fun s => of_codepoint (vsense_gain (chan r s)) (vsetpoint (chan r s))).

Definition regulator_set_isetpoint (r : chan_id) (setpoint : fixed32_t) : M Z :=
  reg <- read (chan r) ;;
  let i := to_codepoint (isense_gain reg) setpoint in
  if i >? ilimit reg then ret 1
  else
    update_chan r (fun reg => with_isetpoint reg i) ;;
    ret 0.

Definition regulator_get_isetpoint (r : chan_id) : M fixed32_t :=
  read (fun s => of_codepoint (isense_gain (chan r s)) (isetpoint (chan r s))).

Definition regulator_get_vsense (r : chan_id) : M fixed32_t :=
  read (fun s => of_codepoint (vsense_gain (chan r s)) (vsense (chan r s))).

Definition regulator_get_isense (r : chan_id) : M fixed32_t :=
  read (fun s => of_codepoint (isense_gain (chan r s)) (isense (chan r s))).

Definition regulator_init (env : hw_env) : M unit :=
  regulator_set_mode env Chan1 DISABLED ;;
  regulator_set_mode env Chan2 DISABLED ;;
  ret tt.

Definition regulator_set_period (r : chan_id) (p : Z) : M Z :=
  reg <- read (chan r) ;;
  if negb (mode_is DISABLED reg) then ret (-1)
  else
    update_chan r (fun reg => with_period reg p) ;;
    ret 0.

Definition regulator_get_period (r : chan_id) : M Z :=
  read (fun s => period (chan r s)).

(** ** Runs of the program

    The state-changing entry points, as a control-plane caller or the
    ADC interrupt invokes them.  Every entry point runs to completion
    before the next one starts. *)

Inductive api_call : Set :=
| Init
| SetMode (r : chan_id) (m : feedback_mode)
| SetDutyCycle (r : chan_id) (d1 d2 : fract32_t)
| SetVsetpoint (r : chan_id) (v : fixed32_t)
| SetIsetpoint (r : chan_id) (i : fixed32_t)
| SetCh2Source (src : ch2_source_t)
| SetPeriod (r : chan_id) (p : Z)
| Adc1Isr (a1 a2 a3 a4 : Z).

Definition well_typed (c : api_call) : Prop :=
  match c with
  | SetDutyCycle _ d1 d2 => is_int32 d1 /\ is_int32 d2
  | SetVsetpoint _ v => is_int32 v
  | SetIsetpoint _ i => is_int32 i
  | SetPeriod _ p => is_uint32 p
  | Adc1Isr a1 a2 a3 a4 =>
      is_uint32 a1 /\ is_uint32 a2 /\ is_uint32 a3 /\ is_uint32 a4
  | _ => True
  end.

Definition run (env : hw_env) (c : api_call) : M Z :=
  match c with
  | Init => regulator_init env ;; ret 0
  | SetMode r m => regulator_set_mode env r m
  | SetDutyCycle r d1 d2 => regulator_set_duty_cycle r d1 d2
  | SetVsetpoint r v => regulator_set_vsetpoint r v
  | SetIsetpoint r i => regulator_set_isetpoint r i
  | SetCh2Source src => regulator_set_ch2_source src
  | SetPeriod r p => regulator_set_period r p
  | Adc1Isr a1 a2 a3 a4 => adc1_isr a1 a2 a3 a4 ;; ret 0
  end.

Inductive reachable : system -> Prop :=
| reachable_power_on : reachable power_on
| reachable_call (env : hw_env) (c : api_call) (s s' : system) (rc : Z) :
    reachable s -> well_typed c -> run env c s = Ret rc s' -> reachable s'.

(** Switch 2 is never on longer than switch 1. *)
Definition ordered (reg : regulator_t) : Prop := duty2 reg <= duty1 reg.

Definition duties_ordered (s : system) : Prop :=
  ordered (chan1 s) /\ ordered (chan2 s).

(** One tick of the feedback loop on the channel record alone. *)
Definition feedback_step (reg : regulator_t) : regulator_t :=
  match mode reg with
  | DISABLED | CONST_DUTY => reg
  | _ => clamp_duties (feedback_regulate reg)
  end.

(** The two duty cycles of both channels. *)
Definition duties (s : system) : (Z * Z) * (Z * Z) :=
  ((duty1 (chan1 s), duty2 (chan1 s)), (duty1 (chan2 s), duty2 (chan2 s))).

Definition chans (s : system) : regulator_t * regulator_t :=
  (chan1 s, chan2 s).

(** ** Vocabulary of the properties *)

(** The duty cycle the four clamping statements leave for [x]. *)
Definition clamp16 (x : Z) : Z := Z.min 0xffff (Z.max 0 x).

(** The feedback step writes the two duty cycles and nothing else. *)
Definition only_duties (reg reg' : regulator_t) : Prop :=
  reg' = with_duty2 (with_duty1 reg (duty1 reg')) (duty2 reg').

(** [m] ends, returned or stopped, in a state with the same [f]. *)
Definition keeps {X A : Type} (f : system -> X) (m : M A) : Prop :=
  forall s, f (state_of (m s)) = f s.

(** [m] ends, returned or stopped, in a state where [P] still holds. *)
Definition preserves (P : system -> Prop) {A} (m : M A) : Prop :=
  forall s, P s -> P (state_of (m s)).

(** A computation that can stop only by stalling on a peripheral. *)
Definition faultless {A} (m : M A) : Prop :=
  forall s s', m s <> Stop FatalFault s'.

(** A computation that always returns. *)
Definition total {A} (m : M A) : Prop := forall s, returned (m s).

(** The state in which [adc1_isr] invokes the feedback of channel 1:
    the four samples are latched. *)
Definition sampled (a1 a2 a3 a4 : Z) (s : system) : system :=
  state_of ((emit adc_clear_jeoc ;;
             update_chan Chan1 (fun reg => with_vsense reg (to_uint16 a1)) ;;
             update_chan Chan1 (fun reg => with_isense reg (to_uint16 a2)) ;;
             update_chan Chan2 (fun reg => with_vsense reg (to_uint16 a3)) ;;
             update_chan Chan2 (fun reg => with_isense reg (to_uint16 a4))) s).

(** ** Example states *)

(** Channel 1 taken through the public interface, on responsive
    hardware: switched to constant duty, ... *)
Definition const_duty_idle : system :=
  state_of (run responsive (SetMode Chan1 CONST_DUTY) power_on).

(** ... given duty cycles of 50% and 25%, ... *)
Definition const_duty_half : system :=
  state_of (run responsive (SetDutyCycle Chan1 0x8000 0x4000) const_duty_idle).

(** ... and put in voltage feedback. *)
Definition regulating : system :=
  state_of (run responsive (SetMode Chan1 VOLTAGE_FB) const_duty_half).

(** A channel record in mode [m] with the given duty cycles, sensed
    values and setpoints, unit gains and a period of 400 ticks. *)
Definition bench (m : feedback_mode) (d1 d2 vs vset is_ ilim : Z) : regulator_t :=
  mk_regulator 1241 620 400 d1 d2 is_ vs m 0 0xffff vset ilim
    (mk_gains 0x10000 0x10000) (mk_gains 0x10000 0x10000) 0 0.

(** ** Observations on the state *)

(** Everything but the record of driver calls. *)
Definition core (s : system)
  : regulator_t * regulator_t * tim_oc_id * bool :=
  (chan1 s, chan2 s, ch2_oc s, adc1en s).

(** The same observation on both channels. *)
Definition both {X : Type} (g : regulator_t -> X) (s : system) : X * X :=
  (g (chan1 s), g (chan2 s)).

(** The fields no function of the program assigns: gains and limits. *)
Definition config (reg : regulator_t)
  : Z * Z * Z * Z * feedback_gains * feedback_gains * Z * Z :=
  (vsense_gain reg, isense_gain reg, vlimit reg, ilimit reg,
   i_gains reg, v_gains reg, i1_prop_gain reg, i2_prop_gain reg).

(** A channel record without its duty cycles and samples. *)
Definition settings (reg : regulator_t) : regulator_t :=
  with_vsense (with_isense (with_duty2 (with_duty1 reg 0) 0) 0) 0.

(** The two samples of a channel fit their 16-bit fields. *)
Definition samples_16bit (reg : regulator_t) : Prop :=
  is_uint16 (vsense reg) /\ is_uint16 (isense reg).

(** The ADC clock gate is open exactly when a channel is in use. *)
Definition adc_clock_tracks (s : system) : Prop :=
  adc1en s = negb (mode_is DISABLED (chan1 s) && mode_is DISABLED (chan2 s)).

Definition timer_id_eqb (a b : timer_id) : bool :=
  match a, b with
  | TIM2, TIM2 | TIM3, TIM3 | TIM4, TIM4 | TIM7, TIM7 => true
  | _, _ => false
  end.

Definition tim_oc_id_eqb (a b : tim_oc_id) : bool :=
  match a, b with
  | TIM_OC1, TIM_OC1 | TIM_OC3, TIM_OC3 => true
  | _, _ => false
  end.

(** The value most recently passed to [timer_set_oc_value] for an
    output compare unit (the calls are recorded most recent first). *)
Fixpoint last_oc_value (timer : timer_id) (oc : tim_oc_id)
    (cs : list hw_call) : option Z :=
  match cs with
  | [] => None
  | timer_set_oc_value t o v :: cs' =>
      if timer_id_eqb t timer && tim_oc_id_eqb o oc then Some v
      else last_oc_value timer oc cs'
  | _ :: cs' => last_oc_value timer oc cs'
  end.

(** An observation blind to what a feedback step can do to a channel. *)
Definition duty_blind {X : Type} (f : system -> X) : Prop :=
  forall r reg' s, only_duties (chan r s) reg' -> f (with_chan r reg' s) = f s.

(** When [m] returns from a state where [P] holds, [Q] holds. *)
Definition ensures {A : Type} (P : system -> Prop) (m : M A)
    (Q : system -> Prop) : Prop :=
  forall s a s', P s -> m s = Ret a s' -> Q s'.

(** The clock gate of the ADC and the modes of the two channels. *)
Definition lifecycle (s : system) : bool * (feedback_mode * feedback_mode) :=
  (adc1en s, both mode s).

(** The channel that is not [r]. *)
Definition other (r : chan_id) : chan_id :=
  match r with Chan1 => Chan2 | Chan2 => Chan1 end.

(** Channel 2 put in voltage feedback from power on. *)
Definition ch2_regulating : system :=
  state_of (run responsive (SetMode Chan2 VOLTAGE_FB) power_on).

(** Hardware on which none of the awaited flags ever comes up. *)
Definition unresponsive : hw_env := mk_env false false false.

(** ** Serial line reception (firmware/usart.c)

    Characters are bytes.  [rx_buf] is the 255-byte array and [rx_head]
    the unsigned index of the next free byte.  The line callback
    [on_line_recv] is installed by the application: a call to it is
    recorded with the buffer and the length it is given, and it is taken
    to leave [rx_buf] and [rx_head] alone.  A store or a load past the
    end of an array is undefined in C and is a result of its own here. *)

Module Usart.

Definition to_uint8 (x : Z) : Z := x mod 2 ^ 8.

Definition newline : Z := 10.

Record state : Set := mk_state {
  rx_buf : list Z;
  rx_head : Z;
  delivered : list (list Z * Z)   (* calls of on_line_recv, latest first *)
}.

Inductive result : Set :=
| Done (st : state)
| OutOfBounds (index : Z) (st : state).

(** [buf[i] = c] for an index inside the array. *)
Fixpoint store (i : nat) (c : Z) (buf : list Z) : list Z :=
  match buf, i with
  | [], _ => []
  | _ :: rest, O => c :: rest
  | b :: rest, S i' => b :: store i' c rest
  end.

Definition in_bounds (st : state) : bool :=
  rx_head st <? Z.of_nat (length (rx_buf st)).

(** [rxne] is [usart_get_interrupt_source(USART1, USART_SR_RXNE)] and
    [data] the value [usart_recv] returns, converted to [char]. *)
Definition usart1_isr (rxne : bool) (data : Z) (st : state) : result :=
  if rxne then
    let c := to_uint8 data in
    if c =? newline then
      if in_bounds st then
        let buf := store (Z.to_nat (rx_head st)) 0 (rx_buf st) in
        Done (mk_state buf 0 ((buf, rx_head st) :: delivered st))
      else OutOfBounds (rx_head st) st
    else
      if in_bounds st then
        Done (mk_state (store (Z.to_nat (rx_head st)) c (rx_buf st))
                (to_uint32 (rx_head st + 1)) (delivered st))
      else OutOfBounds (rx_head st) st
  else Done st.

(** The interrupt taken once for each received byte of [data]. *)
Fixpoint receive (data : list Z) (st : state) : result :=
  match data with
  | [] => Done st
  | d :: data' =>
      match usart1_isr true d st with
      | Done st' => receive data' st'
      | OutOfBounds i st' => OutOfBounds i st'
      end
  end.

(** The zero-initialised globals. *)
Definition reset : state := mk_state (repeat 0 255) 0 [].

Inductive write_result : Set :=
| Sent (bytes : list Z)             (* in the order of transmission *)
| ReadOutOfBounds (index : nat) (bytes : list Z).

(** The loop of [usart_write], [n] iterations from index [i]. *)
Fixpoint usart_write_from (c : list Z) (i n : nat) (sent : list Z)
    : write_result :=
  match n with
  | O => Sent sent
  | S n' =>
      match nth_error c i with
      | Some x => usart_write_from c (S i) n' (sent ++ [x])
      | None => ReadOutOfBounds i sent
      end
  end.

Definition usart_write (c : list Z) (length : Z) : write_result :=
  usart_write_from c 0 (Z.to_nat length) [].

End Usart.

(** * Reasoning about computations *)

Lemma feedback_mode_eqb_spec (a b : feedback_mode) :
  reflect (a = b) (feedback_mode_eqb a b).
Proof. destruct a, b; simpl; constructor; congruence. Qed.

Section Frames.
Context {X : Type} (f : system -> X).

Lemma keeps_ret {A} (a : A) : keeps f (ret a).
Proof. intro s; reflexivity. Qed.

Lemma keeps_read {A} (g : system -> A) : keeps f (read g).
Proof. intro s; reflexivity. Qed.

Lemma keeps_halt {A} (w : stop) : keeps f (@halt A w).
Proof. intro s; reflexivity. Qed.

Lemma keeps_wait_for (b : bool) : keeps f (wait_for b).
Proof. destruct b; intro s; reflexivity. Qed.

Lemma keeps_modify (g : system -> system) :
  (forall s, f (g s) = f s) -> keeps f (modify g).
Proof. intros H s; apply H. Qed.

Lemma keeps_bind {A B} (m : M A) (k : A -> M B) :
  keeps f m -> (forall a, keeps f (k a)) -> keeps f (bind m k).
Proof.
  intros Hm Hk s. unfold bind.
  specialize (Hm s). destruct (m s) as [a s1 | w s1]; simpl in *.
  - rewrite Hk. exact Hm.
  - exact Hm.
Qed.

End Frames.

Lemma faultless_bind {A B} (m : M A) (k : A -> M B) :
  faultless m -> (forall a, faultless (k a)) -> faultless (bind m k).
Proof.
  intros Hm Hk s s'. unfold bind.
  destruct (m s) as [a s1 | w s1] eqn:E.
  - apply Hk.
  - intro H. inversion H; subst. exact (Hm _ _ E).
Qed.

Lemma total_bind {A B} (m : M A) (k : A -> M B) :
  total m -> (forall a, total (k a)) -> total (bind m k).
Proof.
  intros Hm Hk s. unfold bind.
  specialize (Hm s). destruct (m s) as [a s1 | w s1]; simpl in *.
  - apply Hk.
  - exact Hm.
Qed.

Lemma total_ret {A} (a : A) : total (ret a).
Proof. intro s; exact I. Qed.

Lemma total_read {A} (g : system -> A) : total (read g).
Proof. intro s; exact I. Qed.

Lemma total_modify (g : system -> system) : total (modify g).
Proof. intro s; exact I. Qed.

Lemma total_emit (c : hw_call) : total (emit c).
Proof. intro s; exact I. Qed.

Lemma faultless_ret {A} (a : A) : faultless (ret a).
Proof. intros s s' H; discriminate. Qed.

Lemma faultless_read {A} (g : system -> A) : faultless (read g).
Proof. intros s s' H; discriminate. Qed.

Lemma faultless_modify (g : system -> system) : faultless (modify g).
Proof. intros s s' H; discriminate. Qed.

Lemma faultless_emit (c : hw_call) : faultless (emit c).
Proof. intros s s' H; discriminate. Qed.

Lemma faultless_wait_for (b : bool) : faultless (wait_for b).
Proof. destruct b; intros s s' H; discriminate. Qed.

Lemma keeps_chans_emit (c : hw_call) : keeps chans (emit c).
Proof. intro s; reflexivity. Qed.

Lemma keeps_chans_adc1en (b : bool) : keeps chans (modify (with_adc1en b)).
Proof. intro s; reflexivity. Qed.

Lemma keeps_chans_ch2_oc (oc : tim_oc_id) : keeps chans (modify (with_ch2_oc oc)).
Proof. intro s; reflexivity. Qed.

Create HintDb regulator.

#[export] Hint Resolve keeps_ret keeps_read keeps_halt keeps_wait_for
  keeps_chans_emit keeps_chans_adc1en keeps_chans_ch2_oc
  total_ret total_read total_modify total_emit
  faultless_ret faultless_read faultless_modify faultless_emit
  faultless_wait_for : regulator.

(** Walks through a straight-line computation, one bind at a time. *)
Ltac step_through :=
  repeat first
    [ solve [ auto with regulator ]
    | apply keeps_bind; [ | intro ]
    | apply faultless_bind; [ | intro ]
    | apply total_bind; [ | intro ]
    | match goal with
      | |- context [if ?b then _ else _] => destruct b
      | |- context [match ?g with RCC_APB1ENR_TIM2EN => _ | _ => _ end] =>
          destruct g
      end ].

(** * The peripheral code leaves the channel records alone *)

Lemma clock_enable_keeps (g : clock_gate) : keeps chans (clock_enable g).
Proof. unfold clock_enable. step_through. Qed.

Lemma clock_disable_keeps (g : clock_gate) : keeps chans (clock_disable g).
Proof. unfold clock_disable. step_through. Qed.

Lemma clock_enable_faultless (g : clock_gate) : faultless (clock_enable g).
Proof. unfold clock_enable. step_through. Qed.

Lemma clock_disable_faultless (g : clock_gate) : faultless (clock_disable g).
Proof. unfold clock_disable. step_through. Qed.

Lemma clock_enable_total (g : clock_gate) : total (clock_enable g).
Proof. unfold clock_enable. step_through. Qed.

Lemma clock_disable_total (g : clock_gate) : total (clock_disable g).
Proof. unfold clock_disable. step_through. Qed.

#[export] Hint Resolve clock_enable_keeps clock_disable_keeps
  clock_enable_faultless clock_disable_faultless
  clock_enable_total clock_disable_total : regulator.

Lemma setup_common_peripherals_keeps (env : hw_env) :
  keeps chans (setup_common_peripherals env).
Proof. unfold setup_common_peripherals. step_through. Qed.

Lemma setup_common_peripherals_faultless (env : hw_env) :
  faultless (setup_common_peripherals env).
Proof. unfold setup_common_peripherals. step_through. Qed.

Lemma setup_common_peripherals_total :
  total (setup_common_peripherals responsive).
Proof.
  unfold setup_common_peripherals, responsive; simpl. step_through.
Qed.

Lemma set_pwm_duty_keeps timer oc p d : keeps chans (set_pwm_duty timer oc p d).
Proof. unfold set_pwm_duty. step_through. Qed.

Lemma configure_pwm_keeps timer oc p pol t :
  keeps chans (configure_pwm timer oc p pol t).
Proof. unfold configure_pwm. step_through. Qed.

Lemma configure_pwm_faultless timer oc p pol t :
  faultless (configure_pwm timer oc p pol t).
Proof. unfold configure_pwm. step_through. Qed.

Lemma configure_pwm_total timer oc p pol t :
  total (configure_pwm timer oc p pol t).
Proof. unfold configure_pwm. step_through. Qed.

#[export] Hint Resolve setup_common_peripherals_keeps
  setup_common_peripherals_faultless setup_common_peripherals_total
  set_pwm_duty_keeps configure_pwm_keeps configure_pwm_faultless
  configure_pwm_total : regulator.

Lemma configure_dual_pwm_keeps ta oa tb ob src p a b dt :
  keeps chans (configure_dual_pwm ta oa tb ob src p a b dt).
Proof. unfold configure_dual_pwm. step_through. Qed.

Lemma configure_dual_pwm_faultless ta oa tb ob src p a b dt :
  faultless (configure_dual_pwm ta oa tb ob src p a b dt).
Proof. unfold configure_dual_pwm. step_through. Qed.

Lemma configure_dual_pwm_total ta oa tb ob src p a b dt :
  total (configure_dual_pwm ta oa tb ob src p a b dt).
Proof. unfold configure_dual_pwm. step_through. Qed.

#[export] Hint Resolve configure_dual_pwm_keeps configure_dual_pwm_faultless
  configure_dual_pwm_total : regulator.

Lemma configure_func_keeps (r : chan_id) : keeps chans (configure_func r).
Proof.
  destruct r; unfold configure_func, configure_ch1, configure_ch2; step_through.
Qed.

Lemma configure_func_faultless (r : chan_id) : faultless (configure_func r).
Proof.
  destruct r; unfold configure_func, configure_ch1, configure_ch2; step_through.
Qed.

Lemma configure_func_total (r : chan_id) : total (configure_func r).
Proof.
  destruct r; unfold configure_func, configure_ch1, configure_ch2; step_through.
Qed.

Lemma enable_func_keeps env (r : chan_id) : keeps chans (enable_func env r).
Proof.
  destruct r; unfold enable_func, enable_ch1, enable_ch2, set_vsense1_en;
    step_through.
Qed.

Lemma enable_func_faultless env (r : chan_id) : faultless (enable_func env r).
Proof.
  destruct r; unfold enable_func, enable_ch1, enable_ch2, set_vsense1_en;
    step_through.
Qed.

Lemma enable_func_total (r : chan_id) : total (enable_func responsive r).
Proof.
  destruct r; unfold enable_func, enable_ch1, enable_ch2, set_vsense1_en;
    step_through.
Qed.

Lemma disable_func_keeps env (r : chan_id) : keeps chans (disable_func env r).
Proof.
  destruct r; unfold disable_func, disable_ch1, disable_ch2, set_vsense1_en;
    step_through.
Qed.

Lemma disable_func_faultless env (r : chan_id) : faultless (disable_func env r).
Proof.
  destruct r; unfold disable_func, disable_ch1, disable_ch2, set_vsense1_en;
    step_through.
Qed.

Lemma disable_func_total (r : chan_id) : total (disable_func responsive r).
Proof.
  destruct r; unfold disable_func, disable_ch1, disable_ch2, set_vsense1_en;
    step_through.
Qed.

Lemma update_duty_func_keeps (r : chan_id) : keeps chans (update_duty_func r).
Proof.
  destruct r; unfold update_duty_func, update_duty_ch1, update_duty_ch2;
    step_through.
Qed.

#[export] Hint Resolve configure_func_keeps configure_func_faultless
  configure_func_total enable_func_keeps enable_func_faultless
  enable_func_total disable_func_keeps disable_func_faultless
  disable_func_total update_duty_func_keeps : regulator.

(** * Arithmetic of the conversions *)

Lemma to_uint16_small (x : Z) : 0 <= x < 2 ^ 16 -> to_uint16 x = x.
Proof. intro H; unfold to_uint16; apply Z.mod_small; exact H. Qed.

Lemma to_uint32_small (x : Z) : 0 <= x < 2 ^ 32 -> to_uint32 x = x.
Proof. intro H; unfold to_uint32; apply Z.mod_small; exact H. Qed.

Lemma to_uint64_small (x : Z) : 0 <= x < 2 ^ 64 -> to_uint64 x = x.
Proof. intro H; unfold to_uint64; apply Z.mod_small; exact H. Qed.

Lemma to_int32_small (x : Z) : - 2 ^ 31 <= x < 2 ^ 31 -> to_int32 x = x.
Proof.
  intro H; unfold to_int32. rewrite Z.mod_small; lia.
Qed.

Lemma to_int32_range (x : Z) : is_int32 (to_int32 x).
Proof.
  unfold is_int32, to_int32.
  pose proof (Z.mod_pos_bound (x + 2 ^ 31) (2 ^ 32) ltac:(lia)). lia.
Qed.

Lemma shiftr16_div (x : Z) : Z.shiftr x 16 = x / 2 ^ 16.
Proof. apply Z.shiftr_div_pow2; lia. Qed.

Lemma shiftl16_mul (x : Z) : Z.shiftl x 16 = x * 2 ^ 16.
Proof. apply Z.shiftl_mul_pow2; lia. Qed.

(** Within the duty range the tick count is the exact 16.16 product. *)
Lemma pwm_ticks_exact (p d : Z) :
  0 <= d <= 0x10000 -> is_uint32 p ->
  pwm_ticks p d = Z.shiftr (d * p) 16.
Proof.
  unfold is_uint32, pwm_ticks. intros Hd Hp.
  assert (Hprod : 0 <= d * p < 2 ^ 48) by nia.
  rewrite (to_uint64_small d) by lia.
  rewrite (to_uint64_small (d * p)) by lia.
  rewrite shiftr16_div.
  apply to_uint32_small.
  split.
  - apply Z.div_pos; lia.
  - apply Z.div_lt_upper_bound; lia.
Qed.

(** A clamped duty cycle and a period of at most 0x10000 ticks never
    overflow the compare register. *)
Lemma pwm_ticks_fit (p d : Z) :
  0 <= d <= 0xffff -> 0 <= p <= 0x10000 -> pwm_ticks p d <= 0xffff.
Proof.
  intros Hd Hp.
  rewrite pwm_ticks_exact by (unfold is_uint32; lia).
  rewrite shiftr16_div.
  assert (d * p / 2 ^ 16 <= d).
  { apply Z.div_le_upper_bound; nia. }
  lia.
Qed.

(** * The feedback step on a channel record *)

Ltac no_branch t :=
  lazymatch t with
  | context [if _ then _ else _] => fail
  | _ => idtac
  end.

(** Splits on an innermost integer comparison of the goal. *)
Ltac case_cmp :=
  match goal with
  | |- context [?a <? ?b] =>
      no_branch a; no_branch b; destruct (Z.ltb_spec a b)
  | |- context [?a >? ?b] =>
      no_branch a; no_branch b; destruct (Z.gtb_spec a b)
  end; simpl in *.

Lemma clamp_duties_duty1 (reg : regulator_t) :
  duty1 (clamp_duties reg) = clamp16 (duty1 reg).
Proof.
  destruct reg; unfold clamp_duties, clamp16; simpl.
  repeat case_cmp; lia.
Qed.

Lemma clamp_duties_duty2 (reg : regulator_t) :
  duty2 (clamp_duties reg) = clamp16 (duty2 reg).
Proof.
  destruct reg; unfold clamp_duties, clamp16; simpl.
  repeat case_cmp; lia.
Qed.

Lemma clamp16_range (x : Z) : 0 <= clamp16 x <= 0xffff.
Proof. unfold clamp16; lia. Qed.

Lemma clamp16_mono (x y : Z) : x <= y -> clamp16 x <= clamp16 y.
Proof. unfold clamp16; lia. Qed.

Lemma clamp16_id (x : Z) : 0 <= x <= 0xffff -> clamp16 x = x.
Proof. unfold clamp16; lia. Qed.

Lemma clamp_duties_ordered (reg : regulator_t) :
  ordered reg -> ordered (clamp_duties reg).
Proof.
  unfold ordered. rewrite clamp_duties_duty1, clamp_duties_duty2.
  apply clamp16_mono.
Qed.

Lemma clamp_duties_period (reg : regulator_t) :
  period (clamp_duties reg) = period reg.
Proof.
  destruct reg; unfold clamp_duties; simpl. repeat case_cmp; reflexivity.
Qed.

Lemma clamp_duties_mode (reg : regulator_t) :
  mode (clamp_duties reg) = mode reg.
Proof.
  destruct reg; unfold clamp_duties; simpl. repeat case_cmp; reflexivity.
Qed.

Lemma halve_duties_ordered (reg : regulator_t) :
  ordered reg -> ordered (halve_duties reg).
Proof.
  unfold ordered, halve_duties; simpl. intro H.
  apply Z.quot_le_mono; lia.
Qed.

(** The mixing algorithm ends by forcing [duty2 <= duty1], whatever the
    branch taken and whatever the state it started from. *)
Lemma regulator_feedback_error_ordered reg gains error :
  ordered (regulator_feedback_error reg gains error).
Proof.
  unfold regulator_feedback_error; cbv zeta.
  match goal with
  | |- ordered (if duty2 ?mixed >? duty1 ?mixed then _ else _) =>
      generalize mixed
  end.
  intro mixed. unfold ordered.
  destruct (Z.gtb_spec (duty2 mixed) (duty1 mixed)).
  - destruct mixed; simpl; lia.
  - lia.
Qed.

Lemma feedback_regulate_ordered (reg : regulator_t) :
  ordered reg -> ordered (feedback_regulate reg).
Proof.
  intro H. unfold feedback_regulate.
  destruct (mode reg); try exact H.
  - destruct (vsense reg >? vlimit reg).
    + apply halve_duties_ordered, H.
    + apply regulator_feedback_error_ordered.
  - destruct (isense reg >? ilimit reg).
    + apply halve_duties_ordered, H.
    + apply regulator_feedback_error_ordered.
Qed.

Lemma feedback_step_ordered (reg : regulator_t) :
  ordered reg -> ordered (feedback_step reg).
Proof.
  intro H. unfold feedback_step.
  destruct (mode reg); try exact H;
    apply clamp_duties_ordered, feedback_regulate_ordered, H.
Qed.

Ltac case_if :=
  match goal with
  | |- context [if ?b then _ else _] => no_branch b; destruct b
  end; simpl.

Lemma regulator_feedback_error_only_duties reg gains error :
  only_duties reg (regulator_feedback_error reg gains error).
Proof.
  unfold only_duties, regulator_feedback_error; cbv zeta.
  destruct reg; simpl. repeat case_if; reflexivity.
Qed.

Lemma halve_duties_only_duties reg : only_duties reg (halve_duties reg).
Proof. destruct reg; reflexivity. Qed.

Lemma only_duties_refl reg : only_duties reg reg.
Proof. destruct reg; reflexivity. Qed.

Lemma feedback_regulate_only_duties reg :
  only_duties reg (feedback_regulate reg).
Proof.
  unfold feedback_regulate.
  destruct (mode reg); try apply only_duties_refl.
  - destruct (vsense reg >? vlimit reg);
      [ apply halve_duties_only_duties
      | apply regulator_feedback_error_only_duties ].
  - destruct (isense reg >? ilimit reg);
      [ apply halve_duties_only_duties
      | apply regulator_feedback_error_only_duties ].
Qed.

Lemma clamp_duties_only_duties reg : only_duties reg (clamp_duties reg).
Proof.
  unfold only_duties, clamp_duties. destruct reg; simpl.
  repeat case_if; reflexivity.
Qed.

Lemma only_duties_trans a b c :
  only_duties a b -> only_duties b c -> only_duties a c.
Proof.
  unfold only_duties. intros Hab Hbc. rewrite Hbc at 1. rewrite Hab.
  destruct a; reflexivity.
Qed.

Lemma feedback_step_only_duties reg : only_duties reg (feedback_step reg).
Proof.
  unfold feedback_step.
  destruct (mode reg); try apply only_duties_refl;
    (eapply only_duties_trans;
     [ apply feedback_regulate_only_duties | apply clamp_duties_only_duties ]).
Qed.

Lemma only_duties_period a b : only_duties a b -> period b = period a.
Proof. intro H; rewrite H; reflexivity. Qed.

Lemma only_duties_mode a b : only_duties a b -> mode b = mode a.
Proof. intro H; rewrite H; reflexivity. Qed.

(** * Feedback on the system *)

Lemma chan_of_chans (r : chan_id) (s s' : system) :
  chans s = chans s' -> chan r s = chan r s'.
Proof. unfold chans; intro H; inversion H; destruct r; simpl; congruence. Qed.

Lemma chan_with_chan (r : chan_id) (x : regulator_t) (s : system) :
  chan r (with_chan r x s) = x.
Proof. destruct r; reflexivity. Qed.

Lemma chan_with_other_chan (r r' : chan_id) (x : regulator_t) (s : system) :
  r <> r' -> chan r' (with_chan r x s) = chan r' s.
Proof. destruct r, r'; intro H; try reflexivity; congruence. Qed.

Lemma with_chan_same (r : chan_id) (s : system) :
  chans (with_chan r (chan r s) s) = chans s.
Proof. destruct r; reflexivity. Qed.

Lemma with_chan_twice (r : chan_id) (x y : regulator_t) (s : system) :
  with_chan r x (with_chan r y s) = with_chan r x s.
Proof. destruct r; reflexivity. Qed.

(** Whether or not the push to the timers returns, the channel records
    after [regulator_feedback] are those of [feedback_step]. *)
Lemma regulator_feedback_chans (r : chan_id) (s : system) :
  chans (state_of (regulator_feedback r s)) =
  chans (with_chan r (feedback_step (chan r s)) s).
Proof.
  unfold regulator_feedback, feedback_step.
  unfold bind at 1; unfold read; simpl.
  destruct (mode (chan r s)); simpl;
    try (symmetry; apply with_chan_same);
    unfold bind, update_chan, modify; simpl;
    rewrite update_duty_func_keeps, chan_with_chan, with_chan_twice;
    reflexivity.
Qed.

Lemma regulator_feedback_chan (r : chan_id) (s : system) :
  chan r (state_of (regulator_feedback r s)) = feedback_step (chan r s).
Proof.
  rewrite (chan_of_chans r _ _ (regulator_feedback_chans r s)).
  apply chan_with_chan.
Qed.

Lemma regulator_feedback_other_chan (r r' : chan_id) (s : system) :
  r <> r' -> chan r' (state_of (regulator_feedback r s)) = chan r' s.
Proof.
  intro H. rewrite (chan_of_chans r' _ _ (regulator_feedback_chans r s)).
  apply chan_with_other_chan, H.
Qed.

Lemma set_pwm_duty_writes timer oc p d s :
  pwm_ticks p d <= 0xffff ->
  set_pwm_duty timer oc p d s =
  Ret tt (with_call (timer_set_oc_value timer oc (pwm_ticks p d)) s).
Proof.
  intro H. unfold set_pwm_duty.
  destruct (Z.gtb_spec (pwm_ticks p d) 0xffff); [ lia | reflexivity ].
Qed.

Lemma set_pwm_duty_faults timer oc p d s :
  pwm_ticks p d > 0xffff ->
  set_pwm_duty timer oc p d s = Stop FatalFault s.
Proof.
  intro H. unfold set_pwm_duty.
  destruct (Z.gtb_spec (pwm_ticks p d) 0xffff); [ reflexivity | lia ].
Qed.

Lemma update_duty_func_returns (r : chan_id) (s : system) :
  0 <= duty1 (chan r s) <= 0xffff -> 0 <= duty2 (chan r s) <= 0xffff ->
  0 <= period (chan r s) <= 0x10000 ->
  returned (update_duty_func r s).
Proof.
  intros H1 H2 Hp.
  destruct r; cbn [chan] in *;
    unfold update_duty_func, update_duty_ch1, update_duty_ch2,
      bind, read, emit, modify.
  - rewrite set_pwm_duty_writes by (apply pwm_ticks_fit; assumption).
    rewrite set_pwm_duty_writes by (apply pwm_ticks_fit; assumption).
    exact I.
  - rewrite set_pwm_duty_writes by (apply pwm_ticks_fit; assumption).
    exact I.
Qed.

(** With a period of at most 0x10000 ticks the feedback step returns. *)
Lemma regulator_feedback_returns (r : chan_id) (s : system) :
  0 <= period (chan r s) <= 0x10000 ->
  returned (regulator_feedback r s).
Proof.
  intro Hp. unfold regulator_feedback.
  unfold bind at 1; unfold read; simpl.
  destruct (mode (chan r s)) eqn:Hm; simpl; try exact I;
    unfold bind, update_chan, modify; simpl;
    (apply update_duty_func_returns; rewrite !chan_with_chan;
     [ rewrite clamp_duties_duty1; apply clamp16_range
     | rewrite clamp_duties_duty2; apply clamp16_range
     | rewrite clamp_duties_period,
         (only_duties_period _ _ (feedback_regulate_only_duties _));
       exact Hp ]).
Qed.

(** * The ordering of the two duty cycles along a run *)

Lemma preserves_bind (P : system -> Prop) {A B} (m : M A) (k : A -> M B) :
  preserves P m -> (forall a, preserves P (k a)) -> preserves P (bind m k).
Proof.
  intros Hm Hk s Hs. unfold bind.
  specialize (Hm s Hs). destruct (m s) as [a s1 | w s1]; simpl in *.
  - apply Hk, Hm.
  - exact Hm.
Qed.

Lemma keeps_duties_of_chans {A} (m : M A) : keeps chans m -> keeps duties m.
Proof.
  intros H s. specialize (H s). unfold chans in H. inversion H as [[H1 H2]].
  unfold duties. rewrite H1, H2. reflexivity.
Qed.

Lemma keeps_duties_update (r : chan_id) (f : regulator_t -> regulator_t) :
  (forall reg, duty1 (f reg) = duty1 reg /\ duty2 (f reg) = duty2 reg) ->
  keeps duties (update_chan r f).
Proof.
  intros H s. unfold update_chan, modify, duties; simpl.
  destruct (H (chan r s)) as [H1 H2].
  destruct r; simpl in *; congruence.
Qed.

Lemma keeps_duties_preserves {A} (m : M A) :
  keeps duties m -> preserves duties_ordered m.
Proof.
  intros H s Hs. specialize (H s). unfold duties in H.
  inversion H as [[H1 H2 H3 H4]].
  unfold duties_ordered, ordered in *. lia.
Qed.

#[export] Hint Resolve keeps_duties_of_chans : regulator.
#[export] Hint Extern 1 (keeps duties (update_chan _ _)) =>
  apply keeps_duties_update; intro; split; reflexivity : regulator.

Lemma regulator_set_mode_keeps_duties env r m :
  keeps duties (regulator_set_mode env r m).
Proof. unfold regulator_set_mode. step_through. Qed.

Lemma regulator_set_vsetpoint_keeps_duties r v :
  keeps duties (regulator_set_vsetpoint r v).
Proof. unfold regulator_set_vsetpoint. step_through. Qed.

Lemma regulator_set_isetpoint_keeps_duties r i :
  keeps duties (regulator_set_isetpoint r i).
Proof. unfold regulator_set_isetpoint. step_through. Qed.

Lemma regulator_set_period_keeps_duties r p :
  keeps duties (regulator_set_period r p).
Proof. unfold regulator_set_period. step_through. Qed.

Lemma regulator_set_ch2_source_keeps_duties src :
  keeps duties (regulator_set_ch2_source src).
Proof.
  unfold regulator_set_ch2_source.
  pose proof (configure_func_keeps Chan2) as Hc; simpl in Hc.
  step_through.
Qed.

Lemma regulator_init_keeps_duties env : keeps duties (regulator_init env).
Proof.
  unfold regulator_init.
  repeat (apply keeps_bind; [ apply regulator_set_mode_keeps_duties | intro ]).
  apply keeps_ret.
Qed.

Lemma duties_ordered_with_chan (r : chan_id) (x : regulator_t) (s : system) :
  ordered x -> duties_ordered s -> duties_ordered (with_chan r x s).
Proof. unfold duties_ordered; destruct r; simpl; tauto. Qed.

Lemma duties_ordered_chans (s s' : system) :
  chans s' = chans s -> duties_ordered s -> duties_ordered s'.
Proof.
  unfold chans, duties_ordered. intro H; inversion H as [[H1 H2]].
  rewrite H1, H2. tauto.
Qed.

Lemma duties_ordered_chan (r : chan_id) (s : system) :
  duties_ordered s -> ordered (chan r s).
Proof. unfold duties_ordered; destruct r; simpl; tauto. Qed.

(** A feedback step keeps both channels ordered, on every path and
    whether or not the new compare values reach the timers. *)
Lemma regulator_feedback_preserves (r : chan_id) :
  preserves duties_ordered (regulator_feedback r).
Proof.
  intros s Hs.
  apply (duties_ordered_chans _ _ (regulator_feedback_chans r s)).
  apply duties_ordered_with_chan; [ | exact Hs ].
  apply feedback_step_ordered, duties_ordered_chan, Hs.
Qed.

Lemma adc1_isr_preserves a1 a2 a3 a4 :
  preserves duties_ordered (adc1_isr a1 a2 a3 a4).
Proof.
  unfold adc1_isr.
  do 5 (apply preserves_bind;
        [ apply keeps_duties_preserves; auto with regulator | intro ]).
  apply preserves_bind; [ | intro ]; apply regulator_feedback_preserves.
Qed.

Lemma state_of_then_ret {A B} (m : M A) (b : B) (s : system) :
  state_of ((m ;; ret b) s) = state_of (m s).
Proof. unfold bind. destruct (m s); reflexivity. Qed.

Lemma regulator_set_duty_cycle_preserves r d1 d2 :
  preserves duties_ordered (regulator_set_duty_cycle r d1 d2).
Proof.
  intros s Hs. unfold regulator_set_duty_cycle.
  unfold bind at 1; unfold read.
  destruct (negb (mode_is CONST_DUTY (chan r s)) &&
            negb (mode_is DISABLED (chan r s))); [ exact Hs | ].
  destruct (Z.gtb_spec d2 d1) as [Hgt | Hle]; [ exact Hs | ].
  unfold bind at 1; unfold update_chan at 1; unfold modify.
  unfold bind at 1; unfold update_chan at 1; unfold modify.
  rewrite state_of_then_ret.
  apply (duties_ordered_chans _ _ (configure_func_keeps r _)).
  rewrite chan_with_chan, with_chan_twice.
  apply duties_ordered_with_chan; [ | exact Hs ].
  unfold ordered; destruct (chan r s); simpl; lia.
Qed.

Lemma run_preserves env c : preserves duties_ordered (run env c).
Proof.
  destruct c; simpl.
  - intros s Hs. rewrite state_of_then_ret.
    apply (keeps_duties_preserves _ (regulator_init_keeps_duties env)), Hs.
  - apply keeps_duties_preserves, regulator_set_mode_keeps_duties.
  - apply regulator_set_duty_cycle_preserves.
  - apply keeps_duties_preserves, regulator_set_vsetpoint_keeps_duties.
  - apply keeps_duties_preserves, regulator_set_isetpoint_keeps_duties.
  - apply keeps_duties_preserves, regulator_set_ch2_source_keeps_duties.
  - apply keeps_duties_preserves, regulator_set_period_keeps_duties.
  - intros s Hs. rewrite state_of_then_ret.
    apply adc1_isr_preserves, Hs.
Qed.

Lemma reachable_duties_ordered (s : system) :
  reachable s -> duties_ordered s.
Proof.
  induction 1 as [ | env c s s' rc Hreach IH Hty Hrun ].
  - unfold duties_ordered, ordered; simpl; lia.
  - pose proof (run_preserves env c s IH) as H.
    rewrite Hrun in H. exact H.
Qed.

Lemma adc1_isr_sampled a1 a2 a3 a4 s :
  adc1_isr a1 a2 a3 a4 s =
  (regulator_feedback Chan1 ;; regulator_feedback Chan2) (sampled a1 a2 a3 a4 s).
Proof. reflexivity. Qed.

Lemma sampled_duties_ordered a1 a2 a3 a4 s :
  duties_ordered s -> duties_ordered (sampled a1 a2 a3 a4 s).
Proof. unfold duties_ordered, sampled; simpl; tauto. Qed.

(** * Mode changes *)

Lemma configure_pwm_returns_0 timer oc p pol t s :
  exists s', configure_pwm timer oc p pol t s = Ret 0 s'.
Proof. eexists; reflexivity. Qed.

Lemma configure_dual_pwm_returns_0 ta oa tb ob src p a b dt s :
  exists s', configure_dual_pwm ta oa tb ob src p a b dt s = Ret 0 s'.
Proof. eexists; reflexivity. Qed.

Lemma configure_func_returns_0 (r : chan_id) (s : system) :
  exists s', configure_func r s = Ret 0 s' /\ chans s' = chans s.
Proof.
  destruct r; eexists;
    cbv [configure_func configure_ch1 configure_ch2 configure_dual_pwm
         configure_pwm bind read emit modify ret negb Z.eqb];
    split; reflexivity.
Qed.

(** The enable-or-disable step of [regulator_set_mode]. *)
Lemma switch_step_keeps env r (old_mode new_mode : feedback_mode) :
  keeps chans
    (if feedback_mode_eqb old_mode DISABLED
        && negb (feedback_mode_eqb new_mode DISABLED)
     then enable_func env r
     else if feedback_mode_eqb new_mode DISABLED then disable_func env r
     else ret tt).
Proof. step_through. Qed.

Lemma switch_step_faultless env r (old_mode new_mode : feedback_mode) :
  faultless
    (if feedback_mode_eqb old_mode DISABLED
        && negb (feedback_mode_eqb new_mode DISABLED)
     then enable_func env r
     else if feedback_mode_eqb new_mode DISABLED then disable_func env r
     else ret tt).
Proof. step_through. Qed.

Lemma switch_step_total r (old_mode new_mode : feedback_mode) :
  total
    (if feedback_mode_eqb old_mode DISABLED
        && negb (feedback_mode_eqb new_mode DISABLED)
     then enable_func responsive r
     else if feedback_mode_eqb new_mode DISABLED then disable_func responsive r
     else ret tt).
Proof. step_through. Qed.

Lemma mode_with_mode reg m : mode (with_mode reg m) = m.
Proof. reflexivity. Qed.

Lemma regulator_set_mode_outcome env r m s :
  match regulator_set_mode env r m s with
  | Ret rc s' => rc = 0 /\ mode (chan r s') = m
  | Stop w _ => w = Stalled
  end.
Proof.
  unfold regulator_set_mode.
  unfold bind at 1; unfold read.
  unfold bind at 1; unfold update_chan at 1; unfold modify.
  unfold bind at 1.
  match goal with
  | |- context [match ?step ?st with Ret _ _ => _ | Stop _ _ => _ end] =>
      pose proof (switch_step_keeps env r (mode (chan r s)) m st) as Hk;
      pose proof (switch_step_faultless env r (mode (chan r s)) m st) as Hf;
      destruct (step st) as [[] s2 | w s2]
  end; simpl in Hk.
  - assert (Hm : mode (chan r s2) = m).
    { rewrite (chan_of_chans r _ _ Hk), chan_with_chan. reflexivity. }
    destruct (feedback_mode_eqb m DISABLED); simpl; [ split; auto | ].
    destruct (configure_func_returns_0 r s2) as (s3 & Hc & Hs3).
    unfold bind. rewrite Hc. simpl. split; [ reflexivity | ].
    rewrite (chan_of_chans r _ _ Hs3). exact Hm.
  - destruct w; [ exfalso; eapply Hf; reflexivity | reflexivity ].
Qed.

Lemma regulator_set_mode_returns r m s :
  exists s', regulator_set_mode responsive r m s = Ret 0 s'.
Proof.
  pose proof (regulator_set_mode_outcome responsive r m s) as Ho.
  assert (Ht : returned (regulator_set_mode responsive r m s)).
  { revert s Ho. intros s _. revert s.
    change (total (regulator_set_mode responsive r m)).
    unfold regulator_set_mode.
    apply total_bind; [ auto with regulator | intro reg ].
    apply total_bind; [ apply total_modify | intros _ ].
    apply total_bind; [ apply switch_step_total | intros _ ].
    destruct (negb (feedback_mode_eqb m DISABLED)); [ | apply total_ret ].
    intro s. unfold bind.
    destruct (configure_func_returns_0 r s) as (s3 & Hc & _).
    rewrite Hc. exact I. }
  destruct (regulator_set_mode responsive r m s) as [rc s' | w s'].
  - destruct Ho as [-> _]. exists s'; reflexivity.
  - destruct Ht.
Qed.

(** * The claims *)

(** C1. In every reachable state, an invocation of [regulator_feedback]
    on either channel ends with [duty2 <= duty1] on both channels: when
    invoked directly on the state, and at the two places where the
    sample interrupt invokes it (channel 1 on the latched samples,
    channel 2 on the state channel 1 left).  The state considered is the
    one the invocation ends in, reached the timers or not. *)
Theorem feedback_keeps_duty2_le_duty1 (s : system) :
  reachable s ->
  (forall r r',
     duty2 (chan r' (state_of (regulator_feedback r s)))
     <= duty1 (chan r' (state_of (regulator_feedback r s)))) /\
  (forall a1 a2 a3 a4 r',
     let s1 := state_of (regulator_feedback Chan1 (sampled a1 a2 a3 a4 s)) in
     let s2 := state_of (regulator_feedback Chan2 s1) in
     duty2 (chan r' s1) <= duty1 (chan r' s1) /\
     duty2 (chan r' s2) <= duty1 (chan r' s2)).
Proof.
  intro Hreach. pose proof (reachable_duties_ordered s Hreach) as Hs.
  split.
  - intros r r'.
    apply (duties_ordered_chan r'), regulator_feedback_preserves, Hs.
  - intros a1 a2 a3 a4 r' s1 s2.
    assert (H1 : duties_ordered s1).
    { apply regulator_feedback_preserves, sampled_duties_ordered, Hs. }
    split.
    + apply (duties_ordered_chan r'), H1.
    + apply (duties_ordered_chan r'), regulator_feedback_preserves, H1.
Qed.

Lemma regulating_reachable : reachable regulating.
Proof.
  apply (reachable_call responsive (SetMode Chan1 VOLTAGE_FB)
           const_duty_half regulating 0); [ | exact I | vm_compute; reflexivity ].
  apply (reachable_call responsive (SetDutyCycle Chan1 0x8000 0x4000)
           const_duty_idle const_duty_half 0);
    [ | simpl; unfold is_int32; lia | vm_compute; reflexivity ].
  apply (reachable_call responsive (SetMode Chan1 CONST_DUTY)
           power_on const_duty_idle 0); [ | exact I | vm_compute; reflexivity ].
  apply reachable_power_on.
Defined.

Lemma feedback_keeps_duty2_le_duty1_witness :
  reachable regulating /\
  duty2 (chan Chan1 (state_of (regulator_feedback Chan1 regulating)))
  <= duty1 (chan Chan1 (state_of (regulator_feedback Chan1 regulating))).
Proof.
  split.
  - exact regulating_reachable.
  - exact (proj1 (feedback_keeps_duty2_le_duty1 regulating regulating_reachable)
             Chan1 Chan1).
Defined.

(** C2 (as amended).  With a negative error and both duty cycles above
    [0xffff - fudge] (within 2000 of full scale), the mixing algorithm
    sets both duty cycles to [0xffff / 2 = 0x7fff]. *)
Theorem collapse_resets_both_duties (reg : regulator_t)
    (gains : feedback_gains) (error : Z) :
  error < 0 -> duty1 reg > 0xffff - fudge -> duty2 reg > 0xffff - fudge ->
  duty1 (regulator_feedback_error reg gains error) = 0x7fff /\
  duty2 (regulator_feedback_error reg gains error) = 0x7fff.
Proof.
  intros He H1 H2. unfold regulator_feedback_error; cbv zeta.
  destruct (Z.ltb_spec error 0); [ | lia ].
  destruct (Z.gtb_spec (duty1 reg) (0xffff - fudge)); [ | lia ].
  destruct (Z.gtb_spec (duty2 reg) (0xffff - fudge)); [ | lia ].
  destruct reg; simpl. split; reflexivity.
Qed.

Lemma collapse_resets_both_duties_witness :
  let reg := bench VOLTAGE_FB 0xff00 0xff00 1800 2000 0 0xffff in
  duty1 (regulator_feedback_error reg (v_gains reg) (-200)) = 0x7fff /\
  duty2 (regulator_feedback_error reg (v_gains reg) (-200)) = 0x7fff.
Proof.
  apply (collapse_resets_both_duties
           (bench VOLTAGE_FB 0xff00 0xff00 1800 2000 0 0xffff));
    unfold fudge; simpl; lia.
Defined.

(** C2 as stated fails: from both duty cycles at 0xff00 and an error of
    -200 the mixing algorithm leaves 0x7fff, not 0x8000. *)
Lemma collapse_does_not_reset_to_0x8000 :
  let reg := bench VOLTAGE_FB 0xff00 0xff00 1800 2000 0 0xffff in
  let error := vsense reg - vsetpoint reg in
  error < 0 /\
  0x10000 - duty1 reg <= fudge /\ 0x10000 - duty2 reg <= fudge /\
  duty1 (regulator_feedback_error reg (v_gains reg) error) <> 0x8000 /\
  duty2 (regulator_feedback_error reg (v_gains reg) error) <> 0x8000.
Proof. vm_compute. repeat split; discriminate. Qed.

(** C4.  In a mode other than Disabled and ConstantDuty, the invocation
    of [regulator_feedback] ends with both duty cycles in [0, 0xffff],
    hence in [0, 0x10000]: each is the value the mode-dependent part
    left, raised to 0 when negative and lowered to 0xffff when above. *)
Theorem feedback_clamps_duties (s : system) (r : chan_id) :
  mode (chan r s) <> DISABLED -> mode (chan r s) <> CONST_DUTY ->
  let mixed := feedback_regulate (chan r s) in
  let after := chan r (state_of (regulator_feedback r s)) in
  (0 <= duty1 after <= 0xffff /\ 0 <= duty2 after <= 0xffff) /\
  (0 <= duty1 after <= 0x10000 /\ 0 <= duty2 after <= 0x10000) /\
  (duty1 mixed < 0 -> duty1 after = 0) /\
  (duty1 mixed > 0xffff -> duty1 after = 0xffff) /\
  (0 <= duty1 mixed <= 0xffff -> duty1 after = duty1 mixed) /\
  (duty2 mixed < 0 -> duty2 after = 0) /\
  (duty2 mixed > 0xffff -> duty2 after = 0xffff) /\
  (0 <= duty2 mixed <= 0xffff -> duty2 after = duty2 mixed).
Proof.
  intros Hd Hc mixed after.
  assert (Hafter : after = clamp_duties mixed).
  { unfold after, mixed. rewrite regulator_feedback_chan. unfold feedback_step.
    destruct (mode (chan r s)); congruence. }
  rewrite Hafter, clamp_duties_duty1, clamp_duties_duty2.
  unfold clamp16. repeat split; lia.
Qed.

Lemma feedback_clamps_duties_witness :
  let s := with_chan Chan1 (bench CURRENT_FB (-7) (-9) 0 0 0 0xffff) power_on in
  duty1 (chan Chan1 (state_of (regulator_feedback Chan1 s))) = 0 /\
  0 <= duty2 (chan Chan1 (state_of (regulator_feedback Chan1 s))) <= 0xffff.
Proof.
  intro s.
  pose proof (feedback_clamps_duties s Chan1
                ltac:(simpl; discriminate) ltac:(simpl; discriminate)) as H.
  cbv zeta in H.
  destruct H as ((_ & H2) & _ & H1 & _).
  split; [ apply H1; vm_compute; reflexivity | exact H2 ].
Defined.

(** C5.  In VoltageFeedback with [isense > ilimit], and in
    CurrentFeedback with [vsense > vlimit], the mode-dependent part of
    the tick is the halving of both duty cycles and nothing else: the
    mixing algorithm is not applied, so the channel after the tick is
    the clamped halving whatever the error and the gains.  Duty cycles
    in [0, 0x10000] come out exactly halved.  The tick has no result to
    report, and returns whenever the period is at most 0x10000 ticks. *)
Theorem limit_exceeded_halves_duties (s : system) (r : chan_id) :
  let reg := chan r s in
  (mode reg = VOLTAGE_FB /\ isense reg > ilimit reg) \/
  (mode reg = CURRENT_FB /\ vsense reg > vlimit reg) ->
  let after := chan r (state_of (regulator_feedback r s)) in
  feedback_regulate reg = halve_duties reg /\
  after = clamp_duties (halve_duties reg) /\
  duty1 after = clamp16 (duty1 reg ÷ 2) /\
  duty2 after = clamp16 (duty2 reg ÷ 2) /\
  (0 <= duty1 reg <= 0x10000 -> duty1 after = duty1 reg ÷ 2) /\
  (0 <= duty2 reg <= 0x10000 -> duty2 after = duty2 reg ÷ 2) /\
  (0 <= period reg <= 0x10000 ->
   exists s', regulator_feedback r s = Ret tt s').
Proof.
  intros reg Hlimit after.
  assert (Hpart : feedback_regulate reg = halve_duties reg).
  { unfold feedback_regulate.
    destruct Hlimit as [[Hm Hl] | [Hm Hl]]; rewrite Hm.
    - destruct (Z.gtb_spec (isense reg) (ilimit reg)); [ reflexivity | lia ].
    - destruct (Z.gtb_spec (vsense reg) (vlimit reg)); [ reflexivity | lia ]. }
  assert (Hafter : after = clamp_duties (halve_duties reg)).
  { unfold after. rewrite regulator_feedback_chan. fold reg.
    unfold feedback_step. rewrite Hpart.
    destruct Hlimit as [[Hm _] | [Hm _]]; rewrite Hm; reflexivity. }
  assert (H1 : duty1 after = clamp16 (duty1 reg ÷ 2)).
  { rewrite Hafter, clamp_duties_duty1. destruct reg; reflexivity. }
  assert (H2 : duty2 after = clamp16 (duty2 reg ÷ 2)).
  { rewrite Hafter, clamp_duties_duty2. destruct reg; reflexivity. }
  repeat split; try assumption.
  - intro Hr. rewrite H1. apply clamp16_id.
    pose proof (Z.quot_pos (duty1 reg) 2 ltac:(lia) ltac:(lia)).
    pose proof (Z.quot_le_mono (duty1 reg) 0x10000 2 ltac:(lia) ltac:(lia)) as Hq.
    change (0x10000 ÷ 2) with 0x8000 in Hq. lia.
  - intro Hr. rewrite H2. apply clamp16_id.
    pose proof (Z.quot_pos (duty2 reg) 2 ltac:(lia) ltac:(lia)).
    pose proof (Z.quot_le_mono (duty2 reg) 0x10000 2 ltac:(lia) ltac:(lia)) as Hq.
    change (0x10000 ÷ 2) with 0x8000 in Hq. lia.
  - intro Hp. pose proof (regulator_feedback_returns r s Hp) as Hret.
    destruct (regulator_feedback r s) as [[] s' | w s'].
    + exists s'; reflexivity.
    + destruct Hret.
Qed.

Lemma limit_exceeded_halves_duties_witness :
  let s := with_chan Chan1 (bench VOLTAGE_FB 0x8000 0x4001 1800 2000 700 600)
             power_on in
  duty1 (chan Chan1 (state_of (regulator_feedback Chan1 s))) = 0x4000 /\
  duty2 (chan Chan1 (state_of (regulator_feedback Chan1 s))) = 0x2000.
Proof.
  intro s.
  assert (Hlimit :
    (mode (chan Chan1 s) = VOLTAGE_FB /\
     isense (chan Chan1 s) > ilimit (chan Chan1 s)) \/
    (mode (chan Chan1 s) = CURRENT_FB /\
     vsense (chan Chan1 s) > vlimit (chan Chan1 s))).
  { left; split; [ reflexivity | simpl; lia ]. }
  destruct (limit_exceeded_halves_duties s Chan1 Hlimit)
    as (_ & _ & _ & _ & H1 & H2 & _).
  split; [ apply H1 | apply H2 ]; simpl; lia.
Defined.

(** The three outcomes of [regulator_set_duty_cycle]. *)
Lemma set_duty_cycle_wrong_mode (s : system) (r : chan_id) (d1 d2 : fract32_t) :
  mode (chan r s) <> DISABLED -> mode (chan r s) <> CONST_DUTY ->
  regulator_set_duty_cycle r d1 d2 s = Ret 1 s.
Proof.
  intros Hd Hc. unfold regulator_set_duty_cycle, mode_is.
  unfold bind at 1; unfold read.
  destruct (feedback_mode_eqb_spec (mode (chan r s)) CONST_DUTY);
    [ contradiction | ].
  destruct (feedback_mode_eqb_spec (mode (chan r s)) DISABLED);
    [ contradiction | reflexivity ].
Qed.

Lemma set_duty_cycle_wrong_order (s : system) (r : chan_id) (d1 d2 : fract32_t) :
  mode (chan r s) = DISABLED \/ mode (chan r s) = CONST_DUTY -> d2 > d1 ->
  regulator_set_duty_cycle r d1 d2 s = Ret 2 s.
Proof.
  intros Hm Hgt. unfold regulator_set_duty_cycle, mode_is.
  unfold bind at 1; unfold read.
  destruct (Z.gtb_spec d2 d1); [ | lia ].
  destruct Hm as [Hm | Hm]; rewrite Hm; reflexivity.
Qed.

Lemma set_duty_cycle_accepted (s : system) (r : chan_id) (d1 d2 : fract32_t) :
  mode (chan r s) = DISABLED \/ mode (chan r s) = CONST_DUTY -> d2 <= d1 ->
  regulator_set_duty_cycle r d1 d2 s =
  (configure_func r ;; ret 0)
    (with_chan r (with_duty2 (with_duty1 (chan r s) d1) d2) s).
Proof.
  intros Hm Hle. unfold regulator_set_duty_cycle, mode_is.
  unfold bind at 1; unfold read.
  destruct (Z.gtb_spec d2 d1); [ lia | ].
  assert (Hgate : negb (feedback_mode_eqb (mode (chan r s)) CONST_DUTY) &&
                  negb (feedback_mode_eqb (mode (chan r s)) DISABLED) = false).
  { destruct Hm as [Hm | Hm]; rewrite Hm; reflexivity. }
  rewrite Hgate.
  unfold bind at 1; unfold update_chan at 1; unfold modify.
  unfold bind at 1; unfold update_chan at 1; unfold modify.
  rewrite chan_with_chan, with_chan_twice. reflexivity.
Qed.

(** C6.  [regulator_set_duty_cycle] is refused with a non-zero code, and
    the whole state is left as it was, when the mode of the channel is
    neither Disabled nor ConstantDuty (code 1) and when [d2 > d1]
    (code 2 in an accepted mode). *)
Theorem set_duty_cycle_rejects (s : system) (r : chan_id) (d1 d2 : fract32_t) :
  (mode (chan r s) <> DISABLED /\ mode (chan r s) <> CONST_DUTY) \/ d2 > d1 ->
  (exists rc, rc <> 0 /\ regulator_set_duty_cycle r d1 d2 s = Ret rc s) /\
  (mode (chan r s) <> DISABLED /\ mode (chan r s) <> CONST_DUTY ->
   regulator_set_duty_cycle r d1 d2 s = Ret 1 s) /\
  (mode (chan r s) = DISABLED \/ mode (chan r s) = CONST_DUTY ->
   regulator_set_duty_cycle r d1 d2 s = Ret 2 s).
Proof.
  intro Hrej.
  assert (Hwrong : mode (chan r s) <> DISABLED /\ mode (chan r s) <> CONST_DUTY ->
                   regulator_set_duty_cycle r d1 d2 s = Ret 1 s).
  { intros [Hd Hc]. apply set_duty_cycle_wrong_mode; assumption. }
  destruct (feedback_mode_eqb_spec (mode (chan r s)) DISABLED) as [Hd | Hd];
    [ | destruct (feedback_mode_eqb_spec (mode (chan r s)) CONST_DUTY)
          as [Hc | Hc] ].
  - assert (Hgt : d2 > d1) by (destruct Hrej as [[Hn _] | Hgt]; [ contradiction | exact Hgt ]).
    split; [ exists 2; split; [ lia | ] | split; [ exact Hwrong | intros _ ] ];
      apply set_duty_cycle_wrong_order; auto.
  - assert (Hgt : d2 > d1) by (destruct Hrej as [[_ Hn] | Hgt]; [ contradiction | exact Hgt ]).
    split; [ exists 2; split; [ lia | ] | split; [ exact Hwrong | intros _ ] ];
      apply set_duty_cycle_wrong_order; auto.
  - split; [ exists 1; split; [ lia | apply Hwrong; auto ] | ].
    split; [ exact Hwrong | intros [H | H]; contradiction ].
Qed.

Lemma set_duty_cycle_rejects_witness :
  regulator_set_duty_cycle Chan1 0x8000 0x4000 regulating = Ret 1 regulating /\
  regulator_set_duty_cycle Chan2 0x4000 0x8000 regulating = Ret 2 regulating.
Proof.
  split.
  - apply (set_duty_cycle_rejects regulating Chan1 0x8000 0x4000).
    + left; split; vm_compute; discriminate.
    + split; vm_compute; discriminate.
  - apply (set_duty_cycle_rejects regulating Chan2 0x4000 0x8000).
    + right; lia.
    + left; vm_compute; reflexivity.
Defined.

(** C10.  In mode Disabled or ConstantDuty, for any [d1] and [d2] with
    [d2 <= d1], of any sign and size, [regulator_set_duty_cycle] returns
    0: it stores [d1] and [d2] unchanged in the channel and then
    reconfigures the PWM from them.  The reconfiguration is the run of
    the configure capability on that store, and the driver calls it adds
    are given in full, in the order they are made.  On channel 1, TIM2
    and then TIM4 are set up with unit OC3 programmed with the compare
    value of [d1] and of [d2] (the 64-bit product with the period,
    shifted right by 16 and cut to 16 bits), the two timers are chained
    and both counters started.  On channel 2, TIM3 is set up with the
    selected unit programmed with the compare value of [d1] (the 32-bit
    product with the period divided by 0xffff, cut to 16 bits) and its
    counter started.  The last compare value programmed on each of these
    units is therefore the one computed from the new duty cycles. *)
Theorem set_duty_cycle_stores_verbatim (s : system) (r : chan_id)
    (d1 d2 : fract32_t) :
  mode (chan r s) = DISABLED \/ mode (chan r s) = CONST_DUTY -> d2 <= d1 ->
  let stored := with_chan r (with_duty2 (with_duty1 (chan r s) d1) d2) s in
  let p := period (chan r s) in
  let ta := to_uint16 (Z.shiftr (to_uint64 (p * to_uint64 d1)) 16) in
  let tb := to_uint16 (Z.shiftr (to_uint64 (p * to_uint64 d2)) 16) in
  let t := to_uint16 (to_uint32 (p * to_uint32 d1) / 0xffff) in
  let oc := ch2_oc s in
  exists s',
    regulator_set_duty_cycle r d1 d2 s = Ret 0 s' /\
    configure_func r stored = Ret 0 s' /\
    chan r s' = with_duty2 (with_duty1 (chan r s) d1) d2 /\
    duty1 (chan r s') = d1 /\ duty2 (chan r s') = d2 /\
    calls s'
    = rev match r with
          | Chan1 =>
              [ timer_reset TIM2;
                timer_continuous_mode TIM2;
                timer_set_oc_mode TIM2 TIM_OC3 TIM_OCM_PWM1;
                timer_set_oc_value TIM2 TIM_OC3 ta;
                timer_enable_oc_preload TIM2 TIM_OC3;
                timer_enable_oc_output TIM2 TIM_OC3;
                timer_set_mode_center_3 TIM2;
                timer_enable_preload TIM2;
                timer_set_period TIM2 p;
                timer_generate_event_ug TIM2;
                timer_reset TIM4;
                timer_continuous_mode TIM4;
                timer_set_oc_mode TIM4 TIM_OC3 TIM_OCM_PWM1;
                timer_set_oc_value TIM4 TIM_OC3 tb;
                timer_enable_oc_preload TIM4 TIM_OC3;
                timer_enable_oc_output TIM4 TIM_OC3;
                timer_set_mode_center_3 TIM4;
                timer_enable_preload TIM4;
                timer_set_period TIM4 p;
                timer_generate_event_ug TIM4;
                timer_set_master_mode TIM2 TIM_CR2_MMS_ENABLE;
                timer_slave_set_mode_gated TIM4;
                timer_slave_set_trigger TIM4 TIM_SMCR_TS_ITR1;
                timer_set_period TIM2 (to_uint32 (p - 0x10));
                timer_generate_event_ug TIM2;
                timer_set_period TIM2 p;
                timer_enable_counter TIM4;
                timer_enable_counter TIM2 ]
          | Chan2 =>
              [ timer_reset TIM3;
                timer_continuous_mode TIM3;
                timer_set_oc_mode TIM3 oc TIM_OCM_PWM1;
                timer_set_oc_value TIM3 oc t;
                timer_enable_oc_preload TIM3 oc;
                timer_enable_oc_output TIM3 oc;
                timer_set_mode_center_3 TIM3;
                timer_enable_preload TIM3;
                timer_set_period TIM3 p;
                timer_generate_event_ug TIM3;
                timer_enable_counter TIM3 ]
          end ++ calls s /\
    match r with
    | Chan1 => last_oc_value TIM2 TIM_OC3 (calls s') = Some ta /\
               last_oc_value TIM4 TIM_OC3 (calls s') = Some tb
    | Chan2 => last_oc_value TIM3 oc (calls s') = Some t
    end /\
    ch2_oc s' = ch2_oc s.
Proof.
  intros Hm Hle stored p ta tb t oc.
  rewrite set_duty_cycle_accepted by assumption. fold stored.
  destruct r.
  - eexists. split.
    { cbv [configure_func configure_ch1 configure_dual_pwm configure_pwm
           bind read emit modify ret negb Z.eqb]. reflexivity. }
    split.
    { cbv [configure_func configure_ch1 configure_dual_pwm configure_pwm
           bind read emit modify ret negb Z.eqb]. reflexivity. }
    repeat split; reflexivity.
  - eexists. split.
    { cbv [configure_func configure_ch2 configure_pwm
           bind read emit modify ret negb Z.eqb]. reflexivity. }
    split.
    { cbv [configure_func configure_ch2 configure_pwm
           bind read emit modify ret negb Z.eqb]. reflexivity. }
    split; [ reflexivity | ]. split; [ reflexivity | ].
    split; [ reflexivity | ]. split; [ reflexivity | ].
    split; [ | reflexivity ].
    subst oc. destruct (ch2_oc s) eqn:Hoc; cbn; rewrite ?Hoc; reflexivity.
Qed.

Lemma set_duty_cycle_stores_verbatim_witness :
  exists s',
    regulator_set_duty_cycle Chan1 0x20000 (-5) const_duty_idle = Ret 0 s' /\
    duty1 (chan Chan1 s') = 0x20000 /\ duty2 (chan Chan1 s') = -5 /\
    last_oc_value TIM2 TIM_OC3 (calls s') = Some 800 /\
    last_oc_value TIM4 TIM_OC3 (calls s') = Some 0xffff /\
    hd_error (calls s') = Some (timer_enable_counter TIM2).
Proof.
  destruct (set_duty_cycle_stores_verbatim const_duty_idle Chan1 0x20000 (-5))
    as (s' & Hret & _ & _ & H1 & H2 & Hcalls & (Ha & Hb) & _).
  - right; vm_compute; reflexivity.
  - lia.
  - exists s'. split; [ exact Hret | ].
    split; [ exact H1 | ]. split; [ exact H2 | ].
    split; [ rewrite Ha; vm_compute; reflexivity | ].
    split; [ rewrite Hb; vm_compute; reflexivity | ].
    rewrite Hcalls. reflexivity.
Defined.

(** C9.  [configure_pwm] and [configure_dual_pwm] return 0, and so does
    the configure capability of both channels, leaving the channel
    records as they were.  [regulator_set_mode] therefore never returns
    a non-zero code and never forces the mode back: when it returns, the
    code is 0 and the channel is in the requested mode.  It cannot take
    the fatal-fault path; it can only stall in a busy-wait of the shared
    peripheral setup, and on responsive hardware it returns 0. *)
Theorem set_mode_always_returns_0 :
  (forall timer oc p pol t s,
     exists s', configure_pwm timer oc p pol t s = Ret 0 s') /\
  (forall ta oa tb ob src p a b dt s,
     exists s', configure_dual_pwm ta oa tb ob src p a b dt s = Ret 0 s') /\
  (forall s, exists s', configure_ch1 s = Ret 0 s' /\ chans s' = chans s) /\
  (forall s, exists s', configure_ch2 s = Ret 0 s' /\ chans s' = chans s) /\
  (forall env r m s,
     match regulator_set_mode env r m s with
     | Ret rc s' => rc = 0 /\ mode (chan r s') = m
     | Stop w _ => w = Stalled
     end) /\
  (forall r m s, exists s', regulator_set_mode responsive r m s = Ret 0 s').
Proof.
  split; [ intros; apply configure_pwm_returns_0 | ].
  split; [ intros; apply configure_dual_pwm_returns_0 | ].
  split; [ intro s; apply (configure_func_returns_0 Chan1) | ].
  split; [ intro s; apply (configure_func_returns_0 Chan2) | ].
  split; [ intros; apply regulator_set_mode_outcome | ].
  intros; apply regulator_set_mode_returns.
Qed.

(** C8.  For a duty fraction [d] in [0, 0x10000] and a 32-bit period,
    [set_pwm_duty] computes [t = (d * period) >> 16]; when [t] exceeds
    0xffff it takes the fatal-fault path without any write to the
    timer, and otherwise its only effect is to write [t] to the compare
    register.  A duty of 0x10000 with a period of 0x20000 faults. *)
Theorem set_pwm_duty_faults_on_overflow (timer : timer_id) (oc : tim_oc_id)
    (p : Z) (d : fract32_t) (s : system) :
  0 <= d <= 0x10000 -> is_uint32 p ->
  let t := Z.shiftr (d * p) 16 in
  (t > 0xffff -> set_pwm_duty timer oc p d s = Stop FatalFault s) /\
  (t <= 0xffff ->
   set_pwm_duty timer oc p d s =
   Ret tt (with_call (timer_set_oc_value timer oc t) s)) /\
  set_pwm_duty timer oc 0x20000 0x10000 s = Stop FatalFault s.
Proof.
  intros Hd Hp t.
  assert (Ht : pwm_ticks p d = t) by (apply pwm_ticks_exact; assumption).
  split; [ | split ].
  - intro H. apply set_pwm_duty_faults. lia.
  - intro H. rewrite <- Ht. apply set_pwm_duty_writes. lia.
  - reflexivity.
Qed.

Lemma set_pwm_duty_faults_on_overflow_witness :
  set_pwm_duty TIM2 TIM_OC3 0x1ffff 0x10000 power_on
    = Stop FatalFault power_on /\
  set_pwm_duty TIM2 TIM_OC3 400 0x8000 power_on
    = Ret tt (with_call (timer_set_oc_value TIM2 TIM_OC3 200) power_on).
Proof.
  assert (H32 : forall p, 0 <= p < 2 ^ 32 -> is_uint32 p) by (intros p H; exact H).
  destruct (set_pwm_duty_faults_on_overflow TIM2 TIM_OC3 0x1ffff 0x10000
              power_on ltac:(lia) (H32 0x1ffff ltac:(lia))) as (Hfault & _ & _).
  destruct (set_pwm_duty_faults_on_overflow TIM2 TIM_OC3 400 0x8000
              power_on ltac:(lia) (H32 400 ltac:(lia))) as (_ & Hwrite & _).
  split.
  - apply Hfault. vm_compute; reflexivity.
  - apply Hwrite. vm_compute; discriminate.
Defined.

(** The scenario of C3 on the channel record: with [duty1 = 0x8000], an
    error of -200 and a unit [prop_gain1], the mixing algorithm adjusts
    switch 2 when [duty2] is above [fudge], and switch 1 otherwise. *)
Lemma mixing_at_half_duty (reg : regulator_t) (gains : feedback_gains) :
  duty1 reg = 0x8000 -> prop_gain1 gains = 0x10000 ->
  regulator_feedback_error reg gains (-200) =
  if duty2 reg >? fudge
  then with_duty2 reg
         (Z.min 0x8000
            (to_int32 (duty2 reg + gain_term (-200) (prop_gain2 gains))))
  else with_duty1 reg (0x8000 + 200).
Proof.
  destruct reg, gains; simpl. intros -> ->.
  unfold regulator_feedback_error, fudge; simpl.
  case_cmp.
  - case_cmp; unfold with_duty2; simpl; f_equal; lia.
  - change (to_int32 32968) with 32968.
    case_cmp; [ lia | reflexivity ].
Qed.

(** C3 (as amended).  In VoltageFeedback with [duty1 = 0x8000], a
    setpoint of 2000 codepoints, 1800 sensed (an error of -200), a unit
    [prop_gain1] and the current within its limit: when [duty2] is at
    most [fudge] the tick raises [duty1] by exactly 200 and leaves
    [duty2] as it was (0 if it was negative); when [duty2] is above
    [fudge] the tick leaves [duty1] at 0x8000 and lowers [duty2]
    instead. *)
Theorem voltage_tick_at_half_duty (s : system) (r : chan_id) :
  let reg := chan r s in
  mode reg = VOLTAGE_FB -> duty1 reg = 0x8000 ->
  vsetpoint reg = 2000 -> vsense reg = 1800 ->
  prop_gain1 (v_gains reg) = 0x10000 -> isense reg <= ilimit reg ->
  let after := chan r (state_of (regulator_feedback r s)) in
  (duty2 reg <= fudge ->
   duty1 after = 0x8000 + 200 /\
   duty2 after = Z.max 0 (duty2 reg) /\
   (0 <= duty2 reg -> duty2 after = duty2 reg)) /\
  (duty2 reg > fudge ->
   duty1 after = 0x8000 /\
   duty2 after =
   clamp16 (Z.min 0x8000
              (to_int32 (duty2 reg
                         + gain_term (-200) (prop_gain2 (v_gains reg)))))).
Proof.
  intros reg Hm Hd1 Hset Hsense Hg Hlim after.
  assert (Hafter :
    after = clamp_duties (regulator_feedback_error reg (v_gains reg) (-200))).
  { unfold after. rewrite regulator_feedback_chan. fold reg.
    unfold feedback_step, feedback_regulate. rewrite Hm.
    destruct (Z.gtb_spec (isense reg) (ilimit reg)); [ lia | ].
    rewrite Hsense, Hset. reflexivity. }
  rewrite (mixing_at_half_duty reg (v_gains reg) Hd1 Hg) in Hafter.
  rewrite Hafter, clamp_duties_duty1, clamp_duties_duty2.
  unfold fudge in *. split; intro H2.
  - destruct (Z.gtb_spec (duty2 reg) 2000); [ lia | ].
    destruct reg; simpl in *. unfold clamp16. lia.
  - destruct (Z.gtb_spec (duty2 reg) 2000); [ | lia ].
    destruct reg; simpl in *. subst. split; reflexivity.
Qed.

Lemma voltage_tick_at_half_duty_witness :
  let s := with_chan Chan1 (bench VOLTAGE_FB 0x8000 1500 1800 2000 0 0xffff)
             power_on in
  duty1 (chan Chan1 (state_of (regulator_feedback Chan1 s))) = 0x8000 + 200 /\
  duty2 (chan Chan1 (state_of (regulator_feedback Chan1 s))) = 1500.
Proof.
  intro s.
  destruct (voltage_tick_at_half_duty s Chan1 eq_refl eq_refl eq_refl eq_refl
              eq_refl ltac:(vm_compute; discriminate)) as [Hlow _].
  destruct Hlow as (H1 & _ & H2); [ vm_compute; discriminate | ].
  split; [ exact H1 | apply H2; vm_compute; discriminate ].
Defined.

(** C3 as stated fails: in the scenario with [duty2 = 0x4000] the tick
    leaves [duty1] at 0x8000 and takes the 200 codepoints off [duty2],
    which did not exceed the new [duty1]. *)
Lemma voltage_tick_moves_duty2_instead :
  let reg := bench VOLTAGE_FB 0x8000 0x4000 1800 2000 0 0xffff in
  let s := with_chan Chan1 reg power_on in
  let after := chan Chan1 (state_of (regulator_feedback Chan1 s)) in
  mode reg = VOLTAGE_FB /\ period reg = 400 /\ vsense_gain reg = 1241 /\
  duty1 reg = 0x8000 /\ vsetpoint reg = 2000 /\ vsense reg = 1800 /\
  prop_gain1 (v_gains reg) = 0x10000 /\ duty2 reg <= duty1 reg /\
  duty1 after = 0x8000 /\ duty1 after <> 0x8000 + 200 /\
  duty2 after = 0x4000 - 200 /\ duty2 after <> duty2 reg.
Proof. vm_compute. repeat split; discriminate. Qed.

(** * Setpoints *)

Lemma to_codepoint_exact (gain v : Z) :
  0 < gain -> 0 <= v -> gain * v < 2 ^ 32 ->
  to_codepoint gain v = Z.shiftr (gain * v) 16 /\
  0 <= Z.shiftr (gain * v) 16 < 2 ^ 16.
Proof.
  intros Hg Hv Hprod. unfold to_codepoint.
  assert (Hv32 : 0 <= v < 2 ^ 32) by nia.
  rewrite (to_uint32_small v) by exact Hv32.
  rewrite (to_uint32_small (gain * v)) by nia.
  rewrite shiftr16_div.
  assert (Hc : 0 <= gain * v / 2 ^ 16 < 2 ^ 16).
  { split; [ apply Z.div_pos; nia | apply Z.div_lt_upper_bound; lia ]. }
  split; [ apply to_uint16_small; exact Hc | exact Hc ].
Qed.

(** Converting the codepoint of [v] back loses less than one codepoint
    and one unit of the last place. *)
Lemma of_codepoint_roundtrip (gain v : Z) :
  0 < gain -> 0 <= v < 2 ^ 31 -> gain * v < 2 ^ 32 ->
  let g := of_codepoint gain (Z.shiftr (gain * v) 16) in
  g <= v /\ 0 <= g /\ gain * (v - g) < 0x10000 + gain.
Proof.
  intros Hg Hv Hprod. cbv zeta. unfold of_codepoint.
  rewrite shiftr16_div, shiftl16_mul.
  set (c := gain * v / 2 ^ 16).
  assert (Hc : 0 <= c) by (apply Z.div_pos; nia).
  assert (Hlow : c * 2 ^ 16 <= gain * v).
  { unfold c. rewrite Z.mul_comm. apply Z.mul_div_le; lia. }
  assert (Hhigh : gain * v < c * 2 ^ 16 + 2 ^ 16).
  { unfold c. pose proof (Z.mod_pos_bound (gain * v) (2 ^ 16) ltac:(lia)).
    pose proof (Z.div_mod (gain * v) (2 ^ 16) ltac:(lia)). lia. }
  assert (Hq : 0 <= c * 2 ^ 16 / gain <= v).
  { split; [ apply Z.div_pos; nia | ].
    apply Z.div_le_upper_bound; [ lia | nia ]. }
  rewrite (to_uint32_small (c * 2 ^ 16)) by lia.
  rewrite (to_int32_small (c * 2 ^ 16 / gain)) by lia.
  pose proof (Z.mod_pos_bound (c * 2 ^ 16) gain Hg).
  pose proof (Z.div_mod (c * 2 ^ 16) gain ltac:(lia)).
  repeat split; try lia.
Qed.

(** C7 (as amended).  [regulator_set_vsetpoint] converts [v] to the
    codepoint [to_codepoint vsense_gain v], the low 32 bits of
    [vsense_gain * v] shifted right by 16.  It returns 1 and leaves the
    state as it was when that codepoint exceeds [vlimit], and otherwise
    stores it and returns 0.  When [0 <= v] and [vsense_gain * v] fits 32
    bits, the codepoint is [(vsense_gain * v) >> 16] and
    [regulator_get_vsetpoint] then returns a [g] with [g <= v] and
    [vsense_gain * (v - g) < 0x10000 + vsense_gain]: within one codepoint
    and one unit of the last place below [v]. *)
Theorem set_vsetpoint_roundtrip (s : system) (r : chan_id) (v : fixed32_t) :
  let reg := chan r s in
  let gain := vsense_gain reg in
  let stored := with_chan r (with_vsetpoint reg (to_codepoint gain v)) s in
  (to_codepoint gain v > vlimit reg ->
   regulator_set_vsetpoint r v s = Ret 1 s) /\
  (to_codepoint gain v <= vlimit reg ->
   regulator_set_vsetpoint r v s = Ret 0 stored) /\
  (0 < gain -> 0 <= v < 2 ^ 31 -> gain * v < 2 ^ 32 ->
   to_codepoint gain v = Z.shiftr (gain * v) 16 /\
   exists g,
     regulator_get_vsetpoint r stored = Ret g stored /\
     g <= v /\ gain * (v - g) < 0x10000 + gain).
Proof.
  intros reg gain stored.
  split; [ | split ].
  - intro H. unfold regulator_set_vsetpoint.
    unfold bind at 1; unfold read. fold reg gain.
    destruct (Z.gtb_spec (to_codepoint gain v) (vlimit reg));
      [ reflexivity | lia ].
  - intro H. unfold regulator_set_vsetpoint.
    unfold bind at 1; unfold read. fold reg gain.
    destruct (Z.gtb_spec (to_codepoint gain v) (vlimit reg));
      [ lia | reflexivity ].
  - intros Hg Hv Hprod.
    destruct (to_codepoint_exact gain v Hg ltac:(lia) Hprod) as [Hc _].
    split; [ exact Hc | ].
    destruct (of_codepoint_roundtrip gain v Hg Hv Hprod) as (H1 & _ & H2).
    exists (of_codepoint gain (Z.shiftr (gain * v) 16)).
    split; [ | split; assumption ].
    unfold regulator_get_vsetpoint, read, stored.
    rewrite chan_with_chan, Hc. reflexivity.
Qed.

Lemma set_vsetpoint_roundtrip_witness :
  let v := 5 * 0x10000 in
  let stored := with_chan Chan1 (with_vsetpoint chan1_init 2025) power_on in
  regulator_set_vsetpoint Chan1 v power_on = Ret 0 stored /\
  exists g, regulator_get_vsetpoint Chan1 stored = Ret g stored /\
            g <= v /\ 405 * (v - g) < 0x10000 + 405.
Proof.
  intros v stored.
  destruct (set_vsetpoint_roundtrip power_on Chan1 v) as (_ & Hok & Hround).
  split.
  - apply Hok. vm_compute. discriminate.
  - apply Hround; vm_compute; try reflexivity. split; [ discriminate | reflexivity ].
Defined.

(** C7 as stated fails.  On channel 1 as initialised (405 codepoints
    per volt, limit 0xffff), a setpoint of 200.0 has the codepoint
    [(405 * v) >> 16 = 81000], above the limit; the call nevertheless
    returns 0 and stores 15464, which reads back as 38.18, not within
    [0x10000 / 405] of 200.0. *)
Lemma set_vsetpoint_wraps :
  let v := 200 * 0x10000 in
  let reg := chan Chan1 power_on in
  is_int32 v /\
  Z.shiftr (vsense_gain reg * v) 16 > vlimit reg /\
  exists s' g,
    regulator_set_vsetpoint Chan1 v power_on = Ret 0 s' /\
    vsetpoint (chan Chan1 s') = 15464 /\
    regulator_get_vsetpoint Chan1 s' = Ret g s' /\
    g = 2502342 /\
    Z.abs (v - g) > 0x10000 / vsense_gain reg.
Proof.
  split; [ unfold is_int32; lia | ].
  split; [ vm_compute; reflexivity | ].
  eexists; eexists.
  split; [ vm_compute; reflexivity | ].
  split; [ reflexivity | ].
  split; [ vm_compute; reflexivity | ].
  split; vm_compute; reflexivity.
Qed.

(** Without any wrap the loss can still exceed [0x10000 / vsense_gain]:
    48707 is stored as 300 codepoints and reads back 162 lower, where
    [0x10000 / 405 = 161]. *)
Lemma set_vsetpoint_loses_162 :
  let stored := with_chan Chan1 (with_vsetpoint chan1_init 300) power_on in
  regulator_set_vsetpoint Chan1 48707 power_on = Ret 0 stored /\
  regulator_get_vsetpoint Chan1 stored = Ret (48707 - 162) stored /\
  0x10000 / 405 = 161.
Proof. vm_compute. repeat split; reflexivity. Qed.

(** Beyond the duty range the 32-bit tick count of [set_pwm_duty] can
    hide an overflow: a duty of 0x20000 with a period of 0x80000000
    writes 0.  No caller passes such a duty: [regulator_feedback] clamps
    to 0xffff before the capability runs. *)
Lemma set_pwm_duty_wraps_beyond_range :
  Z.shiftr (0x20000 * 0x80000000) 16 > 0xffff /\
  set_pwm_duty TIM3 TIM_OC3 0x80000000 0x20000 power_on
  = Ret tt (with_call (timer_set_oc_value TIM3 TIM_OC3 0) power_on).
Proof. split; vm_compute; reflexivity. Qed.

(** * What each entry point leaves alone

    [f] is an observation of the state that does not look at the record
    of driver calls.  The lemmas say which further blindness of [f] each
    function needs to keep it. *)

Section Blind.
Context {X : Type} (f : system -> X).
Hypothesis Hcall : forall c s, f (with_call c s) = f s.

Lemma blind_emit (c : hw_call) : keeps f (emit c).
Proof. intro s; apply Hcall. Qed.

#[local] Hint Resolve blind_emit : regulator.

Lemma blind_set_pwm_duty timer oc p d : keeps f (set_pwm_duty timer oc p d).
Proof. unfold set_pwm_duty. step_through. Qed.

Lemma blind_configure_pwm timer oc p pol t :
  keeps f (configure_pwm timer oc p pol t).
Proof. unfold configure_pwm. step_through. Qed.

#[local] Hint Resolve blind_set_pwm_duty blind_configure_pwm : regulator.

Lemma blind_configure_dual_pwm ta oa tb ob src p a b dt :
  keeps f (configure_dual_pwm ta oa tb ob src p a b dt).
Proof. unfold configure_dual_pwm. step_through. Qed.

#[local] Hint Resolve blind_configure_dual_pwm : regulator.

Lemma blind_configure_func (r : chan_id) : keeps f (configure_func r).
Proof.
  destruct r; unfold configure_func, configure_ch1, configure_ch2; step_through.
Qed.

Lemma blind_update_duty_func (r : chan_id) : keeps f (update_duty_func r).
Proof.
  destruct r; unfold update_duty_func, update_duty_ch1, update_duty_ch2;
    step_through.
Qed.

#[local] Hint Resolve blind_configure_func blind_update_duty_func : regulator.

Lemma blind_update_chan (r : chan_id) (h : regulator_t -> regulator_t) :
  (forall s, f (with_chan r (h (chan r s)) s) = f s) ->
  keeps f (update_chan r h).
Proof. intros H s. apply H. Qed.

Lemma blind_set_duty_cycle r d1 d2 :
  (forall x s, f (with_chan r (with_duty1 (chan r s) x) s) = f s) ->
  (forall x s, f (with_chan r (with_duty2 (chan r s) x) s) = f s) ->
  keeps f (regulator_set_duty_cycle r d1 d2).
Proof.
  intros H1 H2. unfold regulator_set_duty_cycle.
  pose proof (blind_update_chan r (fun reg => with_duty1 reg d1) (H1 d1)).
  pose proof (blind_update_chan r (fun reg => with_duty2 reg d2) (H2 d2)).
  step_through.
Qed.

Lemma blind_set_vsetpoint r v :
  (forall x s, f (with_chan r (with_vsetpoint (chan r s) x) s) = f s) ->
  keeps f (regulator_set_vsetpoint r v).
Proof.
  intros H. unfold regulator_set_vsetpoint.
  apply keeps_bind; [ auto with regulator | intro reg ].
  pose proof (blind_update_chan r
                (fun reg0 => with_vsetpoint reg0 (to_codepoint (vsense_gain reg) v))
                (H _)).
  step_through.
Qed.

Lemma blind_set_isetpoint r i :
  (forall x s, f (with_chan r (with_isetpoint (chan r s) x) s) = f s) ->
  keeps f (regulator_set_isetpoint r i).
Proof.
  intros H. unfold regulator_set_isetpoint.
  apply keeps_bind; [ auto with regulator | intro reg ].
  pose proof (blind_update_chan r
                (fun reg0 => with_isetpoint reg0 (to_codepoint (isense_gain reg) i))
                (H _)).
  step_through.
Qed.

Lemma blind_set_period r p :
  (forall x s, f (with_chan r (with_period (chan r s) x) s) = f s) ->
  keeps f (regulator_set_period r p).
Proof.
  intros H. unfold regulator_set_period.
  pose proof (blind_update_chan r (fun reg => with_period reg p) (H p)).
  step_through.
Qed.

Lemma blind_set_ch2_source src :
  (forall oc s, f (with_ch2_oc oc s) = f s) ->
  keeps f (regulator_set_ch2_source src).
Proof.
  intros H. unfold regulator_set_ch2_source.
  pose proof (blind_configure_func Chan2) as Hc; simpl in Hc.
  assert (Hm : forall oc, keeps f (modify (with_ch2_oc oc)))
    by (intros oc s; apply H).
  step_through.
Qed.

Lemma blind_regulator_feedback (r : chan_id) :
  duty_blind f -> keeps f (regulator_feedback r).
Proof.
  intros Hd. unfold regulator_feedback.
  assert (H1 : keeps f (update_chan r feedback_regulate)).
  { apply blind_update_chan. intro s.
    apply Hd, feedback_regulate_only_duties. }
  assert (H2 : keeps f (update_chan r clamp_duties)).
  { apply blind_update_chan. intro s.
    apply Hd, clamp_duties_only_duties. }
  apply keeps_bind; [ auto with regulator | intro reg ].
  destruct (mode reg); step_through.
Qed.

Lemma blind_adc1_isr a1 a2 a3 a4 :
  duty_blind f ->
  (forall r x s, f (with_chan r (with_vsense (chan r s) x) s) = f s) ->
  (forall r x s, f (with_chan r (with_isense (chan r s) x) s) = f s) ->
  keeps f (adc1_isr a1 a2 a3 a4).
Proof.
  intros Hd Hv Hi. unfold adc1_isr.
  do 1 (apply keeps_bind; [ auto with regulator | intro ]).
  do 4 (apply keeps_bind;
        [ apply blind_update_chan; intro; first [ apply Hv | apply Hi ]
        | intro ]).
  apply keeps_bind; [ | intro ]; apply blind_regulator_feedback, Hd.
Qed.

Hypothesis Hadc : forall b s, f (with_adc1en b s) = f s.

Lemma blind_adc1en (b : bool) : keeps f (modify (with_adc1en b)).
Proof. intro s; apply Hadc. Qed.

#[local] Hint Resolve blind_adc1en : regulator.

Lemma blind_clock_enable (g : clock_gate) : keeps f (clock_enable g).
Proof. unfold clock_enable. step_through. Qed.

Lemma blind_clock_disable (g : clock_gate) : keeps f (clock_disable g).
Proof. unfold clock_disable. step_through. Qed.

#[local] Hint Resolve blind_clock_enable blind_clock_disable : regulator.

Lemma blind_setup_common_peripherals env :
  keeps f (setup_common_peripherals env).
Proof. unfold setup_common_peripherals. step_through. Qed.

#[local] Hint Resolve blind_setup_common_peripherals : regulator.

Lemma blind_enable_func env r : keeps f (enable_func env r).
Proof.
  destruct r; unfold enable_func, enable_ch1, enable_ch2, set_vsense1_en;
    step_through.
Qed.

Lemma blind_disable_func env r : keeps f (disable_func env r).
Proof.
  destruct r; unfold disable_func, disable_ch1, disable_ch2, set_vsense1_en;
    step_through.
Qed.

#[local] Hint Resolve blind_enable_func blind_disable_func : regulator.

Lemma blind_set_mode env r m :
  (forall x s, f (with_chan r (with_mode (chan r s) x) s) = f s) ->
  keeps f (regulator_set_mode env r m).
Proof.
  intros H. unfold regulator_set_mode.
  assert (Hm : forall x, keeps f (update_chan r (fun reg => with_mode reg x))).
  { intro x. apply blind_update_chan. apply H. }
  step_through.
Qed.

Lemma blind_init env :
  (forall r x s, f (with_chan r (with_mode (chan r s) x) s) = f s) ->
  keeps f (regulator_init env).
Proof.
  intros H. unfold regulator_init.
  repeat (apply keeps_bind; [ apply blind_set_mode, H | intro ]).
  apply keeps_ret.
Qed.

End Blind.

(** * Observations made on both channel records *)

Lemma both_with_call {X} (g : regulator_t -> X) c s :
  both g (with_call c s) = both g s.
Proof. reflexivity. Qed.

Lemma both_with_adc1en {X} (g : regulator_t -> X) b s :
  both g (with_adc1en b s) = both g s.
Proof. reflexivity. Qed.

Lemma both_with_ch2_oc {X} (g : regulator_t -> X) oc s :
  both g (with_ch2_oc oc s) = both g s.
Proof. reflexivity. Qed.

Lemma both_with_chan {X} (g : regulator_t -> X) r x s :
  g x = g (chan r s) -> both g (with_chan r x s) = both g s.
Proof. unfold both. destruct r; simpl; intros ->; reflexivity. Qed.

Lemma both_chan {X} (g : regulator_t -> X) (r : chan_id) (s s' : system) :
  both g s' = both g s -> g (chan r s') = g (chan r s).
Proof. unfold both. intro H; inversion H. destruct r; simpl; congruence. Qed.

Lemma both_duty_blind {X} (g : regulator_t -> X) :
  (forall reg x, g (with_duty1 reg x) = g reg) ->
  (forall reg x, g (with_duty2 reg x) = g reg) ->
  duty_blind (both g).
Proof.
  intros H1 H2 r reg' s Hd. apply both_with_chan.
  rewrite Hd, H2, H1. reflexivity.
Qed.

(** Gains and limits are the same after any entry point. *)
Lemma run_keeps_config env c : keeps (both config) (run env c).
Proof.
  destruct c; simpl.
  - apply keeps_bind; [ | intro; apply keeps_ret ].
    apply blind_init; try reflexivity.
    intros; apply both_with_chan; reflexivity.
  - apply blind_set_mode; try reflexivity.
    intros; apply both_with_chan; reflexivity.
  - apply blind_set_duty_cycle; try reflexivity;
      intros; apply both_with_chan; reflexivity.
  - apply blind_set_vsetpoint; try reflexivity.
    intros; apply both_with_chan; reflexivity.
  - apply blind_set_isetpoint; try reflexivity.
    intros; apply both_with_chan; reflexivity.
  - apply blind_set_ch2_source; reflexivity.
  - apply blind_set_period; try reflexivity.
    intros; apply both_with_chan; reflexivity.
  - apply keeps_bind; [ | intro; apply keeps_ret ].
    apply blind_adc1_isr; try reflexivity.
    + apply both_duty_blind; reflexivity.
    + intros; apply both_with_chan; reflexivity.
    + intros; apply both_with_chan; reflexivity.
Qed.

Lemma reachable_config (s : system) :
  reachable s -> both config s = both config power_on.
Proof.
  induction 1 as [ | env c s s' rc Hreach IH Hty Hrun ]; [ reflexivity | ].
  pose proof (run_keeps_config env c s) as H.
  rewrite Hrun in H. simpl in H. congruence.
Qed.

(** The samples a feedback step sees in the interrupt. *)
Lemma sampled_samples a1 a2 a3 a4 s :
  both (fun reg => (vsense reg, isense reg)) (sampled a1 a2 a3 a4 s)
  = ((to_uint16 a1, to_uint16 a2), (to_uint16 a3, to_uint16 a4)).
Proof. reflexivity. Qed.

Lemma feedback_pair_keeps {X} (g : regulator_t -> X) :
  (forall reg x, g (with_duty1 reg x) = g reg) ->
  (forall reg x, g (with_duty2 reg x) = g reg) ->
  keeps (both g) (regulator_feedback Chan1 ;; regulator_feedback Chan2).
Proof.
  intros H1 H2.
  apply keeps_bind; [ | intro ];
    apply blind_regulator_feedback; try reflexivity;
    apply both_duty_blind; assumption.
Qed.

Lemma adc1_isr_samples a1 a2 a3 a4 s :
  both (fun reg => (vsense reg, isense reg))
       (state_of (adc1_isr a1 a2 a3 a4 s))
  = ((to_uint16 a1, to_uint16 a2), (to_uint16 a3, to_uint16 a4)).
Proof.
  rewrite adc1_isr_sampled.
  rewrite (feedback_pair_keeps (fun reg => (vsense reg, isense reg)))
    by reflexivity.
  apply sampled_samples.
Qed.

Lemma to_uint16_range (x : Z) : is_uint16 (to_uint16 x).
Proof. unfold is_uint16, to_uint16. apply Z.mod_pos_bound. lia. Qed.

Lemma reachable_samples_16bit (s : system) :
  reachable s -> samples_16bit (chan1 s) /\ samples_16bit (chan2 s).
Proof.
  induction 1 as [ | env c s s' rc Hreach IH Hty Hrun ].
  - unfold samples_16bit, is_uint16; simpl; lia.
  - assert (Hs' : s' = state_of (run env c s)) by (rewrite Hrun; reflexivity).
    assert (Hkept :
      both (fun reg => (vsense reg, isense reg)) s'
      = both (fun reg => (vsense reg, isense reg)) s ->
      samples_16bit (chan1 s') /\ samples_16bit (chan2 s')).
    { unfold both, samples_16bit in *. intro H.
      injection H as H1 H2 H3 H4.
      rewrite H1, H2, H3, H4. exact IH. }
    destruct c; cbn [run] in Hs'; rewrite ?state_of_then_ret in Hs';
      [ apply Hkept; rewrite Hs' .. | ].
    + apply blind_init; try reflexivity.
      intros; apply both_with_chan; reflexivity.
    + apply blind_set_mode; try reflexivity.
      intros; apply both_with_chan; reflexivity.
    + apply blind_set_duty_cycle; try reflexivity;
        intros; apply both_with_chan; reflexivity.
    + apply blind_set_vsetpoint; try reflexivity.
      intros; apply both_with_chan; reflexivity.
    + apply blind_set_isetpoint; try reflexivity.
      intros; apply both_with_chan; reflexivity.
    + apply blind_set_ch2_source; reflexivity.
    + apply blind_set_period; try reflexivity.
      intros; apply both_with_chan; reflexivity.
    + pose proof (adc1_isr_samples a1 a2 a3 a4 s) as H.
      rewrite <- Hs' in H. unfold both in H.
      injection H as H1 H2 H3 H4.
      unfold samples_16bit. rewrite H1, H2, H3, H4.
      repeat split; apply to_uint16_range.
Qed.

(** * Further properties of the regulator *)

(** X1.  No entry point assigns a gain or a limit: in every reachable
    state both channels have the sense gains, the unit feedback gains
    and the limits of 0xffff they were initialised with. *)
Theorem gains_and_limits_never_change (s : system) (r : chan_id) :
  reachable s ->
  vsense_gain (chan r s) = 405 /\
  isense_gain (chan r s) = match r with Chan1 => 620 | Chan2 => 2916 end /\
  vlimit (chan r s) = 0xffff /\ ilimit (chan r s) = 0xffff /\
  v_gains (chan r s) = mk_gains 0x10000 0x10000 /\
  i_gains (chan r s) = mk_gains 0x10000 0x10000.
Proof.
  intro Hreach.
  pose proof (both_chan config r _ _ (reachable_config s Hreach)) as H.
  unfold config in H. injection H as H1 H2 H3 H4 H5 H6 _ _.
  rewrite H1, H2, H3, H4, H5, H6. destruct r; repeat split; reflexivity.
Qed.

Lemma gains_and_limits_never_change_witness :
  reachable regulating /\
  vlimit (chan Chan1 regulating) = 0xffff /\
  v_gains (chan Chan2 regulating) = mk_gains 0x10000 0x10000.
Proof.
  split; [ exact regulating_reachable | ].
  split.
  - exact (proj1 (proj2 (proj2
             (gains_and_limits_never_change regulating Chan1
                regulating_reachable)))).
  - exact (proj1 (proj2 (proj2 (proj2 (proj2
             (gains_and_limits_never_change regulating Chan2
                regulating_reachable)))))).
Defined.

Lemma samples_of_both (s : system) (v1 i1 v2 i2 : Z) :
  both (fun reg => (vsense reg, isense reg)) s = ((v1, i1), (v2, i2)) ->
  vsense (chan1 s) = v1 /\ isense (chan1 s) = i1 /\
  vsense (chan2 s) = v2 /\ isense (chan2 s) = i2.
Proof. unfold both. intro H. injection H as H1 H2 H3 H4. auto. Qed.

Lemma uint16_le_limit (x limit : Z) :
  is_uint16 x -> limit = 0xffff -> x <= limit.
Proof. unfold is_uint16. intros H ->. lia. Qed.

Lemma limits_of_config (reg reg0 : regulator_t) :
  config reg = config reg0 ->
  vlimit reg = vlimit reg0 /\ ilimit reg = ilimit reg0.
Proof. unfold config. intro H; injection H; intros; split; congruence. Qed.

(** X2.  The samples are 16-bit and the limits stay 0xffff, so the guard
    of the halving branch is false whenever the feedback runs: in every
    reachable state, and in the interrupt both on the latched samples
    (channel 1) and on the state channel 1 left (channel 2). *)
Theorem limits_are_never_exceeded (s : system) :
  reachable s ->
  (forall r, isense (chan r s) <= ilimit (chan r s) /\
             vsense (chan r s) <= vlimit (chan r s)) /\
  (forall a1 a2 a3 a4 r,
     let s1 := sampled a1 a2 a3 a4 s in
     let s2 := state_of (regulator_feedback Chan1 s1) in
     (isense (chan r s1) <= ilimit (chan r s1) /\
      vsense (chan r s1) <= vlimit (chan r s1)) /\
     (isense (chan r s2) <= ilimit (chan r s2) /\
      vsense (chan r s2) <= vlimit (chan r s2))).
Proof.
  intro Hreach.
  pose proof (reachable_config s Hreach) as Hcfg.
  assert (Hlim : forall s', both config s' = both config s ->
            forall r, vlimit (chan r s') = 0xffff /\ ilimit (chan r s') = 0xffff).
  { intros s' Hs' r.
    destruct (limits_of_config _ _ (both_chan config r _ _
                (eq_trans Hs' Hcfg))) as [Hv Hi].
    rewrite Hv, Hi. destruct r; split; reflexivity. }
  split.
  - intro r. destruct (Hlim s eq_refl r) as [Hv Hi].
    destruct (reachable_samples_16bit s Hreach) as [[H1v H1i] [H2v H2i]].
    destruct r; simpl in *; split; apply uint16_le_limit; assumption.
  - intros a1 a2 a3 a4 r s1 s2.
    assert (Hs1 : both config s1 = both config s) by reflexivity.
    assert (Hs2 : both config s2 = both config s).
    { unfold s2. rewrite <- Hs1. apply blind_regulator_feedback;
        [ reflexivity | apply both_duty_blind; reflexivity ]. }
    pose proof (sampled_samples a1 a2 a3 a4 s) as Hsam1. fold s1 in Hsam1.
    assert (Hsam2 : both (fun reg => (vsense reg, isense reg)) s2
                    = ((to_uint16 a1, to_uint16 a2), (to_uint16 a3, to_uint16 a4))).
    { rewrite <- Hsam1. unfold s2. apply blind_regulator_feedback;
        [ reflexivity | apply both_duty_blind; reflexivity ]. }
    destruct (samples_of_both _ _ _ _ _ Hsam1) as (A1 & A2 & A3 & A4).
    destruct (samples_of_both _ _ _ _ _ Hsam2) as (B1 & B2 & B3 & B4).
    destruct (Hlim s1 Hs1 r) as [Hv1 Hi1].
    destruct (Hlim s2 Hs2 r) as [Hv2 Hi2].
    destruct r; simpl in Hv1, Hi1, Hv2, Hi2 |- *;
      rewrite ?A1, ?A2, ?A3, ?A4, ?B1, ?B2, ?B3, ?B4;
      repeat split; apply uint16_le_limit;
        solve [ apply to_uint16_range | assumption ].
Qed.

Lemma limits_are_never_exceeded_witness :
  reachable regulating /\
  isense (chan Chan1 (sampled 1800 0xffffffff 0 0 regulating))
  <= ilimit (chan Chan1 (sampled 1800 0xffffffff 0 0 regulating)).
Proof.
  split; [ exact regulating_reachable | ].
  exact (proj1 (proj1 (proj2 (limits_are_never_exceeded regulating
                                regulating_reachable)
                         1800 0xffffffff 0 0 Chan1))).
Defined.

Lemma to_codepoint_range (gain v : Z) : is_uint16 (to_codepoint gain v).
Proof. unfold to_codepoint. apply to_uint16_range. Qed.

(** X3.  With the limits at 0xffff a setpoint is never refused: in every
    reachable state [regulator_set_vsetpoint] and
    [regulator_set_isetpoint] return 0 for every argument and store the
    16-bit codepoint, whatever it is. *)
Theorem setpoints_are_never_refused (s : system) (r : chan_id) (x : fixed32_t) :
  reachable s ->
  regulator_set_vsetpoint r x s
  = Ret 0 (with_chan r (with_vsetpoint (chan r s)
                          (to_codepoint (vsense_gain (chan r s)) x)) s) /\
  regulator_set_isetpoint r x s
  = Ret 0 (with_chan r (with_isetpoint (chan r s)
                          (to_codepoint (isense_gain (chan r s)) x)) s).
Proof.
  intro Hreach.
  destruct (limits_of_config _ _ (both_chan config r _ _
              (reachable_config s Hreach))) as [Hv Hi].
  assert (Hv' : vlimit (chan r s) = 0xffff) by (rewrite Hv; destruct r; reflexivity).
  assert (Hi' : ilimit (chan r s) = 0xffff) by (rewrite Hi; destruct r; reflexivity).
  split.
  - unfold regulator_set_vsetpoint. unfold bind at 1; unfold read.
    pose proof (to_codepoint_range (vsense_gain (chan r s)) x) as Hc.
    unfold is_uint16 in Hc.
    destruct (Z.gtb_spec (to_codepoint (vsense_gain (chan r s)) x)
                (vlimit (chan r s))); [ lia | reflexivity ].
  - unfold regulator_set_isetpoint. unfold bind at 1; unfold read.
    pose proof (to_codepoint_range (isense_gain (chan r s)) x) as Hc.
    unfold is_uint16 in Hc.
    destruct (Z.gtb_spec (to_codepoint (isense_gain (chan r s)) x)
                (ilimit (chan r s))); [ lia | reflexivity ].
Qed.

Lemma setpoints_are_never_refused_witness :
  reachable regulating /\
  regulator_set_vsetpoint Chan1 (-1) regulating
  = Ret 0 (with_chan Chan1 (with_vsetpoint (chan Chan1 regulating)
            (to_codepoint (vsense_gain (chan Chan1 regulating)) (-1)))
            regulating).
Proof.
  split; [ exact regulating_reachable | ].
  exact (proj1 (setpoints_are_never_refused regulating Chan1 (-1)
                  regulating_reachable)).
Defined.

Lemma chan_field_with_chan {X} (g : regulator_t -> X) (r r0 : chan_id)
    (x : regulator_t) (s : system) :
  g x = g (chan r0 s) -> g (chan r (with_chan r0 x s)) = g (chan r s).
Proof. destruct r, r0; simpl; congruence. Qed.

(** X4.  The sample interrupt, however it ends, stores the low 16 bits
    of the four readings as the samples of the two channels and changes
    nothing else but duty cycles: mode, period, setpoints, limits and
    gains of both channels, the selected output of channel 2 and the
    ADC clock gate are as before. *)
Theorem adc1_isr_changes_samples_and_duties_only (a1 a2 a3 a4 : Z) (s : system) :
  let s' := state_of (adc1_isr a1 a2 a3 a4 s) in
  vsense (chan1 s') = to_uint16 a1 /\ isense (chan1 s') = to_uint16 a2 /\
  vsense (chan2 s') = to_uint16 a3 /\ isense (chan2 s') = to_uint16 a4 /\
  settings (chan1 s') = settings (chan1 s) /\
  settings (chan2 s') = settings (chan2 s) /\
  ch2_oc s' = ch2_oc s /\ adc1en s' = adc1en s.
Proof.
  intro s'.
  destruct (samples_of_both _ _ _ _ _ (adc1_isr_samples a1 a2 a3 a4 s))
    as (H1 & H2 & H3 & H4).
  assert (Hset : both settings s' = both settings s).
  { apply blind_adc1_isr; try reflexivity.
    - apply both_duty_blind; reflexivity.
    - intros; apply both_with_chan; reflexivity.
    - intros; apply both_with_chan; reflexivity. }
  assert (Hoc : ch2_oc s' = ch2_oc s).
  { apply (blind_adc1_isr ch2_oc); try reflexivity.
    - intros r reg' s0 _. destruct r; reflexivity.
    - intros r x s0. destruct r; reflexivity.
    - intros r x s0. destruct r; reflexivity. }
  assert (Hadc : adc1en s' = adc1en s).
  { apply (blind_adc1_isr adc1en); try reflexivity.
    - intros r reg' s0 _. destruct r; reflexivity.
    - intros r x s0. destruct r; reflexivity.
    - intros r x s0. destruct r; reflexivity. }
  pose proof (both_chan settings Chan1 _ _ Hset) as Hs1.
  pose proof (both_chan settings Chan2 _ _ Hset) as Hs2.
  split; [ exact H1 | ]. split; [ exact H2 | ].
  split; [ exact H3 | ]. split; [ exact H4 | ].
  split; [ exact Hs1 | ]. split; [ exact Hs2 | ].
  split; [ exact Hoc | exact Hadc ].
Qed.

(** X5.  The period of a channel that is not Disabled survives every
    entry point, [regulator_set_period] included, which then returns -1
    and changes nothing.  On a Disabled channel [regulator_set_period]
    stores any value and [regulator_get_period] returns it. *)
Theorem period_changes_only_while_disabled (env : hw_env) (c : api_call)
    (s : system) (r : chan_id) (p : Z) :
  (mode (chan r s) <> DISABLED ->
   period (chan r (state_of (run env c s))) = period (chan r s) /\
   regulator_set_period r p s = Ret (-1) s) /\
  (mode (chan r s) = DISABLED ->
   let s' := with_chan r (with_period (chan r s) p) s in
   regulator_set_period r p s = Ret 0 s' /\
   regulator_get_period r s' = Ret p s').
Proof.
  split.
  - intro Hm.
    assert (Hrej : forall q, regulator_set_period r q s = Ret (-1) s).
    { intro q. unfold regulator_set_period, mode_is.
      unfold bind at 1; unfold read.
      destruct (feedback_mode_eqb_spec (mode (chan r s)) DISABLED);
        [ contradiction | reflexivity ]. }
    split; [ | apply Hrej ].
    pose (f := fun s0 : system => period (chan r s0)).
    change (f (state_of (run env c s)) = f s).
    assert (Hupd : forall r0 (h : regulator_t -> regulator_t),
              (forall reg, period (h reg) = period reg) ->
              forall s0, f (with_chan r0 (h (chan r0 s0)) s0) = f s0).
    { intros r0 h Hh s0. unfold f.
      apply (chan_field_with_chan period), Hh. }
    destruct c as [ | r0 m | r0 d1 d2 | r0 v | r0 i | src | r0 q
                    | b1 b2 b3 b4 ]; cbn [run].
    + rewrite state_of_then_ret. apply blind_init; try reflexivity.
      intros r0 x. apply (Hupd r0 (fun reg => with_mode reg x)). reflexivity.
    + apply blind_set_mode; try reflexivity.
      intros x. apply (Hupd r0 (fun reg => with_mode reg x)). reflexivity.
    + apply blind_set_duty_cycle; try reflexivity; intros x.
      * apply (Hupd r0 (fun reg => with_duty1 reg x)). reflexivity.
      * apply (Hupd r0 (fun reg => with_duty2 reg x)). reflexivity.
    + apply blind_set_vsetpoint; try reflexivity. intros x.
      apply (Hupd r0 (fun reg => with_vsetpoint reg x)). reflexivity.
    + apply blind_set_isetpoint; try reflexivity. intros x.
      apply (Hupd r0 (fun reg => with_isetpoint reg x)). reflexivity.
    + apply blind_set_ch2_source; reflexivity.
    + destruct r, r0; try (rewrite Hrej; reflexivity);
        (apply blind_set_period; reflexivity).
    + rewrite state_of_then_ret. apply blind_adc1_isr; try reflexivity.
      * intros r0 reg' s0 Hd. unfold f.
        apply (chan_field_with_chan period). exact (only_duties_period _ _ Hd).
      * intros r0 x. apply (Hupd r0 (fun reg => with_vsense reg x)). reflexivity.
      * intros r0 x. apply (Hupd r0 (fun reg => with_isense reg x)). reflexivity.
  - intros Hm s'. split.
    + unfold regulator_set_period, mode_is.
      unfold bind at 1; unfold read. rewrite Hm. reflexivity.
    + unfold regulator_get_period, read, s'. rewrite chan_with_chan.
      reflexivity.
Qed.

Lemma period_changes_only_while_disabled_witness :
  period (chan Chan1 (state_of (run responsive (SetPeriod Chan1 7) regulating)))
  = period (chan Chan1 regulating) /\
  regulator_set_period Chan2 7 regulating
  = Ret 0 (with_chan Chan2 (with_period (chan Chan2 regulating) 7) regulating).
Proof.
  split.
  - apply (period_changes_only_while_disabled responsive (SetPeriod Chan1 7)
             regulating Chan1 7).
    vm_compute; discriminate.
  - apply (period_changes_only_while_disabled responsive Init
             regulating Chan2 7).
    vm_compute; reflexivity.
Defined.

Lemma set_ch2_source_refused (src : ch2_source_t) (s : system) :
  mode (chan2 s) <> DISABLED -> regulator_set_ch2_source src s = Ret (-1) s.
Proof.
  intro Hm. unfold regulator_set_ch2_source, mode_is.
  unfold bind at 1; unfold read.
  destruct (feedback_mode_eqb_spec (mode (chan2 s)) DISABLED);
    [ contradiction | reflexivity ].
Qed.

(** X6.  The output compare unit that drives channel 2 changes only in
    [regulator_set_ch2_source], and only while channel 2 is Disabled:
    otherwise the call returns -1 and changes nothing.  When accepted it
    selects TIM_OC1 for BATTERY and TIM_OC3 for INPUT, writes the
    compare value of the current [duty1] to the selected unit, and
    leaves both channel records and the ADC clock gate as they were. *)
Theorem ch2_source_changes_only_while_disabled (env : hw_env) (c : api_call)
    (s : system) (src : ch2_source_t) :
  (mode (chan2 s) <> DISABLED ->
   ch2_oc (state_of (run env c s)) = ch2_oc s /\
   regulator_set_ch2_source src s = Ret (-1) s) /\
  ((forall src', c <> SetCh2Source src') ->
   ch2_oc (state_of (run env c s)) = ch2_oc s) /\
  (mode (chan2 s) = DISABLED ->
   exists s',
     regulator_set_ch2_source src s = Ret 0 s' /\
     ch2_oc s' = match src with BATTERY => TIM_OC1 | INPUT => TIM_OC3 end /\
     last_oc_value TIM3 (ch2_oc s') (calls s')
     = Some (to_uint16 (to_uint32 (period (chan2 s) * to_uint32 (duty1 (chan2 s)))
                        / 0xffff)) /\
     chans s' = chans s /\ adc1en s' = adc1en s).
Proof.
  assert (Hother : (forall src', c <> SetCh2Source src') ->
                   ch2_oc (state_of (run env c s)) = ch2_oc s).
  { intro Hc.
    assert (Hupd : forall r0 (x : regulator_t) s0,
              ch2_oc (with_chan r0 x s0) = ch2_oc s0)
      by (intros r0 x s0; destruct r0; reflexivity).
    destruct c as [ | r0 m | r0 d1 d2 | r0 v | r0 i | src' | r0 q
                    | b1 b2 b3 b4 ]; cbn [run].
    - rewrite state_of_then_ret. apply (blind_init ch2_oc); try reflexivity.
      intros; apply Hupd.
    - apply (blind_set_mode ch2_oc); try reflexivity. intros; apply Hupd.
    - apply (blind_set_duty_cycle ch2_oc); try reflexivity; intros; apply Hupd.
    - apply (blind_set_vsetpoint ch2_oc); try reflexivity. intros; apply Hupd.
    - apply (blind_set_isetpoint ch2_oc); try reflexivity. intros; apply Hupd.
    - exfalso. apply (Hc src'). reflexivity.
    - apply (blind_set_period ch2_oc); try reflexivity. intros; apply Hupd.
    - rewrite state_of_then_ret. apply (blind_adc1_isr ch2_oc); try reflexivity.
      + intros r0 reg' s0 _. apply Hupd.
      + intros; apply Hupd.
      + intros; apply Hupd. }
  split; [ | split; [ exact Hother | ] ].
  - intro Hm. split; [ | apply set_ch2_source_refused, Hm ].
    destruct c as [ | r0 m | r0 d1 d2 | r0 v | r0 i | src' | r0 q
                    | b1 b2 b3 b4 ];
      try (apply Hother; intros src0; discriminate).
    cbn [run]. rewrite set_ch2_source_refused by exact Hm. reflexivity.
  - intro Hm. unfold regulator_set_ch2_source, mode_is.
    unfold bind at 1; unfold read. rewrite Hm. cbn [feedback_mode_eqb negb].
    destruct src;
      (eexists; split;
       [ cbv [bind modify emit configure_ch2 configure_pwm read ret negb Z.eqb];
         reflexivity
       | repeat split; reflexivity ]).
Qed.

Lemma ch2_source_changes_only_while_disabled_witness :
  regulator_set_ch2_source BATTERY ch2_regulating = Ret (-1) ch2_regulating /\
  ch2_oc (state_of (run responsive (SetMode Chan2 CONST_DUTY) power_on))
  = ch2_oc power_on /\
  exists s', regulator_set_ch2_source BATTERY power_on = Ret 0 s' /\
             ch2_oc s' = TIM_OC1.
Proof.
  split; [ | split ].
  - apply (proj1 (ch2_source_changes_only_while_disabled responsive Init
                    ch2_regulating BATTERY)).
    vm_compute; discriminate.
  - apply (proj1 (proj2 (ch2_source_changes_only_while_disabled responsive
                           (SetMode Chan2 CONST_DUTY) power_on BATTERY))).
    intros src'; discriminate.
  - destruct (proj2 (proj2 (ch2_source_changes_only_while_disabled responsive
                              Init power_on BATTERY)) eq_refl)
      as (s' & Hret & Hoc & _).
    exists s'. split; assumption.
Defined.

(** * The mode state machine and the shared peripherals *)

Lemma bind_ext {A B} (m : M A) (k k' : A -> M B) (s : system) :
  (forall a s', k a s' = k' a s') -> bind m k s = bind m k' s.
Proof. intro H. unfold bind. destruct (m s); [ apply H | reflexivity ]. Qed.

Lemma bind_returned {A B} (m : M A) (k : A -> M B) (s s' : system) (b : B) :
  bind m k s = Ret b s' ->
  exists a s1, m s = Ret a s1 /\ k a s1 = Ret b s'.
Proof.
  unfold bind. destruct (m s) as [a s1 | w s1]; intro H.
  - exists a, s1. split; [ reflexivity | exact H ].
  - discriminate.
Qed.

(** [regulator_set_mode] without the branch that is never taken. *)
Lemma regulator_set_mode_steps env r m s :
  regulator_set_mode env r m s =
  ((if feedback_mode_eqb (mode (chan r s)) DISABLED
       && negb (feedback_mode_eqb m DISABLED)
    then enable_func env r
    else if feedback_mode_eqb m DISABLED then disable_func env r
    else ret tt) ;;
   (if negb (feedback_mode_eqb m DISABLED)
    then configure_func r ;; ret 0
    else ret 0))
    (with_chan r (with_mode (chan r s) m) s).
Proof.
  unfold regulator_set_mode.
  unfold bind at 1; unfold read.
  unfold bind at 1; unfold update_chan at 1; unfold modify.
  apply bind_ext. intros [] s2.
  destruct (negb (feedback_mode_eqb m DISABLED)); [ | reflexivity ].
  unfold bind. destruct (configure_func_returns_0 r s2) as (s3 & Hc & _).
  rewrite Hc. reflexivity.
Qed.

Lemma chan_other (r : chan_id) (x : regulator_t) (s : system) :
  chan (other r) (with_chan r x s) = chan (other r) s.
Proof. destruct r; reflexivity. Qed.

Lemma regulator_set_mode_chans env r m s :
  chans (state_of (regulator_set_mode env r m s))
  = chans (with_chan r (with_mode (chan r s) m) s).
Proof.
  rewrite regulator_set_mode_steps.
  apply keeps_bind; [ apply switch_step_keeps | intros _ ].
  destruct (negb (feedback_mode_eqb m DISABLED)); step_through.
Qed.

Lemma regulator_set_mode_ch2_oc env r m s :
  ch2_oc (state_of (regulator_set_mode env r m s)) = ch2_oc s.
Proof.
  apply (blind_set_mode ch2_oc); try reflexivity.
  intros x s0. destruct r; reflexivity.
Qed.

(** X7.  [regulator_set_mode], whether it returns or stalls, changes the
    mode of the addressed channel to the requested one and no other
    field of either channel, nor the output selected for channel 2. *)
Theorem set_mode_changes_the_mode_only (env : hw_env) (r : chan_id)
    (m : feedback_mode) (s : system) :
  let s' := state_of (regulator_set_mode env r m s) in
  chan r s' = with_mode (chan r s) m /\
  chan (other r) s' = chan (other r) s /\
  ch2_oc s' = ch2_oc s.
Proof.
  intro s'.
  pose proof (regulator_set_mode_chans env r m s) as Hch. fold s' in Hch.
  split; [ | split ].
  - rewrite (chan_of_chans r _ _ Hch). apply chan_with_chan.
  - rewrite (chan_of_chans (other r) _ _ Hch). apply chan_other.
  - apply regulator_set_mode_ch2_oc.
Qed.

(** The shared setup leaves the ADC clock gate open exactly when a
    channel is in use. *)
Lemma setup_common_peripherals_tracks env s a s' :
  setup_common_peripherals env s = Ret a s' ->
  adc1en s' = negb (mode_is DISABLED (chan1 s) && mode_is DISABLED (chan2 s)) /\
  chans s' = chans s.
Proof.
  unfold setup_common_peripherals.
  unfold bind at 1; unfold read. unfold bind at 1; unfold read.
  destruct (mode_is DISABLED (chan1 s) && mode_is DISABLED (chan2 s)).
  - unfold bind, read, emit, modify, clock_disable, ret.
    destruct (adc1en s); intro H; inversion H; split; reflexivity.
  - unfold bind, read, emit, modify, clock_enable, wait_for, ret, halt.
    destruct (hsi_ready env), (adc_adons_set env), (adc_jcnr_clear env);
      intro H; inversion H; split; reflexivity.
Qed.

Lemma enable_func_tracks env r s a s' :
  enable_func env r s = Ret a s' ->
  adc1en s' = negb (mode_is DISABLED (chan1 s) && mode_is DISABLED (chan2 s)) /\
  chans s' = chans s.
Proof.
  destruct r; intro H.
  - exact (setup_common_peripherals_tracks env
             (with_call (rcc_peripheral_enable_clock RCC_APB1ENR_TIM4EN)
                (with_call (rcc_peripheral_enable_clock RCC_APB1ENR_TIM2EN)
                   (with_call gpio_set_a5 s))) a s' H).
  - exact (setup_common_peripherals_tracks env
             (with_call (rcc_peripheral_enable_clock RCC_APB1ENR_TIM3EN) s)
             a s' H).
Qed.

Lemma disable_func_tracks env r s a s' :
  disable_func env r s = Ret a s' ->
  adc1en s' = negb (mode_is DISABLED (chan1 s) && mode_is DISABLED (chan2 s)) /\
  chans s' = chans s.
Proof.
  destruct r; intro H.
  - change (disable_func env Chan1 s) with
      ((setup_common_peripherals env ;; set_vsense1_en false)
         (with_call (rcc_peripheral_disable_clock RCC_APB1ENR_TIM4EN)
            (with_call (rcc_peripheral_disable_clock RCC_APB1ENR_TIM2EN)
               (with_call (timer_disable_counter TIM4)
                  (with_call (timer_disable_counter TIM2)
                     (with_call (timer_disable_oc_output TIM4 TIM_OC3)
                        (with_call (timer_disable_oc_output TIM2 TIM_OC3)
                           s))))))) in H.
    apply bind_returned in H. destruct H as (a1 & s1 & Hsetup & Hlast).
    apply setup_common_peripherals_tracks in Hsetup.
    inversion Hlast; subst. exact Hsetup.
  - exact (setup_common_peripherals_tracks env
             (with_call (rcc_peripheral_disable_clock RCC_APB1ENR_TIM3EN)
                (with_call (timer_disable_counter TIM3)
                   (with_call (timer_disable_oc_output TIM3 TIM_OC3)
                      (with_call (timer_disable_oc_output TIM3 TIM_OC1) s))))
             a s' H).
Qed.

Lemma lifecycle_with_chan (r : chan_id) (x : regulator_t) (s : system) :
  mode x = mode (chan r s) -> lifecycle (with_chan r x s) = lifecycle s.
Proof.
  unfold lifecycle, both. destruct r; simpl; intros ->; reflexivity.
Qed.

Lemma tracks_of_lifecycle (s s0 : system) :
  lifecycle s = lifecycle s0 -> adc_clock_tracks s0 -> adc_clock_tracks s.
Proof.
  unfold lifecycle, both, adc_clock_tracks, mode_is.
  intro H. injection H as H1 H2 H3. rewrite H1, H2, H3. auto.
Qed.

Lemma tracks_of_setup (s s1 : system) :
  adc1en s = negb (mode_is DISABLED (chan1 s1) && mode_is DISABLED (chan2 s1)) ->
  chans s = chans s1 -> adc_clock_tracks s.
Proof.
  unfold adc_clock_tracks, chans. intros Ha Hc. injection Hc as H1 H2.
  rewrite H1, H2. exact Ha.
Qed.

Lemma ensures_bind {A B} (P Q R : system -> Prop) (m : M A) (k : A -> M B) :
  ensures P m Q -> (forall a, ensures Q (k a) R) -> ensures P (bind m k) R.
Proof.
  intros Hm Hk s b s' HP Hrun.
  apply bind_returned in Hrun. destruct Hrun as (a & s1 & H1 & H2).
  exact (Hk a s1 b s' (Hm s a s1 HP H1) H2).
Qed.

Lemma ensures_tracks_of_keeps {A} (m : M A) :
  keeps lifecycle m -> ensures adc_clock_tracks m adc_clock_tracks.
Proof.
  intros H s a s' Hinv Hrun. specialize (H s). rewrite Hrun in H.
  exact (tracks_of_lifecycle _ _ H Hinv).
Qed.

Lemma regulator_set_mode_tracks env r m :
  ensures adc_clock_tracks (regulator_set_mode env r m) adc_clock_tracks.
Proof.
  intros s a s' Hinv Hrun.
  rewrite regulator_set_mode_steps in Hrun.
  apply bind_returned in Hrun. destruct Hrun as ([] & s2 & Hstep & Htail).
  assert (Hlast : lifecycle s' = lifecycle s2).
  { assert (Hk : keeps lifecycle
                   (if negb (feedback_mode_eqb m DISABLED)
                    then configure_func r ;; ret 0 else ret 0)).
    { destruct (negb (feedback_mode_eqb m DISABLED)).
      - apply keeps_bind; [ apply blind_configure_func; reflexivity | ].
        intro; apply keeps_ret.
      - apply keeps_ret. }
    specialize (Hk s2). rewrite Htail in Hk. exact Hk. }
  apply (tracks_of_lifecycle _ _ Hlast).
  destruct (feedback_mode_eqb_spec m DISABLED) as [Hm | Hm].
  - rewrite andb_false_r in Hstep. cbn [negb] in Hstep.
    apply disable_func_tracks in Hstep. destruct Hstep as [Ha Hc].
    exact (tracks_of_setup _ _ Ha Hc).
  - cbn [negb] in Hstep. rewrite andb_true_r in Hstep.
    destruct (feedback_mode_eqb_spec (mode (chan r s)) DISABLED) as [Ho | Ho].
    + apply enable_func_tracks in Hstep. destruct Hstep as [Ha Hc].
      exact (tracks_of_setup _ _ Ha Hc).
    + inversion Hstep; subst s2.
      unfold adc_clock_tracks, mode_is in *.
      destruct r; simpl in *; rewrite Hinv;
        destruct (feedback_mode_eqb_spec (mode (chan1 s)) DISABLED);
        destruct (feedback_mode_eqb_spec (mode (chan2 s)) DISABLED);
        destruct (feedback_mode_eqb_spec m DISABLED);
        try contradiction; reflexivity.
Qed.

Lemma run_tracks env c : ensures adc_clock_tracks (run env c) adc_clock_tracks.
Proof.
  assert (Hupd : forall r0 (h : regulator_t -> regulator_t),
            (forall reg, mode (h reg) = mode reg) ->
            forall s0, lifecycle (with_chan r0 (h (chan r0 s0)) s0) = lifecycle s0).
  { intros r0 h Hh s0. apply lifecycle_with_chan, Hh. }
  destruct c as [ | r0 m | r0 d1 d2 | r0 v | r0 i | src | r0 q
                  | b1 b2 b3 b4 ]; cbn [run].
  - eapply ensures_bind;
      [ | intro; apply ensures_tracks_of_keeps, keeps_ret ].
    unfold regulator_init.
    eapply ensures_bind; [ apply regulator_set_mode_tracks | intro ].
    eapply ensures_bind; [ apply regulator_set_mode_tracks | intro ].
    apply ensures_tracks_of_keeps, keeps_ret.
  - apply regulator_set_mode_tracks.
  - apply ensures_tracks_of_keeps, blind_set_duty_cycle; try reflexivity;
      intros x.
    + apply (Hupd r0 (fun reg => with_duty1 reg x)). reflexivity.
    + apply (Hupd r0 (fun reg => with_duty2 reg x)). reflexivity.
  - apply ensures_tracks_of_keeps, blind_set_vsetpoint; try reflexivity.
    intros x. apply (Hupd r0 (fun reg => with_vsetpoint reg x)). reflexivity.
  - apply ensures_tracks_of_keeps, blind_set_isetpoint; try reflexivity.
    intros x. apply (Hupd r0 (fun reg => with_isetpoint reg x)). reflexivity.
  - apply ensures_tracks_of_keeps, blind_set_ch2_source; reflexivity.
  - apply ensures_tracks_of_keeps, blind_set_period; try reflexivity.
    intros x. apply (Hupd r0 (fun reg => with_period reg x)). reflexivity.
  - apply ensures_tracks_of_keeps.
    apply keeps_bind; [ | intro; apply keeps_ret ].
    apply blind_adc1_isr; try reflexivity.
    + intros r0 reg' s0 Hd. apply lifecycle_with_chan.
      exact (only_duties_mode _ _ Hd).
    + intros r0 x. apply (Hupd r0 (fun reg => with_vsense reg x)). reflexivity.
    + intros r0 x. apply (Hupd r0 (fun reg => with_isense reg x)). reflexivity.
Qed.

Lemma reachable_tracks (s : system) : reachable s -> adc_clock_tracks s.
Proof.
  induction 1 as [ | env c s s' rc Hreach IH Hty Hrun ]; [ reflexivity | ].
  exact (run_tracks env c s rc s' IH Hrun).
Qed.

(** X8.  In every reachable state the clock of the ADC is gated off
    exactly when both channels are Disabled: the shared sampler is up
    while a channel is in use and down otherwise. *)
Theorem adc_clock_follows_the_modes (s : system) :
  reachable s ->
  (adc1en s = false <->
   mode (chan1 s) = DISABLED /\ mode (chan2 s) = DISABLED).
Proof.
  intro Hreach. pose proof (reachable_tracks s Hreach) as H.
  unfold adc_clock_tracks, mode_is in H. rewrite H.
  destruct (feedback_mode_eqb_spec (mode (chan1 s)) DISABLED);
    destruct (feedback_mode_eqb_spec (mode (chan2 s)) DISABLED);
    simpl; split; try tauto; try discriminate; intros [? ?]; contradiction.
Qed.

Lemma adc_clock_follows_the_modes_witness :
  reachable regulating /\ adc1en regulating <> false.
Proof.
  split; [ exact regulating_reachable | ].
  intro H.
  destruct (proj1 (adc_clock_follows_the_modes regulating regulating_reachable) H)
    as [H1 _].
  vm_compute in H1. discriminate.
Defined.

(** With both channels Disabled the shared setup only powers down: it
    waits for nothing. *)
Lemma setup_common_peripherals_idle env s :
  mode (chan1 s) = DISABLED -> mode (chan2 s) = DISABLED ->
  returned (setup_common_peripherals env s).
Proof.
  intros H1 H2. unfold setup_common_peripherals.
  unfold bind at 1; unfold read. unfold bind at 1; unfold read.
  unfold mode_is. rewrite H1, H2. cbn [feedback_mode_eqb andb].
  unfold bind, read, emit, modify, clock_disable, ret.
  destruct (adc1en s); exact I.
Qed.

Lemma disable_func_idle env r s :
  mode (chan1 s) = DISABLED -> mode (chan2 s) = DISABLED ->
  returned (disable_func env r s).
Proof.
  intros H1 H2. destruct r.
  - change (disable_func env Chan1 s) with
      ((setup_common_peripherals env ;; set_vsense1_en false)
         (with_call (rcc_peripheral_disable_clock RCC_APB1ENR_TIM4EN)
            (with_call (rcc_peripheral_disable_clock RCC_APB1ENR_TIM2EN)
               (with_call (timer_disable_counter TIM4)
                  (with_call (timer_disable_counter TIM2)
                     (with_call (timer_disable_oc_output TIM4 TIM_OC3)
                        (with_call (timer_disable_oc_output TIM2 TIM_OC3)
                           s))))))).
    unfold bind.
    match goal with
    | |- context [setup_common_peripherals env ?st] =>
        pose proof (setup_common_peripherals_idle env st H1 H2) as Hret;
        destruct (setup_common_peripherals env st); [ exact I | destruct Hret ]
    end.
  - exact (setup_common_peripherals_idle env
             (with_call (rcc_peripheral_disable_clock RCC_APB1ENR_TIM3EN)
                (with_call (timer_disable_counter TIM3)
                   (with_call (timer_disable_oc_output TIM3 TIM_OC3)
                      (with_call (timer_disable_oc_output TIM3 TIM_OC1) s))))
             H1 H2).
Qed.

Lemma set_mode_disable_last env r s :
  mode (chan (other r) s) = DISABLED ->
  exists s',
    regulator_set_mode env r DISABLED s = Ret 0 s' /\
    chans s' = chans (with_chan r (with_mode (chan r s) DISABLED) s) /\
    adc1en s' = false /\ ch2_oc s' = ch2_oc s.
Proof.
  intro Hother.
  pose proof (regulator_set_mode_chans env r DISABLED s) as Hch.
  pose proof (regulator_set_mode_ch2_oc env r DISABLED s) as Hoc.
  set (s1 := with_chan r (with_mode (chan r s) DISABLED) s) in *.
  assert (H1 : mode (chan1 s1) = DISABLED)
    by (destruct r; simpl in *; [ reflexivity | exact Hother ]).
  assert (H2 : mode (chan2 s1) = DISABLED)
    by (destruct r; simpl in *; [ exact Hother | reflexivity ]).
  pose proof (disable_func_idle env r s1 H1 H2) as Hret.
  rewrite regulator_set_mode_steps in Hch, Hoc |- *. fold s1 in Hch, Hoc |- *.
  rewrite andb_false_r in Hch, Hoc |- *.
  cbn [feedback_mode_eqb negb] in Hch, Hoc |- *.
  unfold bind in Hch, Hoc |- *.
  destruct (disable_func env r s1) as [[] s2 | w s2] eqn:Hd; [ | destruct Hret ].
  exists s2. simpl in Hch, Hoc.
  destruct (disable_func_tracks env r s1 tt s2 Hd) as [Ha _].
  unfold mode_is in Ha. rewrite H1, H2 in Ha.
  repeat split; assumption.
Qed.

(** X9.  [regulator_init] puts both channels in mode Disabled, changes
    no other field of theirs, and leaves the ADC clock gated off.  It
    returns on responsive hardware from any state, and on any hardware
    from a state where channel 2 is Disabled, as at power on: there it
    waits for no flag. *)
Theorem init_disables_both_channels :
  (forall s, exists s',
     regulator_init responsive s = Ret tt s' /\
     chan1 s' = with_mode (chan1 s) DISABLED /\
     chan2 s' = with_mode (chan2 s) DISABLED /\
     adc1en s' = false /\ ch2_oc s' = ch2_oc s) /\
  (forall env s, mode (chan2 s) = DISABLED ->
     exists s',
       regulator_init env s = Ret tt s' /\
       chan1 s' = with_mode (chan1 s) DISABLED /\
       chan2 s' = with_mode (chan2 s) DISABLED /\
       adc1en s' = false /\ ch2_oc s' = ch2_oc s).
Proof.
  assert (Hsecond : forall env s s1,
    regulator_set_mode env Chan1 DISABLED s = Ret 0 s1 ->
    exists s',
      regulator_init env s = Ret tt s' /\
      chan1 s' = with_mode (chan1 s) DISABLED /\
      chan2 s' = with_mode (chan2 s) DISABLED /\
      adc1en s' = false /\ ch2_oc s' = ch2_oc s).
  { intros env s s1 H1.
    pose proof (regulator_set_mode_chans env Chan1 DISABLED s) as Hch1.
    pose proof (regulator_set_mode_ch2_oc env Chan1 DISABLED s) as Hoc1.
    rewrite H1 in Hch1, Hoc1. simpl in Hch1, Hoc1.
    unfold chans in Hch1. injection Hch1 as Hc1 Hc2.
    destruct (set_mode_disable_last env Chan2 s1) as (s2 & H2 & Hch2 & Ha & Hoc2).
    { simpl. rewrite Hc1. reflexivity. }
    exists s2. unfold regulator_init, bind. rewrite H1, H2.
    unfold chans in Hch2. simpl in Hch2. injection Hch2 as Hd1 Hd2.
    split; [ reflexivity | ].
    split; [ congruence | ].
    split; [ congruence | ].
    split; [ exact Ha | congruence ]. }
  split.
  - intro s. destruct (regulator_set_mode_returns Chan1 DISABLED s) as (s1 & H1).
    exact (Hsecond responsive s s1 H1).
  - intros env s Hm.
    destruct (set_mode_disable_last env Chan1 s Hm) as (s1 & H1 & _).
    exact (Hsecond env s s1 H1).
Qed.

Lemma init_disables_both_channels_witness :
  exists s',
    regulator_init unresponsive power_on = Ret tt s' /\ adc1en s' = false.
Proof.
  destruct (proj2 init_disables_both_channels unresponsive power_on eq_refl)
    as (s' & Hret & _ & _ & Ha & _).
  exists s'. split; assumption.
Defined.

(** * More on the feedback step *)

Lemma gain_term_floor (error gain : Z) :
  gain_term error gain * 0x10000 <= error * gain
  < (gain_term error gain + 1) * 0x10000.
Proof.
  unfold gain_term. rewrite shiftr16_div.
  pose proof (Z.div_mod (error * gain) (2 ^ 16) ltac:(lia)).
  pose proof (Z.mod_pos_bound (error * gain) (2 ^ 16) ltac:(lia)).
  change 0x10000 with (2 ^ 16). lia.
Qed.

Lemma gain_term_unit (error : Z) : gain_term error 0x10000 = error.
Proof.
  unfold gain_term. rewrite shiftr16_div.
  change 0x10000 with (2 ^ 16). apply Z.div_mul. lia.
Qed.

Lemma clamp_duties_id (reg : regulator_t) :
  0 <= duty1 reg <= 0xffff -> 0 <= duty2 reg <= 0xffff ->
  clamp_duties reg = reg.
Proof.
  destruct reg; unfold clamp_duties; simpl. intros H1 H2.
  repeat case_cmp; try lia; reflexivity.
Qed.

(** The branch of the mixing algorithm taken away from the rails: with
    [duty1] between [fudge] and [0xffff - fudge] and [duty2] at most
    [fudge], switch 1 is adjusted and switch 2 only capped. *)
Lemma mixing_in_normal_region (reg : regulator_t) (gains : feedback_gains)
    (error : Z) :
  fudge <= duty1 reg <= 0xffff - fudge -> duty2 reg <= fudge ->
  let d1 := to_int32 (duty1 reg - gain_term error (prop_gain1 gains)) in
  regulator_feedback_error reg gains error =
  with_duty2 (with_duty1 reg d1) (Z.min (duty2 reg) d1).
Proof.
  unfold fudge. intros H1 H2.
  unfold regulator_feedback_error, fudge; cbv zeta.
  destruct (Z.gtb_spec (duty1 reg) (0xffff - 2000)); [ lia | ].
  destruct (Z.ltb_spec (duty1 reg) 2000); [ lia | ].
  destruct (Z.gtb_spec (duty2 reg) 2000); [ lia | ].
  rewrite !andb_false_r.
  set (d1 := to_int32 (duty1 reg - gain_term error (prop_gain1 gains))).
  clearbody d1. destruct reg; simpl in *.
  destruct (Z.gtb_spec duty4 d1); unfold with_duty2, with_duty1; simpl;
    f_equal; lia.
Qed.

(** X10.  At the setpoint the loop holds its output: a tick with zero
    error and the opposing quantity within its limit leaves every field
    of both channels as it was, provided the duty cycles are ordered and
    within [0, 0xffff]. *)
Theorem zero_error_holds_the_duty_cycles (s : system) (r : chan_id) :
  let reg := chan r s in
  (mode reg = VOLTAGE_FB /\ isense reg <= ilimit reg
   /\ vsense reg = vsetpoint reg) \/
  (mode reg = CURRENT_FB /\ vsense reg <= vlimit reg
   /\ isense reg = isetpoint reg) ->
  0 <= duty2 reg <= duty1 reg -> duty1 reg <= 0xffff ->
  chans (state_of (regulator_feedback r s)) = chans s.
Proof.
  intros reg Hmode H2 H1.
  rewrite regulator_feedback_chans. fold reg.
  assert (Hmix : forall gains, regulator_feedback_error reg gains 0 = reg).
  { intro gains. unfold regulator_feedback_error; cbv zeta.
    cbn [Z.ltb Z.gtb Z.compare andb].
    assert (Hg : gain_term 0 (prop_gain1 gains) = 0) by reflexivity.
    rewrite Hg, Z.sub_0_r, to_int32_small by lia.
    destruct reg; simpl in *.
    destruct (Z.gtb_spec duty4 duty3); [ lia | reflexivity ]. }
  assert (Hstep : feedback_step reg = reg).
  { unfold feedback_step, feedback_regulate.
    destruct Hmode as [(Hm & Hl & He) | (Hm & Hl & He)]; rewrite Hm.
    - destruct (Z.gtb_spec (isense reg) (ilimit reg)); [ lia | ].
      rewrite He, Z.sub_diag, Hmix. apply clamp_duties_id; lia.
    - destruct (Z.gtb_spec (vsense reg) (vlimit reg)); [ lia | ].
      rewrite He, Z.sub_diag, Hmix. apply clamp_duties_id; lia. }
  rewrite Hstep. apply with_chan_same.
Qed.

Lemma zero_error_holds_the_duty_cycles_witness :
  let s := with_chan Chan1 (bench VOLTAGE_FB 0x8000 0x4000 2000 2000 0 0xffff)
             power_on in
  chans (state_of (regulator_feedback Chan1 s)) = chans s.
Proof.
  intro s.
  apply (zero_error_holds_the_duty_cycles s Chan1).
  - left. repeat split; vm_compute; try reflexivity; discriminate.
  - split; vm_compute; discriminate.
  - vm_compute; discriminate.
Defined.

(** X11.  With the unit gain the channels are initialised with, a tick
    away from the rails corrects switch 1 by exactly the error: in
    VoltageFeedback (CurrentFeedback) with the current (voltage) within
    its limit, [fudge <= duty1 <= 0xffff - fudge] and [duty2 <= fudge],
    the new [duty1] is [duty1 - error] clamped to [0, 0xffff], and
    [duty2] is only capped by it. *)
Theorem unit_gain_tick_subtracts_the_error (s : system) (r : chan_id)
    (error : Z) :
  let reg := chan r s in
  (mode reg = VOLTAGE_FB /\ isense reg <= ilimit reg
   /\ prop_gain1 (v_gains reg) = 0x10000
   /\ error = vsense reg - vsetpoint reg) \/
  (mode reg = CURRENT_FB /\ vsense reg <= vlimit reg
   /\ prop_gain1 (i_gains reg) = 0x10000
   /\ error = isense reg - isetpoint reg) ->
  - 0xffff <= error <= 0xffff ->
  fudge <= duty1 reg <= 0xffff - fudge -> duty2 reg <= fudge ->
  let after := chan r (state_of (regulator_feedback r s)) in
  duty1 after = clamp16 (duty1 reg - error) /\
  duty2 after = clamp16 (Z.min (duty2 reg) (duty1 reg - error)).
Proof.
  intros reg Hmode He H1 H2 after.
  assert (Hafter : exists gains,
            prop_gain1 gains = 0x10000 /\
            after = clamp_duties (regulator_feedback_error reg gains error)).
  { unfold after. rewrite regulator_feedback_chan. fold reg.
    unfold feedback_step, feedback_regulate.
    destruct Hmode as [(Hm & Hl & Hg & Herr) | (Hm & Hl & Hg & Herr)];
      rewrite Hm.
    - exists (v_gains reg). split; [ exact Hg | ].
      destruct (Z.gtb_spec (isense reg) (ilimit reg)); [ lia | ].
      rewrite Herr. reflexivity.
    - exists (i_gains reg). split; [ exact Hg | ].
      destruct (Z.gtb_spec (vsense reg) (vlimit reg)); [ lia | ].
      rewrite Herr. reflexivity. }
  destruct Hafter as (gains & Hg & Hafter).
  rewrite Hafter, clamp_duties_duty1, clamp_duties_duty2.
  rewrite (mixing_in_normal_region reg gains error H1 H2).
  cbv zeta. rewrite Hg, gain_term_unit.
  unfold fudge in *.
  rewrite to_int32_small by lia.
  destruct reg; simpl. split; reflexivity.
Qed.

Lemma unit_gain_tick_subtracts_the_error_witness :
  let s := with_chan Chan2 (bench CURRENT_FB 0x8000 100 0 0 900 0xffff)
             power_on in
  duty1 (chan Chan2 (state_of (regulator_feedback Chan2 s)))
  = clamp16 (0x8000 - 900).
Proof.
  intro s.
  refine (proj1 (unit_gain_tick_subtracts_the_error s Chan2 900 _ _ _ _)).
  - right. repeat split; vm_compute; try reflexivity; discriminate.
  - split; vm_compute; discriminate.
  - split; vm_compute; discriminate.
  - vm_compute; discriminate.
Defined.

(** X12.  The correction [(error * gain) >> 16] rounds toward minus
    infinity.  Away from the rails, with a positive gain of at most
    unity, any negative error raises [duty1] by at least one codepoint,
    while a positive error with [error * gain < 0x10000] changes
    nothing. *)
Theorem correction_rounds_down (reg : regulator_t) (gains : feedback_gains)
    (error : Z) :
  0 < prop_gain1 gains <= 0x10000 -> - 0xffff <= error <= 0xffff ->
  fudge <= duty1 reg <= 0xffff - fudge -> 0 <= duty2 reg <= fudge ->
  (error < 0 ->
   duty1 reg + 1 <= duty1 (regulator_feedback_error reg gains error) /\
   duty2 (regulator_feedback_error reg gains error) = duty2 reg) /\
  (0 <= error -> error * prop_gain1 gains < 0x10000 ->
   regulator_feedback_error reg gains error = reg).
Proof.
  intros Hg He H1 H2.
  rewrite (mixing_in_normal_region reg gains error H1 ltac:(lia)). cbv zeta.
  pose proof (gain_term_floor error (prop_gain1 gains)) as Hfloor.
  unfold fudge in *.
  assert (Hbound : - 0xffff <= gain_term error (prop_gain1 gains) <= 0xffff) by nia.
  rewrite to_int32_small by lia.
  split.
  - intro Hneg. assert (gain_term error (prop_gain1 gains) <= -1) by nia.
    clear Hfloor.
    destruct reg; unfold with_duty2, with_duty1; cbn [duty1 duty2] in *.
    split; lia.
  - intros Hpos Hsmall.
    assert (Hz : gain_term error (prop_gain1 gains) = 0) by nia.
    rewrite Hz, Z.sub_0_r. clear Hfloor Hbound Hsmall Hz.
    destruct reg; cbn [duty1 duty2] in *.
    unfold with_duty2, with_duty1; cbn [duty1 duty2].
    rewrite Z.min_l by lia. reflexivity.
Qed.

Lemma correction_rounds_down_witness :
  let reg := bench VOLTAGE_FB 0x8000 100 0 0 0 0xffff in
  let low := mk_gains 0x100 0x100 in
  duty1 reg + 1 <= duty1 (regulator_feedback_error reg low (-1)) /\
  regulator_feedback_error reg low 255 = reg.
Proof.
  intros reg low.
  assert (Hg : 0 < prop_gain1 low <= 0x10000)
    by (split; vm_compute; [ reflexivity | discriminate ]).
  assert (H1 : fudge <= duty1 reg <= 0xffff - fudge)
    by (split; vm_compute; discriminate).
  assert (H2 : 0 <= duty2 reg <= fudge) by (split; vm_compute; discriminate).
  assert (Hlt : -1 < 0) by reflexivity.
  assert (Hle : 0 <= 255) by discriminate.
  assert (Hsmall : 255 * prop_gain1 low < 0x10000) by (vm_compute; reflexivity).
  destruct (correction_rounds_down reg low (-1) Hg ltac:(lia) H1 H2)
    as [Hneg _].
  destruct (correction_rounds_down reg low 255 Hg ltac:(lia) H1 H2)
    as [_ Hpos].
  split; [ exact (proj1 (Hneg Hlt)) | exact (Hpos Hle Hsmall) ].
Defined.

(** * Compare values written to the timers *)

Lemma regulator_feedback_runs (r : chan_id) (s : system) :
  mode (chan r s) <> DISABLED -> mode (chan r s) <> CONST_DUTY ->
  regulator_feedback r s
  = update_duty_func r (with_chan r (feedback_step (chan r s)) s).
Proof.
  intros Hd Hc. unfold regulator_feedback, feedback_step.
  unfold bind at 1; unfold read.
  destruct (mode (chan r s)); try contradiction;
    unfold bind, update_chan, modify;
    rewrite chan_with_chan, with_chan_twice; reflexivity.
Qed.

Lemma update_duty_ch1_writes (s : system) :
  let c := chan1 s in
  pwm_ticks (period c) (duty1 c) <= 0xffff ->
  pwm_ticks (period c) (duty2 c) <= 0xffff ->
  update_duty_ch1 s
  = Ret tt
      (with_call (timer_enable_counter TIM2)
         (with_call (timer_set_oc_value TIM4 TIM_OC3
                       (pwm_ticks (period c) (duty2 c)))
            (with_call (timer_set_oc_value TIM2 TIM_OC3
                          (pwm_ticks (period c) (duty1 c)))
               (with_call (timer_disable_counter TIM2) s)))).
Proof.
  intros c H1 H2. unfold update_duty_ch1, bind, read, emit, modify.
  fold c. rewrite set_pwm_duty_writes by exact H1.
  rewrite set_pwm_duty_writes by exact H2. reflexivity.
Qed.

Lemma update_duty_ch2_writes (s : system) :
  let c := chan2 s in
  pwm_ticks (period c) (duty1 c) <= 0xffff ->
  update_duty_ch2 s
  = Ret tt (with_call (timer_set_oc_value TIM3 (ch2_oc s)
                         (pwm_ticks (period c) (duty1 c))) s).
Proof.
  intros c H1. unfold update_duty_ch2, bind, read.
  fold c. rewrite set_pwm_duty_writes by exact H1. reflexivity.
Qed.

Lemma ticks_mono (p d d' : Z) :
  0 <= p -> 0 <= d <= d' ->
  0 <= Z.shiftr (d * p) 16 <= Z.shiftr (d' * p) 16.
Proof.
  intros Hp Hd. rewrite !shiftr16_div. split.
  - apply Z.div_pos; nia.
  - apply Z.div_le_mono; nia.
Qed.

Lemma ticks_below_period (p d : Z) :
  0 < p -> 0 <= d <= 0xffff -> Z.shiftr (d * p) 16 < p.
Proof.
  intros Hp Hd. rewrite shiftr16_div.
  apply Z.div_lt_upper_bound; nia.
Qed.

Lemma feedback_step_range (reg : regulator_t) :
  mode reg <> DISABLED -> mode reg <> CONST_DUTY ->
  0 <= duty1 (feedback_step reg) <= 0xffff /\
  0 <= duty2 (feedback_step reg) <= 0xffff.
Proof.
  intros Hd Hc. unfold feedback_step.
  destruct (mode reg); try contradiction;
    rewrite clamp_duties_duty1, clamp_duties_duty2;
    split; apply clamp16_range.
Qed.

(** X13.  A tick in a feedback mode with a period of at most 0x10000
    ticks returns and writes the compare values of the new duty cycles:
    on channel 1 with the counter of TIM2 stopped around the two writes,
    on channel 2 to the selected unit of TIM3.  Each value is
    [(duty * period) >> 16], below the period (no switch is driven at
    100%), and on channel 1 the value of switch 2 is at most that of
    switch 1 when the duty cycles were ordered before the tick. *)
Theorem feedback_writes_the_compare_values (s : system) (r : chan_id) :
  mode (chan r s) <> DISABLED -> mode (chan r s) <> CONST_DUTY ->
  0 < period (chan r s) <= 0x10000 -> ordered (chan r s) ->
  let after := feedback_step (chan r s) in
  let t1 := Z.shiftr (duty1 after * period (chan r s)) 16 in
  let t2 := Z.shiftr (duty2 after * period (chan r s)) 16 in
  exists s',
    regulator_feedback r s = Ret tt s' /\
    chan r s' = after /\
    calls s' =
    match r with
    | Chan1 => [timer_enable_counter TIM2;
                timer_set_oc_value TIM4 TIM_OC3 t2;
                timer_set_oc_value TIM2 TIM_OC3 t1;
                timer_disable_counter TIM2]
    | Chan2 => [timer_set_oc_value TIM3 (ch2_oc s) t1]
    end ++ calls s /\
    0 <= t2 <= t1 /\ t1 < period (chan r s).
Proof.
  intros Hd Hc Hp Hord after t1 t2.
  destruct (feedback_step_range (chan r s) Hd Hc) as [H1 H2].
  fold after in H1, H2.
  assert (Hperiod : period after = period (chan r s))
    by exact (only_duties_period _ _ (feedback_step_only_duties _)).
  assert (Hord' : duty2 after <= duty1 after)
    by exact (feedback_step_ordered _ Hord).
  assert (E1 : pwm_ticks (period after) (duty1 after) = t1).
  { rewrite Hperiod. apply pwm_ticks_exact; unfold is_uint32; lia. }
  assert (E2 : pwm_ticks (period after) (duty2 after) = t2).
  { rewrite Hperiod. apply pwm_ticks_exact; unfold is_uint32; lia. }
  assert (Hlt : t1 < period (chan r s)) by (apply ticks_below_period; lia).
  assert (Hmono : 0 <= t2 <= t1) by (apply ticks_mono; lia).
  rewrite (regulator_feedback_runs r s Hd Hc). fold after.
  destruct r; cbn [update_duty_func].
  - rewrite update_duty_ch1_writes;
      cbn [chan1 with_chan]; rewrite ?E1, ?E2; try lia.
    eexists. split; [ reflexivity | ].
    repeat split; try reflexivity; lia.
  - rewrite update_duty_ch2_writes;
      cbn [chan2 with_chan]; rewrite ?E1; try lia.
    eexists. split; [ reflexivity | ].
    repeat split; try reflexivity; lia.
Qed.

Lemma feedback_writes_the_compare_values_witness :
  exists s',
    regulator_feedback Chan1 regulating = Ret tt s' /\
    calls s' = [timer_enable_counter TIM2;
                timer_set_oc_value TIM4 TIM_OC3 100;
                timer_set_oc_value TIM2 TIM_OC3 200;
                timer_disable_counter TIM2] ++ calls regulating.
Proof.
  assert (Hd : mode (chan Chan1 regulating) <> DISABLED)
    by (vm_compute; discriminate).
  assert (Hc : mode (chan Chan1 regulating) <> CONST_DUTY)
    by (vm_compute; discriminate).
  assert (Hp : 0 < period (chan Chan1 regulating) <= 0x10000)
    by (split; vm_compute; [ reflexivity | discriminate ]).
  assert (Ho : ordered (chan Chan1 regulating))
    by (vm_compute; discriminate).
  destruct (feedback_writes_the_compare_values regulating Chan1 Hd Hc Hp Ho)
    as (s' & Hret & _ & Hcalls & _).
  exists s'. split; [ exact Hret | ].
  rewrite Hcalls. vm_compute. reflexivity.
Defined.

(** The 16-bit tick count [configure_ch1] derives from a duty cycle. *)
Lemma configure_ticks_exact (p d : Z) :
  0 <= d <= 0x10000 -> 0 <= p <= 0xffff ->
  to_uint16 (Z.shiftr (to_uint64 (p * to_uint64 d)) 16) = Z.shiftr (d * p) 16.
Proof.
  intros Hd Hp.
  rewrite (to_uint64_small d) by lia.
  rewrite (to_uint64_small (p * d)) by nia.
  rewrite Z.mul_comm, shiftr16_div.
  apply to_uint16_small. split.
  - apply Z.div_pos; nia.
  - apply Z.div_lt_upper_bound; nia.
Qed.

Lemma configure_ch1_programs (s : system) :
  exists s',
    configure_ch1 s = Ret 0 s' /\
    last_oc_value TIM2 TIM_OC3 (calls s')
    = Some (to_uint16 (Z.shiftr (to_uint64 (period (chan1 s)
                                             * to_uint64 (duty1 (chan1 s)))) 16)) /\
    last_oc_value TIM4 TIM_OC3 (calls s')
    = Some (to_uint16 (Z.shiftr (to_uint64 (period (chan1 s)
                                             * to_uint64 (duty2 (chan1 s)))) 16)) /\
    hd_error (calls s') = Some (timer_enable_counter TIM2) /\
    core s' = core s.
Proof.
  eexists. split.
  - cbv [configure_ch1 configure_dual_pwm configure_pwm bind read emit modify
         ret negb Z.eqb]. reflexivity.
  - repeat split; reflexivity.
Qed.

(** X14.  An accepted [regulator_set_duty_cycle] on channel 1 with duty
    cycles in [0, 0x10000] and a period below 0x10000 programs the
    compare values [(d1 * period) >> 16] on TIM2 and
    [(d2 * period) >> 16] on TIM4, the second at most the first and the
    first at most the period.  It also ends by starting the counter of
    TIM2, in mode Disabled as well, and the mode is unchanged. *)
Theorem set_duty_cycle_programs_channel_1 (s : system) (d1 d2 : fract32_t) :
  mode (chan1 s) = DISABLED \/ mode (chan1 s) = CONST_DUTY ->
  0 <= d2 <= d1 -> d1 <= 0x10000 -> 0 <= period (chan1 s) <= 0xffff ->
  let ta := Z.shiftr (d1 * period (chan1 s)) 16 in
  let tb := Z.shiftr (d2 * period (chan1 s)) 16 in
  exists s',
    regulator_set_duty_cycle Chan1 d1 d2 s = Ret 0 s' /\
    last_oc_value TIM2 TIM_OC3 (calls s') = Some ta /\
    last_oc_value TIM4 TIM_OC3 (calls s') = Some tb /\
    0 <= tb <= ta /\ ta <= period (chan1 s) /\
    hd_error (calls s') = Some (timer_enable_counter TIM2) /\
    mode (chan1 s') = mode (chan1 s).
Proof.
  intros Hm Hd Hd1 Hp ta tb.
  rewrite (set_duty_cycle_accepted s Chan1 d1 d2 Hm ltac:(lia)).
  set (stored := with_chan Chan1 (with_duty2 (with_duty1 (chan Chan1 s) d1) d2) s).
  destruct (configure_ch1_programs stored) as (s' & Hc & Ha & Hb & Hhd & Hcore).
  exists s'.
  assert (Hret : (configure_func Chan1 ;; ret 0) stored = Ret 0 s').
  { unfold bind. cbn [configure_func]. rewrite Hc. reflexivity. }
  assert (Hta : 0 <= tb <= ta) by (apply ticks_mono; lia).
  assert (Hle : ta <= period (chan1 s)).
  { unfold ta. rewrite shiftr16_div. apply Z.div_le_upper_bound; nia. }
  assert (Hs1 : chan1 stored = with_duty2 (with_duty1 (chan1 s) d1) d2)
    by reflexivity.
  rewrite Hs1 in Ha, Hb. cbn [period duty1 duty2 with_duty1 with_duty2] in Ha, Hb.
  rewrite configure_ticks_exact in Ha, Hb by lia.
  unfold core in Hcore. injection Hcore as Hc1 _ _ _.
  split; [ exact Hret | ]. split; [ exact Ha | ]. split; [ exact Hb | ].
  split; [ exact Hta | ]. split; [ exact Hle | ]. split; [ exact Hhd | ].
  rewrite Hc1. reflexivity.
Qed.

Lemma set_duty_cycle_programs_channel_1_witness :
  exists s',
    regulator_set_duty_cycle Chan1 0x10000 0x8000 power_on = Ret 0 s' /\
    last_oc_value TIM2 TIM_OC3 (calls s') = Some 400 /\
    last_oc_value TIM4 TIM_OC3 (calls s') = Some 200 /\
    hd_error (calls s') = Some (timer_enable_counter TIM2) /\
    mode (chan1 s') = DISABLED.
Proof.
  assert (Hm : mode (chan1 power_on) = DISABLED
               \/ mode (chan1 power_on) = CONST_DUTY) by (left; reflexivity).
  assert (Hp : 0 <= period (chan1 power_on) <= 0xffff)
    by (split; vm_compute; discriminate).
  destruct (set_duty_cycle_programs_channel_1 power_on 0x10000 0x8000
              Hm ltac:(lia) ltac:(lia) Hp)
    as (s' & Hret & Ha & Hb & _ & _ & Hhd & Hmode).
  exists s'. repeat split; assumption.
Defined.

Lemma configure_ch2_programs (s : system) :
  exists s',
    configure_ch2 s = Ret 0 s' /\
    last_oc_value TIM3 (ch2_oc s) (calls s')
    = Some (to_uint16 (to_uint32 (period (chan2 s)
                                  * to_uint32 (duty1 (chan2 s))) / 0xffff)) /\
    core s' = core s.
Proof.
  eexists. split.
  - cbv [configure_ch2 configure_pwm bind read emit modify ret negb Z.eqb].
    reflexivity.
  - split; [ | reflexivity ].
    destruct (ch2_oc s) eqn:Hoc; cbn; rewrite ?Hoc; reflexivity.
Qed.

(** X15.  Channel 2 is configured with [period * duty1 / 0xffff] but
    updated by the feedback with [(duty1 * period) >> 16].  For a duty
    cycle in [0, 0xffff] and a period below 0x10000 the configured value
    is the updated one or one tick more, and a duty cycle of 0xffff is
    configured as the full period. *)
Theorem channel_2_configure_and_update_agree (s : system) :
  0 <= duty1 (chan2 s) <= 0xffff -> 0 <= period (chan2 s) <= 0xffff ->
  exists sc su tc tu,
    configure_ch2 s = Ret 0 sc /\ update_duty_ch2 s = Ret tt su /\
    last_oc_value TIM3 (ch2_oc s) (calls sc) = Some tc /\
    last_oc_value TIM3 (ch2_oc s) (calls su) = Some tu /\
    tu = Z.shiftr (duty1 (chan2 s) * period (chan2 s)) 16 /\
    tu <= tc <= tu + 1 /\
    (duty1 (chan2 s) = 0xffff -> tc = period (chan2 s)).
Proof.
  intros Hd Hp.
  set (d := duty1 (chan2 s)) in *. set (p := period (chan2 s)) in *.
  destruct (configure_ch2_programs s) as (sc & Hc & Hlast & _).
  fold d p in Hlast.
  assert (Hexact : pwm_ticks p d = Z.shiftr (d * p) 16)
    by (apply pwm_ticks_exact; unfold is_uint32; lia).
  assert (Hfit : pwm_ticks p d <= 0xffff) by (apply pwm_ticks_fit; lia).
  pose proof (update_duty_ch2_writes s) as Hu. cbv zeta in Hu.
  fold d p in Hu. specialize (Hu Hfit).
  assert (Hprod : 0 <= p * d <= 0xffff * 0xffff) by nia.
  assert (Htc : to_uint16 (to_uint32 (p * to_uint32 d) / 0xffff)
                = p * d / 0xffff).
  { rewrite (to_uint32_small d) by lia.
    rewrite (to_uint32_small (p * d)) by lia.
    apply to_uint16_small. split.
    - apply Z.div_pos; lia.
    - apply Z.div_lt_upper_bound; lia. }
  exists sc, (with_call (timer_set_oc_value TIM3 (ch2_oc s) (pwm_ticks p d)) s),
    (p * d / 0xffff), (Z.shiftr (d * p) 16).
  split; [ exact Hc | ]. split; [ exact Hu | ].
  split; [ rewrite Hlast, Htc; reflexivity | ].
  split.
  { cbn [calls with_call last_oc_value].
    destruct (ch2_oc s); cbn [timer_id_eqb tim_oc_id_eqb andb];
      rewrite Hexact; reflexivity. }
  split; [ reflexivity | ].
  rewrite shiftr16_div, (Z.mul_comm d p).
  pose proof (Z.div_mod (p * d) 0xffff ltac:(lia)) as Hq1.
  pose proof (Z.mod_pos_bound (p * d) 0xffff ltac:(lia)) as Hr1.
  pose proof (Z.div_mod (p * d) (2 ^ 16) ltac:(lia)) as Hq2.
  pose proof (Z.mod_pos_bound (p * d) (2 ^ 16) ltac:(lia)) as Hr2.
  split; [ lia | ].
  intro Hfull. rewrite Hfull. apply Z.div_mul. lia.
Qed.

Lemma channel_2_configure_and_update_agree_witness :
  exists sc su,
    configure_ch2 (with_chan Chan2 (bench CONST_DUTY 0xffff 0 0 0 0 0xffff) power_on)
    = Ret 0 sc /\
    update_duty_ch2 (with_chan Chan2 (bench CONST_DUTY 0xffff 0 0 0 0 0xffff) power_on)
    = Ret tt su /\
    last_oc_value TIM3 TIM_OC3 (calls sc) = Some 400 /\
    last_oc_value TIM3 TIM_OC3 (calls su) = Some 399.
Proof.
  set (s := with_chan Chan2 (bench CONST_DUTY 0xffff 0 0 0 0 0xffff) power_on).
  assert (Hd : 0 <= duty1 (chan2 s) <= 0xffff)
    by (split; vm_compute; discriminate).
  assert (Hp : 0 <= period (chan2 s) <= 0xffff)
    by (split; vm_compute; discriminate).
  destruct (channel_2_configure_and_update_agree s Hd Hp)
    as (sc & su & tc & tu & Hc & Hu & Htc & Htu & Heq & _ & Hfull).
  exists sc, su.
  split; [ exact Hc | ]. split; [ exact Hu | ].
  split.
  - change (ch2_oc s) with TIM_OC3 in Htc. rewrite Htc.
    rewrite (Hfull eq_refl). reflexivity.
  - change (ch2_oc s) with TIM_OC3 in Htu. rewrite Htu, Heq. reflexivity.
Defined.

(** * Setpoints and samples in physical units *)

Lemma of_codepoint_exact (gain c : Z) :
  2 <= gain -> is_uint16 c ->
  of_codepoint gain c = c * 0x10000 / gain /\
  0 <= c * 0x10000 / gain < 2 ^ 31.
Proof.
  unfold is_uint16. intros Hg Hc. unfold of_codepoint.
  rewrite shiftl16_mul. change (2 ^ 16) with 0x10000.
  rewrite (to_uint32_small (c * 0x10000)) by lia.
  assert (Hq : 0 <= c * 0x10000 / gain < 2 ^ 31).
  { split.
    - apply Z.div_pos; lia.
    - apply Z.div_lt_upper_bound; nia. }
  split; [ apply to_int32_small; lia | exact Hq ].
Qed.

(** X16.  Reading a voltage setpoint back and setting it again is not
    always the identity: with a gain between 2 and 0x10000 codepoints
    per volt and a stored codepoint [c] within the limit, the second
    call succeeds and stores [c] or [c - 1], never anything else. *)
Theorem setpoint_set_again_loses_at_most_one (s : system) (r : chan_id) :
  let reg := chan r s in
  let c := vsetpoint reg in
  2 <= vsense_gain reg <= 0x10000 -> is_uint16 c -> c <= vlimit reg ->
  exists g s',
    regulator_get_vsetpoint r s = Ret g s /\
    regulator_set_vsetpoint r g s = Ret 0 s' /\
    c - 1 <= vsetpoint (chan r s') <= c.
Proof.
  intros reg c Hg Hc Hlim.
  set (gain := vsense_gain reg) in *.
  destruct (of_codepoint_exact gain c ltac:(lia) Hc) as [Hget Hrange].
  set (g := c * 0x10000 / gain) in *.
  unfold is_uint16 in Hc.
  assert (Hlow : gain * g <= c * 0x10000).
  { unfold g. apply Z.mul_div_le. lia. }
  assert (Hhigh : c * 0x10000 < gain * g + gain).
  { unfold g. pose proof (Z.div_mod (c * 0x10000) gain ltac:(lia)).
    pose proof (Z.mod_pos_bound (c * 0x10000) gain ltac:(lia)). lia. }
  destruct (to_codepoint_exact gain g ltac:(lia) ltac:(lia) ltac:(lia))
    as [Hcode _].
  assert (Hbounds : c - 1 <= Z.shiftr (gain * g) 16 <= c).
  { rewrite shiftr16_div. split.
    - apply Z.div_le_lower_bound; lia.
    - apply Z.div_le_upper_bound; lia. }
  exists g, (with_chan r (with_vsetpoint reg (to_codepoint gain g)) s).
  split; [ | split ].
  - unfold regulator_get_vsetpoint, read. fold reg c gain. rewrite Hget.
    reflexivity.
  - unfold regulator_set_vsetpoint. unfold bind at 1; unfold read.
    fold reg gain.
    destruct (Z.gtb_spec (to_codepoint gain g) (vlimit reg));
      [ lia | reflexivity ].
  - rewrite chan_with_chan. cbn [vsetpoint with_vsetpoint].
    rewrite Hcode. exact Hbounds.
Qed.

Lemma setpoint_set_again_loses_at_most_one_witness :
  let s := with_chan Chan1 (with_vsetpoint chan1_init 300) power_on in
  exists g s',
    regulator_get_vsetpoint Chan1 s = Ret g s /\
    regulator_set_vsetpoint Chan1 g s = Ret 0 s' /\
    300 - 1 <= vsetpoint (chan Chan1 s') <= 300.
Proof.
  intro s.
  assert (Hg : 2 <= vsense_gain (chan Chan1 s) <= 0x10000)
    by (split; vm_compute; discriminate).
  assert (Hc : is_uint16 (vsetpoint (chan Chan1 s)))
    by (split; vm_compute; [ discriminate | reflexivity ]).
  assert (Hl : vsetpoint (chan Chan1 s) <= vlimit (chan Chan1 s))
    by (vm_compute; discriminate).
  exact (setpoint_set_again_loses_at_most_one s Chan1 Hg Hc Hl).
Defined.

(** The loss does happen: 300 codepoints at 405 codepoints per volt
    read back as 48545 and are stored again as 299. *)
Lemma setpoint_set_again_can_lose_one :
  let s := with_chan Chan1 (with_vsetpoint chan1_init 300) power_on in
  regulator_get_vsetpoint Chan1 s = Ret 48545 s /\
  regulator_set_vsetpoint Chan1 48545 s
  = Ret 0 (with_chan Chan1 (with_vsetpoint chan1_init 299) power_on).
Proof. vm_compute. split; reflexivity. Qed.

(** X17.  The current setpoint behaves like the voltage setpoint, with
    [isense_gain] and [ilimit]: when [0 <= i] and [isense_gain * i] fits
    32 bits, the codepoint is [(isense_gain * i) >> 16]; above the limit
    the call returns 1 and changes nothing; otherwise it is stored and
    [regulator_get_isetpoint] returns a [g <= i] with
    [isense_gain * (i - g) < 0x10000 + isense_gain]. *)
Theorem set_isetpoint_roundtrip (s : system) (r : chan_id) (i : fixed32_t) :
  let reg := chan r s in
  let gain := isense_gain reg in
  0 < gain -> 0 <= i < 2 ^ 31 -> gain * i < 2 ^ 32 ->
  let c := Z.shiftr (gain * i) 16 in
  let stored := with_chan r (with_isetpoint reg c) s in
  (c > ilimit reg -> regulator_set_isetpoint r i s = Ret 1 s) /\
  (c <= ilimit reg ->
   regulator_set_isetpoint r i s = Ret 0 stored /\
   exists g,
     regulator_get_isetpoint r stored = Ret g stored /\
     g <= i /\ gain * (i - g) < 0x10000 + gain).
Proof.
  intros reg gain Hg Hi Hprod c stored.
  destruct (to_codepoint_exact gain i Hg ltac:(lia) Hprod) as [Hc _].
  fold c in Hc.
  split.
  - intro H. unfold regulator_set_isetpoint.
    unfold bind at 1; unfold read. fold reg gain. rewrite Hc.
    destruct (Z.gtb_spec c (ilimit reg)); [ reflexivity | lia ].
  - intro H. split.
    + unfold regulator_set_isetpoint.
      unfold bind at 1; unfold read. fold reg gain. rewrite Hc.
      destruct (Z.gtb_spec c (ilimit reg)); [ lia | reflexivity ].
    + destruct (of_codepoint_roundtrip gain i Hg Hi Hprod) as (H1 & _ & H2).
      exists (of_codepoint gain c). split; [ | split; assumption ].
      unfold regulator_get_isetpoint, read, stored.
      rewrite chan_with_chan. reflexivity.
Qed.

Lemma set_isetpoint_roundtrip_witness :
  let i := 0x18000 in
  let stored := with_chan Chan2 (with_isetpoint chan2_init 4374) power_on in
  regulator_set_isetpoint Chan2 i power_on = Ret 0 stored /\
  exists g, regulator_get_isetpoint Chan2 stored = Ret g stored /\
            g <= i /\ 2916 * (i - g) < 0x10000 + 2916.
Proof.
  intros i stored.
  assert (Hg : 0 < isense_gain (chan Chan2 power_on)) by reflexivity.
  assert (Hi : 0 <= i < 2 ^ 31) by (split; vm_compute; [ discriminate | reflexivity ]).
  assert (Hp : isense_gain (chan Chan2 power_on) * i < 2 ^ 32)
    by (vm_compute; reflexivity).
  destruct (set_isetpoint_roundtrip power_on Chan2 i Hg Hi Hp) as [_ Hok].
  apply Hok. vm_compute. discriminate.
Defined.

(** X18.  With gains of at least 2 codepoints per unit and 16-bit
    samples, [regulator_get_vsense] and [regulator_get_isense] return
    the sample scaled by [0x10000 / gain], a non-negative 16.16 value,
    and leave the state alone. *)
Theorem sensed_values_are_scaled_samples (s : system) (r : chan_id) :
  let reg := chan r s in
  2 <= vsense_gain reg -> 2 <= isense_gain reg -> samples_16bit reg ->
  regulator_get_vsense r s = Ret (vsense reg * 0x10000 / vsense_gain reg) s /\
  regulator_get_isense r s = Ret (isense reg * 0x10000 / isense_gain reg) s /\
  0 <= vsense reg * 0x10000 / vsense_gain reg < 2 ^ 31 /\
  0 <= isense reg * 0x10000 / isense_gain reg < 2 ^ 31.
Proof.
  intros reg Hv Hi [Hsv Hsi].
  destruct (of_codepoint_exact (vsense_gain reg) (vsense reg) Hv Hsv)
    as [Ev Rv].
  destruct (of_codepoint_exact (isense_gain reg) (isense reg) Hi Hsi)
    as [Ei Ri].
  repeat split; try lia.
  - unfold regulator_get_vsense, read. fold reg. rewrite Ev. reflexivity.
  - unfold regulator_get_isense, read. fold reg. rewrite Ei. reflexivity.
Qed.

Lemma sensed_values_are_scaled_samples_witness :
  let s := sampled 2025 620 0 0 regulating in
  regulator_get_vsense Chan1 s = Ret (5 * 0x10000) s /\
  regulator_get_isense Chan1 s = Ret 0x10000 s.
Proof.
  intro s.
  assert (Hv : 2 <= vsense_gain (chan Chan1 s)) by (vm_compute; discriminate).
  assert (Hi : 2 <= isense_gain (chan Chan1 s)) by (vm_compute; discriminate).
  assert (Hs : samples_16bit (chan Chan1 s)).
  { split; split; vm_compute; first [ discriminate | reflexivity ]. }
  destruct (sensed_values_are_scaled_samples s Chan1 Hv Hi Hs)
    as (Ev & Ei & _).
  split; [ exact Ev | exact Ei ].
Defined.

(** With a gain of 1 a sample of 0x8000 or more reads back negative. *)
Lemma sensed_value_wraps_at_unit_gain :
  of_codepoint 1 0x8000 = - 2 ^ 31.
Proof. reflexivity. Qed.

(** * Serial line reception *)

Lemma usart_store_at (pre rest : list Z) (x c : Z) :
  Usart.store (length pre) c (pre ++ x :: rest) = pre ++ c :: rest.
Proof.
  induction pre as [ | p pre IH ]; simpl; [ reflexivity | ].
  rewrite IH. reflexivity.
Qed.

Lemma usart_receive_app (a b : list Z) (st : Usart.state) :
  Usart.receive (a ++ b) st =
  match Usart.receive a st with
  | Usart.Done st' => Usart.receive b st'
  | Usart.OutOfBounds i st' => Usart.OutOfBounds i st'
  end.
Proof.
  revert st. induction a as [ | d a IH ]; intro st;
    cbn [Usart.receive app]; [ reflexivity | ].
  destruct (Usart.usart1_isr true d st); [ apply IH | reflexivity ].
Qed.

(** Bytes other than the newline are appended to the buffer. *)
Lemma usart_receive_chars (cs : list Z) :
  forall (pre rest : list Z) (log : list (list Z * Z)),
    Forall (fun d => Usart.to_uint8 d <> Usart.newline) cs ->
    (length cs <= length rest)%nat ->
    (length (pre ++ rest) <= 255)%nat ->
    Usart.receive cs (Usart.mk_state (pre ++ rest) (Z.of_nat (length pre)) log)
    = Usart.Done
        (Usart.mk_state (pre ++ map Usart.to_uint8 cs ++ skipn (length cs) rest)
           (Z.of_nat (length pre + length cs)) log).
Proof.
  induction cs as [ | d cs IH ]; intros pre rest log Hnl Hlen Hsize.
  - simpl. rewrite Nat.add_0_r. reflexivity.
  - destruct rest as [ | x rest ]; [ simpl in Hlen; lia | ].
    inversion Hnl as [ | d' cs' Hd Hcs ]; subst.
    rewrite length_app in Hsize. simpl in Hlen, Hsize.
    cbn [Usart.receive]. unfold Usart.usart1_isr, Usart.in_bounds.
    cbn [Usart.rx_head Usart.rx_buf Usart.delivered].
    destruct (Z.eqb_spec (Usart.to_uint8 d) Usart.newline); [ contradiction | ].
    rewrite length_app. cbn [length].
    destruct (Z.ltb_spec (Z.of_nat (length pre))
                (Z.of_nat (length pre + S (length rest)))); [ | lia ].
    rewrite Nat2Z.id, usart_store_at.
    rewrite to_uint32_small by lia.
    replace (Z.of_nat (length pre) + 1) with (Z.of_nat (length (pre ++ [Usart.to_uint8 d])))
      by (rewrite length_app; simpl; lia).
    replace (pre ++ Usart.to_uint8 d :: rest)
      with ((pre ++ [Usart.to_uint8 d]) ++ rest)
      by (rewrite <- app_assoc; reflexivity).
    rewrite IH; [ | assumption | lia | rewrite !length_app; simpl; lia ].
    rewrite <- app_assoc. rewrite length_app. cbn [length map skipn app].
    f_equal. f_equal. lia.
Qed.

(** X19.  Starting with an empty line buffer, a line of fewer bytes than
    the buffer holds, followed by a newline, is handed to the callback
    once: the buffer then starts with the bytes of the line followed by
    a zero byte, the length passed is the number of bytes, the rest of
    the buffer is as it was, and [rx_head] is back to 0. *)
Theorem usart_line_is_delivered (line : list Z) (st : Usart.state) :
  Usart.rx_head st = 0 ->
  (length line < length (Usart.rx_buf st) <= 255)%nat ->
  Forall (fun d => Usart.to_uint8 d <> Usart.newline) line ->
  let buf := map Usart.to_uint8 line
             ++ 0 :: skipn (S (length line)) (Usart.rx_buf st) in
  Usart.receive (line ++ [Usart.newline]) st
  = Usart.Done
      (Usart.mk_state buf 0
         ((buf, Z.of_nat (length line)) :: Usart.delivered st)) /\
  firstn (length line) buf = map Usart.to_uint8 line /\
  nth (length line) buf 1 = 0 /\
  length buf = length (Usart.rx_buf st).
Proof.
  intros Hhead Hlen Hnl buf.
  destruct st as [buf0 head log]. cbn [Usart.rx_head Usart.rx_buf Usart.delivered] in *.
  subst head.
  assert (Hfill := usart_receive_chars line [] buf0 log Hnl ltac:(lia) ltac:(simpl; lia)).
  cbn [app length Nat.add] in Hfill. change (Z.of_nat 0) with 0 in Hfill.
  split; [ | split; [ | split ] ].
  - rewrite usart_receive_app, Hfill.
    assert (Hrest : exists x rest, skipn (length line) buf0 = x :: rest
                                   /\ skipn (S (length line)) buf0 = rest).
    { clear - Hlen. revert buf0 Hlen.
      induction line as [ | d line IH ]; intros buf0 Hlen.
      - destruct buf0 as [ | x rest ]; [ simpl in Hlen; lia | ].
        exists x, rest. split; reflexivity.
      - destruct buf0 as [ | y buf0 ]; [ simpl in Hlen; lia | ].
        simpl in Hlen. destruct (IH buf0 ltac:(lia)) as (x & rest & H1 & H2).
        exists x, rest. split; assumption. }
    destruct Hrest as (x & rest & H1 & H2).
    unfold buf. rewrite H1, H2.
    cbn [Usart.receive]. unfold Usart.usart1_isr, Usart.in_bounds.
    cbn [Usart.rx_head Usart.rx_buf Usart.delivered].
    change (Usart.to_uint8 Usart.newline =? Usart.newline) with true.
    cbn iota.
    assert (Hl : length (map Usart.to_uint8 line ++ x :: rest) = length buf0).
    { rewrite <- H1, length_app, length_map, length_skipn. lia. }
    rewrite Hl.
    destruct (Z.ltb_spec (Z.of_nat (length line)) (Z.of_nat (length buf0)));
      [ | lia ].
    rewrite Nat2Z.id.
    assert (Hst : Usart.store (length line) 0
                    (map Usart.to_uint8 line ++ x :: rest)
                  = map Usart.to_uint8 line ++ 0 :: rest).
    { rewrite <- (length_map Usart.to_uint8 line) at 1. apply usart_store_at. }
    rewrite !Hst. reflexivity.
  - unfold buf. rewrite <- (length_map Usart.to_uint8 line) at 1.
    rewrite firstn_app, firstn_all, Nat.sub_diag. simpl.
    apply app_nil_r.
  - unfold buf. rewrite <- (length_map Usart.to_uint8 line) at 1.
    apply nth_middle.
  - unfold buf. rewrite length_app, length_map. cbn [length].
    rewrite length_skipn. lia.
Qed.

Lemma usart_line_is_delivered_witness :
  let line := [104; 105] in
  let buf := line ++ 0 :: repeat 0 252 in
  Usart.receive (line ++ [Usart.newline]) Usart.reset
  = Usart.Done (Usart.mk_state buf 0 [(buf, 2)]).
Proof.
  intros line buf.
  assert (Hh : Usart.rx_head Usart.reset = 0) by reflexivity.
  assert (Hl : (length line < length (Usart.rx_buf Usart.reset) <= 255)%nat)
    by (split; vm_compute; lia).
  assert (Hn : Forall (fun d => Usart.to_uint8 d <> Usart.newline) line)
    by (repeat constructor; vm_compute; discriminate).
  exact (proj1 (usart_line_is_delivered line Usart.reset Hh Hl Hn)).
Defined.

(** X20.  The buffer is never checked for room.  Starting with an empty
    line buffer, once as many bytes without a newline as the buffer
    holds have arrived, the next byte, newline or not, is stored past
    the end of the array: the terminating zero of a line of 255 bytes
    already falls outside. *)
Theorem usart_full_buffer_overruns (cs : list Z) (d : Z) (st : Usart.state) :
  Usart.rx_head st = 0 ->
  length cs = length (Usart.rx_buf st) -> (length cs <= 255)%nat ->
  Forall (fun c => Usart.to_uint8 c <> Usart.newline) cs ->
  Usart.receive (cs ++ [d]) st
  = Usart.OutOfBounds (Z.of_nat (length cs))
      (Usart.mk_state (map Usart.to_uint8 cs) (Z.of_nat (length cs))
         (Usart.delivered st)).
Proof.
  intros Hhead Hlen Hsize Hnl.
  destruct st as [buf0 head log].
  cbn [Usart.rx_head Usart.rx_buf Usart.delivered] in *. subst head.
  assert (Hfill := usart_receive_chars cs [] buf0 log Hnl ltac:(lia)
                     ltac:(simpl; lia)).
  cbn [app length Nat.add] in Hfill. change (Z.of_nat 0) with 0 in Hfill.
  assert (Hskip : skipn (length cs) buf0 = [])
    by (rewrite Hlen; apply skipn_all).
  rewrite Hskip, app_nil_r in Hfill.
  rewrite usart_receive_app, Hfill.
  cbn [Usart.receive]. unfold Usart.usart1_isr, Usart.in_bounds.
  cbn [Usart.rx_head Usart.rx_buf Usart.delivered].
  rewrite length_map, Z.ltb_irrefl.
  destruct (Usart.to_uint8 d =? Usart.newline); reflexivity.
Qed.

Lemma usart_full_buffer_overruns_witness :
  Usart.receive (repeat 65 255 ++ [Usart.newline]) Usart.reset
  = Usart.OutOfBounds 255 (Usart.mk_state (repeat 65 255) 255 []).
Proof.
  assert (Hh : Usart.rx_head Usart.reset = 0) by reflexivity.
  assert (Hl : length (repeat 65 255) = length (Usart.rx_buf Usart.reset))
    by (rewrite !repeat_length; reflexivity).
  assert (Hs : (length (repeat 65 255) <= 255)%nat)
    by (rewrite repeat_length; lia).
  assert (Hn : Forall (fun c => Usart.to_uint8 c <> Usart.newline)
                 (repeat 65 255)).
  { apply Forall_forall. intros c Hc. apply repeat_spec in Hc. subst c.
    vm_compute. discriminate. }
  pose proof (usart_full_buffer_overruns (repeat 65 255) Usart.newline
                Usart.reset Hh Hl Hs Hn) as H.
  rewrite repeat_length in H.
  replace (map Usart.to_uint8 (repeat 65 255)) with (repeat 65 255) in H
    by (vm_compute; reflexivity).
  exact H.
Defined.

Lemma skipn_past {A} (l1 l2 : list A) : skipn (length l1) (l1 ++ l2) = l2.
Proof. induction l1 as [ | a l1 IH ]; simpl; [ reflexivity | exact IH ]. Qed.

Lemma skipn_past_one {A} (l1 : list A) (x : A) (l2 : list A) :
  skipn (S (length l1)) (l1 ++ x :: l2) = l2.
Proof. induction l1 as [ | a l1 IH ]; simpl; [ reflexivity | exact IH ]. Qed.

Lemma usart_write_from_sends (c : list Z) (n : nat) :
  forall (i : nat) (sent : list Z),
    (i + n <= length c)%nat ->
    Usart.usart_write_from c i n sent
    = Usart.Sent (sent ++ firstn n (skipn i c)).
Proof.
  induction n as [ | n IH ]; intros i sent Hlen.
  - simpl. rewrite app_nil_r. reflexivity.
  - cbn [Usart.usart_write_from].
    destruct (nth_error c i) as [x | ] eqn:Hx.
    + rewrite IH by lia.
      destruct (nth_error_split c i Hx) as (l1 & l2 & Hc & Hl1).
      subst c i. rewrite <- app_assoc.
      rewrite skipn_past, skipn_past_one. reflexivity.
    + apply nth_error_None in Hx. lia.
Qed.

(** X21.  [usart_write] sends the first [length] bytes of the array in
    order when the array has that many.  With a larger [length] it sends
    the whole array and then reads past its end. *)
Theorem usart_write_sends_a_prefix (c : list Z) (n : Z) :
  0 <= n ->
  (n <= Z.of_nat (length c) ->
   Usart.usart_write c n = Usart.Sent (firstn (Z.to_nat n) c)) /\
  (Z.of_nat (length c) < n ->
   Usart.usart_write c n = Usart.ReadOutOfBounds (length c) c).
Proof.
  intro Hn. unfold Usart.usart_write. split; intro H.
  - rewrite usart_write_from_sends by (simpl; lia). reflexivity.
  - assert (Hgen : forall k i sent,
              (length c < i + k)%nat -> (i <= length c)%nat ->
              Usart.usart_write_from c i k sent
              = Usart.ReadOutOfBounds (length c) (sent ++ skipn i c)).
    { induction k as [ | k IH ]; intros i sent Hk Hi; [ lia | ].
      cbn [Usart.usart_write_from].
      destruct (nth_error c i) as [x | ] eqn:Hx.
      - assert (Hlt : (i < length c)%nat)
          by (apply nth_error_Some; congruence).
        rewrite IH by lia. f_equal.
        destruct (nth_error_split c i Hx) as (l1 & l2 & Hc & Hl1).
        subst c i. rewrite <- app_assoc.
        rewrite skipn_past, skipn_past_one. reflexivity.
      - apply nth_error_None in Hx.
        assert (i = length c) by lia. subst i.
        rewrite skipn_all, app_nil_r. reflexivity. }
    rewrite Hgen by lia. reflexivity.
Qed.

Lemma usart_write_sends_a_prefix_witness :
  Usart.usart_write [79; 75; 10] 2 = Usart.Sent [79; 75] /\
  Usart.usart_write [79; 75; 10] 4 = Usart.ReadOutOfBounds 3 [79; 75; 10].
Proof.
  destruct (usart_write_sends_a_prefix [79; 75; 10] 2 ltac:(lia)) as [Hin _].
  destruct (usart_write_sends_a_prefix [79; 75; 10] 4 ltac:(lia)) as [_ Hout].
  split; [ apply Hin; simpl; lia | apply Hout; simpl; lia ].
Defined.

(** * Ways of not returning *)

Lemma setup_common_peripherals_stalls env s :
  mode_is DISABLED (chan1 s) && mode_is DISABLED (chan2 s) = false ->
  hsi_ready env && adc_adons_set env && adc_jcnr_clear env = false ->
  exists s', setup_common_peripherals env s = Stop Stalled s'
             /\ chans s' = chans s
             /\ ch2_oc s' = ch2_oc s
             /\ calls s'
                = rev (rcc_osc_on_hsi ::
                       if hsi_ready env then
                         [ rcc_peripheral_enable_clock RCC_APB1ENR_TIM7EN;
                           rcc_peripheral_enable_clock RCC_APB2ENR_ADC1EN;
                           nvic_enable_irq_adc1;
                           adc_enable_external_trigger_injected;
                           adc_set_sample_time_on_all_channels;
                           adc_enable_eoc_interrupt_injected;
                           adc_set_clk_prescale;
                           adc_set_injected_sequence
                             [vsense1_ch; isense1_ch; vsense2_ch; isense2_ch];
                           adc_enable_scan_mode;
                           adc_power_on ]
                       else [])
                  ++ calls s.
Proof.
  intros Hactive Henv. unfold setup_common_peripherals.
  unfold bind at 1; unfold read. unfold bind at 1; unfold read.
  rewrite Hactive.
  unfold bind, read, emit, modify, clock_enable, wait_for, ret, halt.
  destruct (hsi_ready env), (adc_adons_set env), (adc_jcnr_clear env);
    try discriminate; eexists; repeat split; reflexivity.
Qed.

(** X22.  Taking a channel out of Disabled on hardware where one of the
    awaited flags never comes up does not return: the call stalls in
    the shared peripheral setup with the channel already marked with
    the new mode, and before any compare value is programmed.  The
    driver calls made up to the stall are given in full, in the order
    they are made: the clock gates of the channel's timers (after the
    sense switch on channel 1), the start of the HSI oscillator and,
    when that one comes up, the set-up of TIM7's and the ADC's clocks
    and of the ADC up to its power-on.  None of them is a timer call, so
    on every timer and every compare unit (TIM2 and TIM4 unit OC3 of
    channel 1 and both units of TIM3 among them) the last programmed
    compare value is the one from before the call; the unit selected for
    channel 2 is unchanged too. *)
Theorem enabling_stalls_on_silent_hardware (env : hw_env) (r : chan_id)
    (m : feedback_mode) (s : system) :
  mode (chan r s) = DISABLED -> m <> DISABLED ->
  hsi_ready env && adc_adons_set env && adc_jcnr_clear env = false ->
  exists s',
    regulator_set_mode env r m s = Stop Stalled s' /\
    mode (chan r s') = m /\
    chan r s' = with_mode (chan r s) m /\
    chan (other r) s' = chan (other r) s /\
    ch2_oc s' = ch2_oc s /\
    calls s'
    = rev (match r with
           | Chan1 => [ gpio_set_a5;
                        rcc_peripheral_enable_clock RCC_APB1ENR_TIM2EN;
                        rcc_peripheral_enable_clock RCC_APB1ENR_TIM4EN ]
           | Chan2 => [ rcc_peripheral_enable_clock RCC_APB1ENR_TIM3EN ]
           end
           ++ rcc_osc_on_hsi ::
              if hsi_ready env then
                [ rcc_peripheral_enable_clock RCC_APB1ENR_TIM7EN;
                  rcc_peripheral_enable_clock RCC_APB2ENR_ADC1EN;
                  nvic_enable_irq_adc1;
                  adc_enable_external_trigger_injected;
                  adc_set_sample_time_on_all_channels;
                  adc_enable_eoc_interrupt_injected;
                  adc_set_clk_prescale;
                  adc_set_injected_sequence
                    [vsense1_ch; isense1_ch; vsense2_ch; isense2_ch];
                  adc_enable_scan_mode;
                  adc_power_on ]
              else [])
      ++ calls s /\
    (forall (timer : timer_id) (oc : tim_oc_id),
       last_oc_value timer oc (calls s') = last_oc_value timer oc (calls s)) /\
    (forall (timer : timer_id) (oc : tim_oc_id) (v : Z),
       In (timer_set_oc_value timer oc v) (calls s') ->
       In (timer_set_oc_value timer oc v) (calls s)).
Proof.
  intros Hold Hm Henv.
  rewrite regulator_set_mode_steps. rewrite Hold.
  destruct (feedback_mode_eqb_spec m DISABLED) as [ | _ ]; [ contradiction | ].
  cbn [feedback_mode_eqb andb negb].
  set (s1 := with_chan r (with_mode (chan r s) m) s).
  assert (Hactive : mode_is DISABLED (chan1 s1) && mode_is DISABLED (chan2 s1)
                    = false).
  { unfold s1, mode_is. destruct r; cbn [with_chan chan chan1 chan2 mode with_mode];
      destruct m; try contradiction; cbn [feedback_mode_eqb andb];
      rewrite ?andb_false_r; reflexivity. }
  set (pre := match r with
              | Chan1 => [ gpio_set_a5;
                           rcc_peripheral_enable_clock RCC_APB1ENR_TIM2EN;
                           rcc_peripheral_enable_clock RCC_APB1ENR_TIM4EN ]
              | Chan2 => [ rcc_peripheral_enable_clock RCC_APB1ENR_TIM3EN ]
              end).
  set (shared := rcc_osc_on_hsi ::
                 if hsi_ready env then
                   [ rcc_peripheral_enable_clock RCC_APB1ENR_TIM7EN;
                     rcc_peripheral_enable_clock RCC_APB2ENR_ADC1EN;
                     nvic_enable_irq_adc1;
                     adc_enable_external_trigger_injected;
                     adc_set_sample_time_on_all_channels;
                     adc_enable_eoc_interrupt_injected;
                     adc_set_clk_prescale;
                     adc_set_injected_sequence
                       [vsense1_ch; isense1_ch; vsense2_ch; isense2_ch];
                     adc_enable_scan_mode;
                     adc_power_on ]
                 else []).
  assert (Hstall : exists s',
    enable_func env r s1 = Stop Stalled s' /\ chans s' = chans s1 /\
    ch2_oc s' = ch2_oc s /\
    calls s' = rev (pre ++ shared) ++ calls s).
  { destruct r.
    - destruct (setup_common_peripherals_stalls env
                  (with_call (rcc_peripheral_enable_clock RCC_APB1ENR_TIM4EN)
                     (with_call (rcc_peripheral_enable_clock RCC_APB1ENR_TIM2EN)
                        (with_call gpio_set_a5 s1))) Hactive Henv)
        as (s' & Hrun & Hch & Hoc & Hcalls).
      exists s'. split; [ exact Hrun | ]. split; [ exact Hch | ].
      split; [ exact Hoc | ].
      rewrite Hcalls. fold shared. unfold pre.
      rewrite rev_app_distr, <- app_assoc. reflexivity.
    - destruct (setup_common_peripherals_stalls env
                  (with_call (rcc_peripheral_enable_clock RCC_APB1ENR_TIM3EN) s1)
                  Hactive Henv)
        as (s' & Hrun & Hch & Hoc & Hcalls).
      exists s'. split; [ exact Hrun | ]. split; [ exact Hch | ].
      split; [ exact Hoc | ].
      rewrite Hcalls. fold shared. unfold pre.
      rewrite rev_app_distr, <- app_assoc. reflexivity. }
  destruct Hstall as (s' & Hrun & Hch & Hoc & Hcalls).
  assert (Hchan : chan r s' = with_mode (chan r s) m).
  { rewrite (chan_of_chans r _ _ Hch). unfold s1. apply chan_with_chan. }
  exists s'. unfold bind. rewrite Hrun.
  split; [ reflexivity | ].
  split; [ rewrite Hchan; reflexivity | ].
  split; [ exact Hchan | ].
  split.
  { rewrite (chan_of_chans (other r) _ _ Hch). unfold s1.
    destruct r; reflexivity. }
  split; [ exact Hoc | ].
  split; [ exact Hcalls | ].
  split.
  - intros timer oc. rewrite Hcalls. unfold pre, shared.
    destruct r, (hsi_ready env); reflexivity.
  - intros timer oc v. rewrite Hcalls. unfold pre, shared.
    destruct r, (hsi_ready env); cbn [rev app]; intros Hin;
      repeat (destruct Hin as [Heq | Hin]; [ discriminate Heq | ]);
      exact Hin.
Qed.

Lemma enabling_stalls_on_silent_hardware_witness :
  exists s',
    regulator_set_mode unresponsive Chan1 VOLTAGE_FB power_on = Stop Stalled s' /\
    mode (chan Chan1 s') = VOLTAGE_FB /\
    calls s' = [ rcc_osc_on_hsi;
                 rcc_peripheral_enable_clock RCC_APB1ENR_TIM4EN;
                 rcc_peripheral_enable_clock RCC_APB1ENR_TIM2EN;
                 gpio_set_a5 ] /\
    last_oc_value TIM2 TIM_OC3 (calls s') = None /\
    last_oc_value TIM4 TIM_OC3 (calls s') = None.
Proof.
  assert (Hm : VOLTAGE_FB <> DISABLED) by discriminate.
  destruct (enabling_stalls_on_silent_hardware unresponsive Chan1 VOLTAGE_FB
              power_on eq_refl Hm eq_refl)
    as (s' & Hrun & Hmode & _ & _ & _ & Hcalls & Hlast & _).
  exists s'. split; [ exact Hrun | ]. split; [ exact Hmode | ].
  split; [ rewrite Hcalls; reflexivity | ].
  split; rewrite Hlast; reflexivity.
Defined.

(** X23.  When the tick count of the new [duty1] does not fit the
    compare register, a tick in a feedback mode takes the fatal-fault
    path after the duty cycles are updated and before any compare value
    is written: on channel 1 the last driver call is the one that stops
    the counter of TIM2, on channel 2 no driver call is made. *)
Theorem feedback_faults_before_any_write (s : system) (r : chan_id) :
  mode (chan r s) <> DISABLED -> mode (chan r s) <> CONST_DUTY ->
  let after := feedback_step (chan r s) in
  pwm_ticks (period after) (duty1 after) > 0xffff ->
  exists s',
    regulator_feedback r s = Stop FatalFault s' /\
    chan r s' = after /\
    calls s' = match r with
               | Chan1 => timer_disable_counter TIM2 :: calls s
               | Chan2 => calls s
               end.
Proof.
  intros Hd Hc after Hbig.
  rewrite (regulator_feedback_runs r s Hd Hc). fold after.
  destruct r; cbn [update_duty_func].
  - unfold update_duty_ch1, bind, read, emit, modify.
    cbn [chan1 with_chan with_call].
    rewrite set_pwm_duty_faults by exact Hbig.
    eexists. repeat split; reflexivity.
  - unfold update_duty_ch2, bind, read.
    cbn [chan2 with_chan].
    rewrite set_pwm_duty_faults by exact Hbig.
    eexists. repeat split; reflexivity.
Qed.

Lemma feedback_faults_before_any_write_witness :
  let s := with_chan Chan1
             (with_period (bench VOLTAGE_FB 0xffff 0 2000 2000 0 0xffff) 0x20000)
             power_on in
  exists s',
    regulator_feedback Chan1 s = Stop FatalFault s' /\
    calls s' = timer_disable_counter TIM2 :: calls s.
Proof.
  intro s.
  assert (Hd : mode (chan Chan1 s) <> DISABLED) by (vm_compute; discriminate).
  assert (Hc : mode (chan Chan1 s) <> CONST_DUTY) by (vm_compute; discriminate).
  destruct (feedback_faults_before_any_write s Chan1 Hd Hc)
    as (s' & Hrun & _ & Hcalls).
  - vm_compute. reflexivity.
  - exists s'. split; assumption.
Defined.
